(** * TikTok downloader API: extraction pipeline, assembler and formatters

    A shallow embedding of the scraper of this repository and the proofs of
    the properties its specification states.

    - [JsNumber], [JsString]: the pieces of ECMAScript the code relies on
      (binary64 division, [toFixed], decimal printing, [parseInt], [isNaN],
      regular-expression search).
    - [JsObject]: object literals used as lookup tables.
    - [Formatter]: [lib/formatter.ts].
    - [Scraper]: the self-contained JavaScript scraper (formatters,
      [extractVideoId], [scrapeTikTok], the three strategies and
      [formatResponse]).
    - [Http], [Handler], [Download]: the two request handlers.
    - [Legacy]: the identifier extractor and the assembly of
      [lib/tiktok-scraper.ts].
    - [Examples], [Samples], [Spec], [Props]: sample records and the
      properties stated about the code.
    - [JsNumberFacts] ... [LegacyFacts]: the proofs.
*)

From Stdlib Require Import ZArith Bool List Lia Ascii String DecimalString.
From Stdlib Require Import Floats.SpecFloat.
From Stdlib Require DecimalPos.
From Stdlib Require Import Sorting.Sorted Sorting.Permutation.
Import ListNotations.

Open Scope string_scope.
Open Scope Z_scope.

(* ================================================================== *)
(** * ECMAScript numbers                                               *)
(* ================================================================== *)

Module JsNumber.

(** ** Decimal printing of integers ([Number.prototype.toString])

    Integer-valued numbers below [10^21] in magnitude print as their
    decimal digits, with a leading minus sign when negative.

    An integer [n] stands for a number where it is one: every integer
    with [-2^53 <= n <= 2^53] is a number, prints as its own digits and
    is read back from them exactly.  Beyond [2^53] not every integer is
    a number, and from [10^21] on [toString] prints an exponent; the
    statements about numbers carry the bound [2^53]. *)

Definition dec (n : Z) : string := NilZero.string_of_int (Z.to_int n).

Definition digit_string (d : Z) : string := dec d.

(** ** Binary64 division of positive integers ([Number::divide])

    The quotient is rounded to the nearest number with a 53-bit
    significand, ties to the even significand.  The result [(m, sh)]
    stands for the dyadic rational [m / 2^sh].  Operands stay within
    [1 .. 2^53], far from the subnormal and overflow ranges. *)

Definition scale (a b sh : Z) : Z * Z :=
  if 0 <=? sh then (a * 2 ^ sh, b) else (a, b * 2 ^ (- sh)).

Definition round_half_even (num den : Z) : Z :=
  let q := num / den in
  let r := num mod den in
  if 2 * r <? den then q
  else if den <? 2 * r then q + 1
  else if Z.even q then q else q + 1.

(** The binary exponent: the [sh] with [2^52 <= a * 2^sh / b < 2^53]. *)
Definition div_shift (a b : Z) : Z :=
  let sh0 := 52 - (Z.log2 a - Z.log2 b) in
  let '(num0, den0) := scale a b sh0 in
  if num0 / den0 <? 2 ^ 52 then sh0 + 1 else sh0.

Definition div (a b : Z) : Z * Z :=
  let sh := div_shift a b in
  let '(num, den) := scale a b sh in
  (round_half_even num den, sh).

(** ** [Number.prototype.toFixed]

    For [x = m / 2^sh] below [10^21] and [k = 10^f]: [scaled_round k x]
    is the integer [n] with [n / k] nearest to [x] (the larger one on a
    tie), which [toFixed(f)] prints with a point before its last [f]
    digits. *)

Definition scaled_round (k : Z) (x : Z * Z) : Z :=
  let '(m, sh) := x in
  if 0 <=? sh then (2 * k * m + 2 ^ sh) / 2 ^ (sh + 1)
  else k * m * 2 ^ (- sh).

Definition toFixed1 (x : Z * Z) : string :=
  let n := scaled_round 10 x in
  dec (n / 10) ++ "." ++ digit_string (n mod 10).

Definition toFixed2 (x : Z * Z) : string :=
  let n := scaled_round 100 x in
  dec (n / 100) ++ "." ++ digit_string (n mod 100 / 10)
                ++ digit_string (n mod 10).

(** The same quotient through the Standard Library's IEEE-754
    specification, used to cross-check [div]. *)

Definition to_binary64 (z : Z) : spec_float :=
  binary_normalize 53 1024 z 0 false.

Definition SFdiv64 (a b : Z) : spec_float :=
  SFdiv 53 1024 (to_binary64 a) (to_binary64 b).

Definition same_value (x : Z * Z) (f : spec_float) : bool :=
  let '(m, sh) := x in
  match f with
  | S754_finite false fm fe =>
      (* m / 2^sh = fm * 2^fe, cleared of negative exponents *)
      let k := Z.max 0 (Z.max sh (- fe)) in
      m * 2 ^ (k - sh) =? Z.pos fm * 2 ^ (k + fe)
  | _ => false
  end.

(** [count] integers from [lo] on, [step] apart. *)
Definition every (step lo count : Z) : list Z :=
  map (fun i => lo + step * Z.of_nat i) (seq 0 (Z.to_nat count)).

End JsNumber.

(* ================================================================== *)
(** * ECMAScript strings                                               *)
(* ================================================================== *)

Module JsString.

(** A string is a sequence of code units below 256, one character of
    the library each. *)
Definition chars (s : string) : list ascii := list_ascii_of_string s.

(** [String.prototype.includes] *)
Fixpoint includes (s sub : string) : bool :=
  String.prefix sub s ||
  match s with
  | EmptyString => false
  | String _ s' => includes s' sub
  end.

(** [s.replace(/\.0$/, '')]: a final ".0" is removed. *)
Fixpoint strip_dot_zero (s : string) : string :=
  if String.eqb s ".0" then ""
  else match s with
       | EmptyString => ""
       | String c s' => String c (strip_dot_zero s')
       end.

(** ** Character classes *)

Definition code (c : ascii) : N := N_of_ascii c.

Definition is_digit (c : ascii) : bool :=
  ((48 <=? code c) && (code c <=? 57))%N.

Definition is_word (c : ascii) : bool :=      (* \w *)
  (is_digit c
   || ((65 <=? code c) && (code c <=? 90))
   || ((97 <=? code c) && (code c <=? 122))
   || (code c =? 95))%N.

Definition is_line_terminator (c : ascii) : bool :=
  ((code c =? 10) || (code c =? 13))%N.

(** White space and line terminators skipped by [parseInt] and by the
    string-to-number conversion: those below 256, the last being the
    no-break space. *)
Definition is_space (c : ascii) : bool :=
  ((code c =? 9) || (code c =? 10) || (code c =? 11) || (code c =? 12)
   || (code c =? 13) || (code c =? 32) || (code c =? 160))%N.

(** Value of a digit in radix 16 (and so in radix 10, 8 and 2). *)
Definition hex_value (c : ascii) : option Z :=
  let n := Z.of_N (code c) in
  if is_digit c then Some (n - 48)
  else if ((97 <=? code c) && (code c <=? 102))%N then Some (n - 87)
  else if ((65 <=? code c) && (code c <=? 70))%N then Some (n - 55)
  else None.

Definition digit_in (radix : Z) (c : ascii) : bool :=
  match hex_value c with
  | Some v => v <? radix
  | None => false
  end.

Fixpoint skip_while (p : ascii -> bool) (l : list ascii) : list ascii :=
  match l with
  | c :: l' => if p c then skip_while p l' else l
  | [] => []
  end.

Fixpoint take_while (p : ascii -> bool) (l : list ascii) : list ascii :=
  match l with
  | c :: l' => if p c then c :: take_while p l' else []
  | [] => []
  end.

Definition nonempty {A} (l : list A) : bool :=
  match l with [] => false | _ => true end.

(** ** The string-to-number conversion, as far as [isNaN] needs it:
    does the string spell a [StringNumericLiteral]? *)

Definition strip_sign (l : list ascii) : list ascii :=
  match l with
  | "+"%char :: l' => l'
  | "-"%char :: l' => l'
  | _ => l
  end.

Definition exponent_part_opt (l : list ascii) : bool :=
  match l with
  | [] => true
  | c :: l' =>
      (Ascii.eqb c "e" || Ascii.eqb c "E")
      && nonempty (strip_sign l') && forallb is_digit (strip_sign l')
  end.

Definition unsigned_decimal (l : list ascii) : bool :=
  if String.eqb (string_of_list_ascii l) "Infinity" then true
  else
    let int := take_while is_digit l in
    match skip_while is_digit l with
    | "."%char :: l' =>
        (nonempty int || nonempty (take_while is_digit l'))
        && exponent_part_opt (skip_while is_digit l')
    | rest => nonempty int && exponent_part_opt rest
    end.

Definition numeric_literal (l : list ascii) : bool :=
  match l with
  | [] => true                                   (* the empty string is 0 *)
  | "0"%char :: p :: l' =>
      if Ascii.eqb p "x" || Ascii.eqb p "X" then
        nonempty l' && forallb (digit_in 16) l'
      else if Ascii.eqb p "o" || Ascii.eqb p "O" then
        nonempty l' && forallb (digit_in 8) l'
      else if Ascii.eqb p "b" || Ascii.eqb p "B" then
        nonempty l' && forallb (digit_in 2) l'
      else unsigned_decimal l
  | _ => unsigned_decimal (strip_sign l)
  end.

Definition trim (l : list ascii) : list ascii :=
  rev (skip_while is_space (rev (skip_while is_space l))).

(** [Number(s)] is not [NaN]. *)
Definition spells_number (s : string) : bool :=
  numeric_literal (trim (chars s)).

(** ** [parseInt(s)] with no radix: [None] stands for [NaN].  The value
    read is exact where it is at most [2^53] in magnitude; beyond, the
    language rounds it to a number. *)

Definition digits_value (radix : Z) (l : list ascii) : Z :=
  fold_left (fun acc c =>
               match hex_value c with
               | Some v => acc * radix + v
               | None => acc
               end) l 0.

Definition parseInt (s : string) : option Z :=
  let l := skip_while is_space (chars s) in
  let sign := match l with "-"%char :: _ => -1 | _ => 1 end in
  let l := strip_sign l in
  let '(radix, l) :=
    match l with
    | "0"%char :: p :: l' =>
        if Ascii.eqb p "x" || Ascii.eqb p "X" then (16, l') else (10, l)
    | _ => (10, l)
    end in
  let ds := take_while (digit_in radix) l in
  if nonempty ds then Some (sign * digits_value radix ds) else None.

(** ** Regular-expression search ([String.prototype.match])

    The patterns of the code are sequences of literals, greedy [cls+]
    runs, one captured greedy run [(cls+)] and [.*].  [match_here]
    follows the backtracking order of the language: a greedy run first
    takes as many characters as it can and gives them back one at a time;
    [search] tries the start positions from left to right.  The result is
    the text of the capture group. *)

Inductive item :=
| Lit (s : string)
| Plus (cls : ascii -> bool)
| Capture (cls : ascii -> bool)
| AnyStar.

Definition is_capture (i : item) : Prop :=
  match i with Capture _ => True | _ => False end.

Fixpoint strip_prefix (p l : list ascii) : option (list ascii) :=
  match p, l with
  | [], _ => Some l
  | c :: p', d :: l' => if Ascii.eqb c d then strip_prefix p' l' else None
  | _ :: _, [] => None
  end.

Fixpoint first_down {A} (f : nat -> option A) (k : nat) : option A :=
  match f k with
  | Some r => Some r
  | None => match k with
            | O => None
            | S k' => first_down f k'
            end
  end.

Fixpoint match_here (p : list item) (l : list ascii) (cap : list ascii)
  : option (list ascii) :=
  match p with
  | [] => Some cap
  | Lit s :: p' =>
      match strip_prefix (chars s) l with
      | Some l' => match_here p' l' cap
      | None => None
      end
  | Plus cls :: p' =>
      first_down (fun k => match k with
                           | O => None
                           | _ => match_here p' (skipn k l) cap
                           end)
                 (List.length (take_while cls l))
  | Capture cls :: p' =>
      first_down (fun k => match k with
                           | O => None
                           | _ => match_here p' (skipn k l) (firstn k l)
                           end)
                 (List.length (take_while cls l))
  | AnyStar :: p' =>
      first_down (fun k => match_here p' (skipn k l) cap)
                 (List.length
                    (take_while (fun c => negb (is_line_terminator c)) l))
  end.

Fixpoint search (p : list item) (l : list ascii) : option (list ascii) :=
  match match_here p l [] with
  | Some cap => Some cap
  | None => match l with
            | [] => None
            | _ :: l' => search p l'
            end
  end.

(** [s.match(p)], then [match[1]]. *)
Definition match1 (s : string) (p : list item) : option string :=
  option_map string_of_list_ascii (search p (chars s)).

End JsString.

(* ================================================================== *)
(** * Object literals used as lookup tables                            *)
(* ================================================================== *)

Module JsObject.

(** An object literal inherits from [Object.prototype]: [obj[key]] finds
    the own property [key], or else the member of [Object.prototype] of
    that name, or else is [undefined]. *)
Definition object_prototype_members : list string :=
  [ "constructor"; "__defineGetter__"; "__defineSetter__";
    "hasOwnProperty"; "__lookupGetter__"; "__lookupSetter__";
    "isPrototypeOf"; "propertyIsEnumerable"; "toString"; "valueOf";
    "__proto__"; "toLocaleString" ].

Inductive lookup (A : Type) :=
| Own (v : A)               (* an own property of the literal *)
| Inherited (key : string)  (* a function or object of the prototype *)
| Absent.                   (* undefined *)
Arguments Own {A} v.
Arguments Inherited {A} key.
Arguments Absent {A}.

Fixpoint own {A} (obj : list (string * A)) (key : string) : option A :=
  match obj with
  | [] => None
  | (k, v) :: obj' => if String.eqb k key then Some v else own obj' key
  end.

Definition get {A} (obj : list (string * A)) (key : string) : lookup A :=
  match own obj key with
  | Some v => Own v
  | None =>
      if existsb (String.eqb key) object_prototype_members
      then Inherited key else Absent
  end.

(** Truthiness of a string: only the empty string is falsy. *)
Definition truthy_string (s : string) : bool := negb (String.eqb s "").

End JsObject.

(* ================================================================== *)
(** * lib/formatter.ts                                                 *)
(* ================================================================== *)

Module Formatter.

Import JsNumber JsString JsObject.

(** [formatNumber(num: number)], on the integer-valued numbers of at
    most [2^53] in magnitude. *)
Definition formatNumber (num : Z) : string :=
  if num >=? 1000000 then
    strip_dot_zero (toFixed1 (div num 1000000)) ++ "m"
  else if num >=? 1000 then
    strip_dot_zero (toFixed1 (div num 1000)) ++ "k"
  else dec num.

(** The own properties of [regionMap]. *)
Definition regionMap : list (string * string) :=
  [ ("US", "United States"); ("GB", "United Kingdom"); ("CA", "Canada");
    ("AU", "Australia"); ("DE", "Germany"); ("FR", "France");
    ("JP", "Japan"); ("KR", "South Korea"); ("IN", "India");
    ("BR", "Brazil"); ("MX", "Mexico"); ("ID", "Indonesia");
    ("RU", "Russia"); ("TR", "Turkey"); ("SA", "Saudi Arabia");
    ("TH", "Thailand"); ("VN", "Vietnam"); ("PH", "Philippines");
    ("MY", "Malaysia"); ("SG", "Singapore"); ("TW", "Taiwan");
    ("HK", "Hong Kong"); ("CN", "China") ].

(** What [parseRegion] evaluates to: a string, or the member of
    [Object.prototype] that the lookup reached. *)
Inductive region :=
| Name (s : string)
| Member (key : string).

(** [parseRegion(locationCreated)]; [None] is an absent ([undefined])
    argument, whose property key is the string "undefined". *)
Definition parseRegion (locationCreated : option string) : region :=
  let key := match locationCreated with
             | Some s => s
             | None => "undefined"
             end in
  let otherwise :=
    match locationCreated with
    | Some s => if truthy_string s then Name s else Name "Unknown"
    | None => Name "Unknown"
    end in
  match get regionMap key with
  | Own v => if truthy_string v then Name v else otherwise
  | Inherited k => Member k
  | Absent => otherwise
  end.

(** [formatBytes(bytes: number)], on integer byte counts. *)
Definition formatBytes (bytes : Z) : string :=
  if bytes =? 0 then "0 MB"
  else if bytes <? 0 then
    "-" ++ toFixed2 (div (- bytes) (1024 * 1024)) ++ " MB"
  else toFixed2 (div bytes (1024 * 1024)) ++ " MB".

End Formatter.

(* ================================================================== *)
(** * The scraper (formatters, identifier extractor, assembler,        *)
(**   strategies and orchestrator of the JavaScript handler)           *)
(* ================================================================== *)

Module Scraper.

Import JsNumber JsString JsObject.

(** ** Values read from the upstream record

    The counters of an upstream record arrive as whatever the JSON held.
    Numbers are the integer-valued ones of at most [2^53] in magnitude
    (where every integer is a number and [parseInt] of a number, which
    goes through its decimal digits, is the number itself) and [NaN]. *)

Inductive num :=
| Int (z : Z)
| NaN.

Inductive val :=
| Undefined
| Null
| Bool (b : bool)
| Number (n : num)
| Str (s : string).

Definition truthy (v : val) : bool :=
  match v with
  | Undefined | Null => false
  | Bool b => b
  | Number (Int z) => negb (z =? 0)
  | Number NaN => false
  | Str s => truthy_string s
  end.

(** [a || b] *)
Definition or (a b : val) : val := if truthy a then a else b.

(** [a || b] on optional fields of one type, given its truthiness. *)
Definition or_else {A} (t : A -> bool) (a : option A) (b : A) : A :=
  match a with
  | Some x => if t x then x else b
  | None => b
  end.

Definition or_opt {A} (t : A -> bool) (a b : option A) : option A :=
  match a with
  | Some x => if t x then a else b
  | None => b
  end.

Definition truthy_Z (z : Z) : bool := negb (z =? 0).

(** [isNaN(v)]: does [Number(v)] give [NaN]? *)
Definition isNaN (v : val) : bool :=
  match v with
  | Undefined => true
  | Null => false
  | Bool _ => false
  | Number (Int _) => false
  | Number NaN => true
  | Str s => negb (spells_number s)
  end.

(** [parseInt(v)]: the argument is first turned into a string.  The
    result is exact where it is at most [2^53] in magnitude; beyond, the
    code rounds it to a number. *)
Definition parseInt (v : val) : num :=
  match v with
  | Number (Int z) => Int z
  | Str s => match JsString.parseInt s with
             | Some z => Int z
             | None => NaN
             end
  | _ => NaN          (* "undefined", "null", "true", "false", "NaN" *)
  end.

(** ** Formatters *)

Definition formatNumber (num : val) : string :=
  if negb (truthy num) || isNaN num then "0"
  else
    match parseInt num with
    | NaN => "NaN"      (* every comparison with NaN is false *)
    | Int n =>
        if n >=? 1000000 then
          strip_dot_zero (toFixed1 (div n 1000000)) ++ "m"
        else if n >=? 1000 then
          strip_dot_zero (toFixed1 (div n 1000)) ++ "k"
        else dec n
    end.

(** [formatBytes], on integer byte counts. *)
Definition formatBytes (bytes : Z) : string :=
  if negb (truthy_Z bytes) || (bytes =? 0) then "0 MB"
  else if bytes <? 0 then
    "-" ++ toFixed2 (div (- bytes) (1024 * 1024)) ++ " MB"
  else toFixed2 (div bytes (1024 * 1024)) ++ " MB".

Definition regionMap : list (string * string) :=
  [ ("US", "United States"); ("GB", "United Kingdom"); ("CA", "Canada");
    ("AU", "Australia"); ("DE", "Germany"); ("FR", "France");
    ("JP", "Japan"); ("KR", "South Korea"); ("IN", "India");
    ("BR", "Brazil"); ("MX", "Mexico"); ("ID", "Indonesia");
    ("RU", "Russia"); ("TR", "Turkey"); ("SA", "Saudi Arabia");
    ("TH", "Thailand"); ("VN", "Vietnam"); ("PH", "Philippines");
    ("MY", "Malaysia"); ("SG", "Singapore"); ("TW", "Taiwan");
    ("HK", "Hong Kong"); ("CN", "China"); ("NG", "Nigeria");
    ("ZA", "South Africa"); ("EG", "Egypt"); ("AE", "UAE");
    ("PK", "Pakistan"); ("BD", "Bangladesh"); ("IT", "Italy");
    ("ES", "Spain"); ("NL", "Netherlands"); ("PL", "Poland") ].

Definition parseRegion (locationCreated : string) : Formatter.region :=
  let otherwise :=
    if truthy_string locationCreated then Formatter.Name locationCreated
    else Formatter.Name "Unknown" in
  match get regionMap locationCreated with
  | Own v => if truthy_string v then Formatter.Name v else otherwise
  | Inherited k => Formatter.Member k
  | Absent => otherwise
  end.

(** ** Identifier extractor *)

Definition is_word_or_dot (c : ascii) : bool :=
  is_word c || Ascii.eqb c ".".

Definition patterns : list (list item) :=
  [ [Lit "tiktok.com/@"; Plus is_word_or_dot; Lit "/video/"; Capture is_digit];
    [Lit "tiktok.com/t/"; Capture is_word];
    [Lit "vm.tiktok.com/"; Capture is_word];
    [Lit "vt.tiktok.com/"; Capture is_word];
    [Lit "tiktok.com/video/"; Capture is_digit];
    [Lit "/v/"; Capture is_digit];
    [Lit "m.tiktok.com/v/"; Capture is_digit];
    [Lit "tiktok.com/"; AnyStar; Lit "/video/"; Capture is_digit] ].

(** The first pattern that matches gives its capture group; [None] is
    the [null] of the code. *)
Fixpoint first_match (url : string) (ps : list (list item)) : option string :=
  match ps with
  | [] => None
  | p :: ps' => match match1 url p with
                | Some id => Some id
                | None => first_match url ps'
                end
  end.

Definition extractVideoId (url : string) : option string :=
  first_match url patterns.

(** ** The raw item record

    The record is read field by field, every field optional ([None] is
    [undefined]).  Fields are typed the way the assembler uses them: URL
    lists hold strings, labels are strings, sizes are integers; the
    counters of [statistics] are arbitrary values, since the assembler
    itself converts them.  The fields of the canonical record left out
    here ([thumbnail], [author], [music], [duration], [createdAt]) are
    computed from [cover], [author], [music], [duration] and
    [create_time] alone and feed nothing else.

    The assembler throws on some records: [toISOString] throws on a
    [create_time] that is not a valid time, and a method call fails on a
    field of another type than the one given here (a label that is not a
    string, a [null] entry of [bit_rate] or [images]).  The record type
    holds the records on which it returns; the strategies, which call
    it inside their [try] blocks, meet the others as the [Broken]
    answers of the upstream. *)

Record Addr := { url_list : option (list string) }.

Record BitRate := {
  br_play_addr : option Addr;
  br_width : option Z;
  br_height : option Z;
  br_quality : option string;
  br_data_size : option Z;
  br_bit_rate : option Z }.

Record VideoInfo := {
  play_addr : option Addr;
  ratio : option string;
  quality : option string;
  width : option Z;
  height : option Z;
  bitrate : option Z;
  bit_rate : option (list BitRate);
  download_addr : option Addr }.

Record Image := {
  img_url_list : option (list string);
  display_image : option Addr;
  origin_image : option Addr;
  img_width : option Z;
  img_height : option Z }.

Record ImagePost := { images : option (list Image) }.

Record Stats := {
  digg_count : val;    diggCount : val;
  comment_count : val; commentCount : val;
  share_count : val;   shareCount : val;
  play_count : val;    playCount : val }.

Record ItemStruct := {
  imagePost : option ImagePost;
  image_post_info : option ImagePost;
  aweme_type : option Z;
  video : option VideoInfo;
  statistics : option Stats;
  stats : option Stats;
  desc : option string;
  description : option string;
  region : option string;
  location_created : option string;
  aweme_id : option string;
  id : option string;
  video_id : option string }.

(** The object literal [{}]. *)
Definition empty_video : VideoInfo :=
  {| play_addr := None; ratio := None; quality := None; width := None;
     height := None; bitrate := None; bit_rate := None;
     download_addr := None |}.

Definition empty_stats : Stats :=
  {| digg_count := Undefined; diggCount := Undefined;
     comment_count := Undefined; commentCount := Undefined;
     share_count := Undefined; shareCount := Undefined;
     play_count := Undefined; playCount := Undefined |}.

(** ** The canonical record *)

Record VideoQuality := {
  q_url : string;
  q_quality : string;
  q_size : string;
  q_sizeBytes : Z;
  q_width : Z;
  q_height : Z;
  q_bitrate : Z;
  q_type : option string }.

Record Video := {
  noWatermark : list VideoQuality;
  withWatermark : list VideoQuality;
  hd : option string }.          (* [None] is [null] *)

Record ImageData := {
  i_url : string;
  i_width : Z;
  i_height : Z }.

Record Statistics := {
  likes : string;
  comments : string;
  shares : string;
  views : string;
  likesRaw : num;
  commentsRaw : num;
  sharesRaw : num;
  viewsRaw : num }.

Record VideoData := {
  d_type : string;
  d_id : option string;
  d_desc : string;
  d_statistics : Statistics;
  d_region : Formatter.region;
  d_video : option Video;             (* [None]: the property is absent *)
  d_images : option (list ImageData) }.

Record TikTokResponse := {
  status : string;
  data : option VideoData;
  message : option string }.

(** ** Array helpers *)

(** [l?.length > 0] *)
Definition has_items {A} (l : option (list A)) : bool :=
  match l with
  | Some (_ :: _) => true
  | _ => false
  end.

(** [l?.[0]] *)
Definition first {A} (l : option (list A)) : option A :=
  match l with
  | Some (x :: _) => Some x
  | _ => None
  end.

(** [a?.url_list] and [p?.images] *)
Definition addr_urls (a : option Addr) : option (list string) :=
  match a with Some a => url_list a | None => None end.

Definition post_images (p : option ImagePost) : option (list Image) :=
  match p with Some p => images p | None => None end.

(** The filter over a [Set] of the URLs seen so far. *)
Fixpoint dedup (seenUrls : list string) (qs : list VideoQuality)
  : list VideoQuality :=
  match qs with
  | [] => []
  | q :: qs' =>
      if existsb (String.eqb (q_url q)) seenUrls then dedup seenUrls qs'
      else q :: dedup (q_url q :: seenUrls) qs'
  end.

(** [Array.prototype.sort(comparefn)] is stable: an element moves behind
    another only when [comparefn] puts it after (a positive result). *)
Fixpoint insert {A} (cmp : A -> A -> Z) (x : A) (l : list A) : list A :=
  match l with
  | [] => [x]
  | y :: l' => if 0 <? cmp x y then y :: insert cmp x l' else x :: l
  end.

Definition sort {A} (cmp : A -> A -> Z) (l : list A) : list A :=
  fold_right (insert cmp) [] l.

(** ** Quality ranking *)

Definition qualityOrder : list (string * Z) :=
  [ ("1080p", 4); ("720p", 3); ("540p", 2); ("480p", 1) ].

(** [qualityOrder[label] || 0], as the number the subtraction sees: a
    member inherited from [Object.prototype] is truthy and converts to
    [NaN]. *)
Definition score (label : string) : num :=
  match get qualityOrder label with
  | Own r => if truthy_Z r then Int r else Int 0
  | Inherited _ => NaN
  | Absent => Int 0
  end.

(** The comparator [(a, b) => bScore - aScore]; [sort] reads a [NaN]
    result as [+0]. *)
Definition by_quality (a b : VideoQuality) : Z :=
  match score (q_quality a), score (q_quality b) with
  | Int aScore, Int bScore => bScore - aScore
  | _, _ => 0
  end.

(** ** Response assembler *)

(** Template-literal conversion of an optional integer. *)
Definition to_string (z : option Z) : string :=
  match z with
  | Some z => dec z
  | None => "undefined"
  end.

Fixpoint play_entries (videoInfo : VideoInfo) (index : nat)
         (urls : list string) : list VideoQuality :=
  match urls with
  | [] => []
  | url :: urls' =>
      (if truthy_string url then
         [ {| q_url := url;
              q_quality := or_else truthy_string (ratio videoInfo)
                             (or_else truthy_string (quality videoInfo) "540p");
              q_size := "Unknown";
              q_sizeBytes := 0;
              q_width := or_else truthy_Z (width videoInfo) 576;
              q_height := or_else truthy_Z (height videoInfo) 1024;
              q_bitrate := or_else truthy_Z (bitrate videoInfo) 0;
              q_type := Some (match index with
                              | O => "primary"
                              | _ => "fallback"
                              end) |} ]
       else []) ++ play_entries videoInfo (S index) urls'
  end.

Definition bitrate_entry (info : BitRate) : list VideoQuality :=
  match first (addr_urls (br_play_addr info)) with
  | Some url =>
      if truthy_string url then
        [ {| q_url := url;
             q_quality :=
               or_else truthy_string
                 (Some (to_string (br_width info) ++ "x"
                        ++ to_string (br_height info)))
                 (or_else truthy_string (br_quality info) "540p");
             q_size := formatBytes (or_else truthy_Z (br_data_size info) 0);
             q_sizeBytes := or_else truthy_Z (br_data_size info) 0;
             q_width := or_else truthy_Z (br_width info) 576;
             q_height := or_else truthy_Z (br_height info) 1024;
             q_bitrate := or_else truthy_Z (br_bit_rate info) 0;
             q_type := Some "bitrate" |} ]
      else []
  | None => []
  end.

Fixpoint download_entries (videoInfo : VideoInfo) (urls : list string)
  : list VideoQuality :=
  match urls with
  | [] => []
  | url :: urls' =>
      (if truthy_string url then
         [ {| q_url := url;
              q_quality := or_else truthy_string (ratio videoInfo) "540p";
              q_size := "Unknown";
              q_sizeBytes := 0;
              q_width := or_else truthy_Z (width videoInfo) 576;
              q_height := or_else truthy_Z (height videoInfo) 1024;
              q_bitrate := or_else truthy_Z (bitrate videoInfo) 0;
              q_type := None |} ]
       else []) ++ download_entries videoInfo urls'
  end.

Definition isImagePost (itemStruct : ItemStruct) : bool :=
  has_items (post_images (imagePost itemStruct))
  || has_items (post_images (image_post_info itemStruct))
  || match aweme_type itemStruct with
     | Some t => t =? 150
     | None => false
     end.

(** The candidates pushed on [qualities], in order. *)
Definition qualities (videoInfo : VideoInfo) : list VideoQuality :=
  (if has_items (addr_urls (play_addr videoInfo)) then
     play_entries videoInfo 0
       (match addr_urls (play_addr videoInfo) with
        | Some l => l
        | None => []
        end)
   else [])
  ++
  (if has_items (bit_rate videoInfo) then
     flat_map bitrate_entry
       (match bit_rate videoInfo with Some l => l | None => [] end)
   else []).

Definition with_watermark (videoInfo : VideoInfo) : list VideoQuality :=
  if has_items (addr_urls (download_addr videoInfo)) then
    download_entries videoInfo
      (match addr_urls (download_addr videoInfo) with
       | Some l => l
       | None => []
       end)
  else [].

Definition is_hd (q : VideoQuality) : bool :=
  includes (q_quality q) "720" || includes (q_quality q) "1080".

Definition make_video (videoInfo : VideoInfo) : Video :=
  let uniqueQualities := sort by_quality (dedup [] (qualities videoInfo)) in
  {| noWatermark := uniqueQualities;
     withWatermark := with_watermark videoInfo;
     hd := or_opt truthy_string
             (option_map q_url (find is_hd uniqueQualities))
             (or_opt truthy_string
                (option_map q_url (first (Some uniqueQualities)))
                None) |}.

Definition make_image (img : Image) : ImageData :=
  {| i_url :=
       or_else truthy_string (first (img_url_list img))
         (or_else truthy_string (first (addr_urls (display_image img)))
            (or_else truthy_string (first (addr_urls (origin_image img)))
               ""));
     i_width := or_else truthy_Z (img_width img) 1080;
     i_height := or_else truthy_Z (img_height img) 1920 |}.

Definition make_images (itemStruct : ItemStruct) : list ImageData :=
  let images :=
    match post_images (imagePost itemStruct) with
    | Some l => l                       (* an array, even empty, is truthy *)
    | None =>
        match post_images (image_post_info itemStruct) with
        | Some l => l
        | None => []
        end
    end in
  filter (fun img => truthy_string (i_url img)) (map make_image images).

Definition make_statistics (stats : Stats) : Statistics :=
  {| likes := formatNumber (or (digg_count stats) (or (diggCount stats) (Number (Int 0))));
     comments := formatNumber (or (comment_count stats) (or (commentCount stats) (Number (Int 0))));
     shares := formatNumber (or (share_count stats) (or (shareCount stats) (Number (Int 0))));
     views := formatNumber (or (play_count stats) (or (playCount stats) (Number (Int 0))));
     likesRaw := parseInt (or (digg_count stats) (or (diggCount stats) (Number (Int 0))));
     commentsRaw := parseInt (or (comment_count stats) (or (commentCount stats) (Number (Int 0))));
     sharesRaw := parseInt (or (share_count stats) (or (shareCount stats) (Number (Int 0))));
     viewsRaw := parseInt (or (play_count stats) (or (playCount stats) (Number (Int 0)))) |}.

(** [formatResponse], on the records on which it returns. *)
Definition formatResponse (itemStruct : ItemStruct) : TikTokResponse :=
  let isImagePost := isImagePost itemStruct in
  let videoInfo :=
    match video itemStruct with Some v => v | None => empty_video end in
  let stats :=
    match statistics itemStruct with
    | Some s => s
    | None => match stats itemStruct with
              | Some s => s
              | None => empty_stats
              end
    end in
  let desc :=
    or_else truthy_string (desc itemStruct)
      (or_else truthy_string (description itemStruct) "") in
  let region :=
    or_else truthy_string (region itemStruct)
      (or_else truthy_string (location_created itemStruct) "Unknown") in
  let data :=
    {| d_type := if isImagePost then "images" else "video";
       d_id := or_opt truthy_string (aweme_id itemStruct)
                 (or_opt truthy_string (id itemStruct) (video_id itemStruct));
       d_desc := desc;
       d_statistics := make_statistics stats;
       d_region := parseRegion region;
       (* if (!isImagePost && videoInfo): [videoInfo] is an object *)
       d_video := if negb isImagePost then Some (make_video videoInfo)
                  else None;
       d_images := if isImagePost then Some (make_images itemStruct)
                   else None |} in
  {| status := "success"; data := Some data; message := None |}.

(** ** Effects: requests, console and exceptions

    A computation runs in a world that records the HTTP requests issued
    and the console lines written, and either returns or throws.  What is
    thrown is an [Error] object (a rejected request, a parse error), of
    which the code reads the [message]. *)

Record Error := { e_message : string }.

Record World := {
  requests : list string;     (* the URLs requested, oldest first *)
  console : list string }.

Inductive result (A : Type) :=
| Return (a : A)
| Throw (e : Error).
Arguments Return {A} a.
Arguments Throw {A} e.

Definition M (A : Type) : Type := World -> result A * World.

Definition ret {A} (a : A) : M A := fun w => (Return a, w).

Definition throw {A} (e : Error) : M A := fun w => (Throw e, w).

Definition bind {A B} (m : M A) (k : A -> M B) : M B :=
  fun w => match m w with
           | (Return a, w') => k a w'
           | (Throw e, w') => (Throw e, w')
           end.

Definition try_catch {A} (m : M A) (handler : Error -> M A) : M A :=
  fun w => match m w with
           | (Return a, w') => (Return a, w')
           | (Throw e, w') => handler e w'
           end.

Notation "x <- m ;; k" := (bind m (fun x => k))
  (at level 61, m at next level, right associativity).
Notation "m ;;; k" := (bind m (fun _ => k))
  (at level 61, right associativity).

Definition console_log (line : string) : M unit :=
  fun w => (Return tt, {| requests := requests w;
                          console := console w ++ [line] |}).

(** What a request, or one data container of a page, holds for the code
    that reads it.  [formatResponse] is called inside the [try] blocks
    of the strategies, and it throws on some records (an invalid
    [create_time] makes [toISOString] throw, a field of another type
    than the typed record gives it makes a method call fail): such a
    record is a [Broken] answer, and [Item] is a record on which
    [formatResponse] returns. *)
Inductive fetched :=
| Fails (e : Error)                 (* the request, or the reading of
                                       its body, throws [e] *)
| NoItem                            (* no item record is found *)
| Item (itemStruct : ItemStruct)    (* a record that is assembled *)
| Broken (e : Error).               (* a record on which the assembler
                                       throws [e] *)

(** What the request for a page comes to: it throws, or the page is
    loaded and searched for its three data containers,
    [#__UNIVERSAL_DATA_FOR_REHYDRATION__], [#__SIGI_STATE__] and
    [#__NEXT_DATA__]; for a container [Fails] is a throw of
    [JSON.parse]. *)
Inductive page :=
| Unreachable (e : Error)
| Html (universal sigi next : fetched).

Section Pipeline.

(** The upstream, one oracle per endpoint class: the page of a URL, a
    mobile-API mirror asked for [aweme_list[0]], the embed page searched
    for its hydration script. *)
Variable web_page : string -> page.
Variable mobile_api : string -> fetched.
Variable embed_page : string -> fetched.

(** [await axios.get(url, config)]: the request is on record whatever
    comes of it. *)
Definition axios_get (url : string) : M unit :=
  fun w => (Return tt, {| requests := requests w ++ [url];
                          console := console w |}).

(** The reading of an answer, up to
    [if (itemStruct) return formatResponse(itemStruct)]. *)
Definition read (a : fetched) : M (option TikTokResponse) :=
  match a with
  | Fails e => throw e
  | NoItem => ret None
  | Item itemStruct => ret (Some (formatResponse itemStruct))
  | Broken e => throw e
  end.

Definition request (upstream : string -> fetched) (url : string)
  : M (option TikTokResponse) :=
  axios_get url ;;; read (upstream url).

(** One container of the page:
    [try { ... } catch (e) { console.log('Failed to parse <name>'); }] *)
Definition container (name : string) (a : fetched)
  : M (option TikTokResponse) :=
  try_catch (read a)
    (fun _ => console_log ("Failed to parse " ++ name) ;;; ret None).

Definition fetchFromWebPage (url : string) : M (option TikTokResponse) :=
  axios_get url ;;;
  match web_page url with
  | Unreachable e => throw e
  | Html universal sigi next =>
      r <- container "__UNIVERSAL_DATA_FOR_REHYDRATION__" universal ;;
      match r with
      | Some response => ret (Some response)
      | None =>
          r <- container "__SIGI_STATE__" sigi ;;
          match r with
          | Some response => ret (Some response)
          | None => container "__NEXT_DATA__" next
          end
      end
  end.

Definition apiUrls (videoId : string) : list string :=
  [ "https://api16-normal-c-useast1a.tiktokv.com/aweme/v1/feed/?aweme_id=" ++ videoId;
    "https://api16-normal-c-useast2a.tiktokv.com/aweme/v1/feed/?aweme_id=" ++ videoId;
    "https://api16-core-c-useast1a.tiktokv.com/aweme/v1/feed/?aweme_id=" ++ videoId ].

Fixpoint try_mirrors (urls : list string) : M (option TikTokResponse) :=
  match urls with
  | [] => ret None
  | apiUrl :: urls' =>
      r <- try_catch (request mobile_api apiUrl)
             (fun _ => ret None) ;;             (* catch (e) { continue; } *)
      match r with
      | Some response => ret (Some response)
      | None => try_mirrors urls'
      end
  end.

Definition fetchFromApi (videoId : string) : M (option TikTokResponse) :=
  try_mirrors (apiUrls videoId).

Definition fetchFromEmbed (videoId : string) : M (option TikTokResponse) :=
  r <- try_catch
         (request embed_page ("https://www.tiktok.com/embed/" ++ videoId))
         (fun e => console_log ("Embed fetch failed: " ++ e_message e) ;;;
                   ret None) ;;
  ret r.

(** The loop over the strategies: a success envelope is returned at once,
    anything else (null, a thrown error) moves on to the next one. *)
Fixpoint run_strategies (strategies : list (M (option TikTokResponse)))
  : M TikTokResponse :=
  match strategies with
  | [] =>
      ret {| status := "error"; data := None;
             message := Some "All extraction methods failed. Video may be private, deleted, or region-blocked." |}
  | strategy :: strategies' =>
      r <- try_catch
             (result <- strategy ;;
              match result with
              | Some response =>
                  if String.eqb (status response) "success"
                  then ret (Some response) else ret None
              | None => ret None
              end)
             (fun e => console_log ("Strategy failed: " ++ e_message e) ;;;
                       ret None) ;;
      match r with
      | Some response => ret response
      | None => run_strategies strategies'
      end
  end.

Definition scrapeTikTok (url : string) : M TikTokResponse :=
  try_catch
    (match extractVideoId url with
     | Some videoId =>
         if truthy_string videoId then
           run_strategies [ fetchFromWebPage url;
                            fetchFromApi videoId;
                            fetchFromEmbed videoId ]
         else
           ret {| status := "error"; data := None;
                  message := Some "Invalid TikTok URL format" |}
     | None =>
         ret {| status := "error"; data := None;
                message := Some "Invalid TikTok URL format" |}
     end)
    (fun error =>
       console_log ("Scraping error: " ++ e_message error) ;;;
       ret {| status := "error"; data := None;
              message := Some (if truthy_string (e_message error)
                               then e_message error
                               else "Unknown error occurred") |}).

End Pipeline.

End Scraper.

(** ** Sample upstream records *)

Module Examples.

Import Scraper.

Definition addr (urls : list string) : option Addr :=
  Some {| url_list := Some urls |}.

(** A video whose primary list repeats a URL and skips an empty one, with
    a two-step bitrate ladder that repeats a primary URL, and a like
    count in display form. *)
Definition video_item : ItemStruct :=
  {| imagePost := None;
     image_post_info := None;
     aweme_type := Some 0;
     video :=
       Some {| play_addr := addr [ "https://v16.example/a"; "";
                                   "https://v16.example/b";
                                   "https://v16.example/a" ];
               ratio := Some "540p";
               quality := None;
               width := Some 576; height := Some 1024; bitrate := None;
               bit_rate :=
                 Some [ {| br_play_addr := addr [ "https://v16.example/b" ];
                           br_width := Some 1080; br_height := Some 1920;
                           br_quality := Some "1080p";
                           br_data_size := Some 1572864;
                           br_bit_rate := Some 900000 |};
                        {| br_play_addr := addr [ "https://v16.example/c" ];
                           br_width := Some 720; br_height := Some 1280;
                           br_quality := None;
                           br_data_size := None;
                           br_bit_rate := None |} ];
               download_addr := addr [ "https://v16.example/w" ] |};
     statistics :=
       Some {| digg_count := Str "1.2M"; diggCount := Undefined;
               comment_count := Number (Int 1500); commentCount := Undefined;
               share_count := Undefined; shareCount := Number (Int 42);
               play_count := Str "2000000"; playCount := Undefined |};
     stats := None;
     desc := Some "a video"; description := None;
     region := Some "US"; location_created := None;
     aweme_id := Some "7300000000000000001"; id := None; video_id := None |}.

(** An image post of three entries: a direct URL, no URL at all, and a
    URL under [display_image] behind an empty direct one. *)
Definition images_item : ItemStruct :=
  {| imagePost :=
       Some {| images :=
                 Some [ {| img_url_list := Some [ "https://p16.example/1" ];
                           display_image := None; origin_image := None;
                           img_width := Some 800; img_height := None |};
                        {| img_url_list := None;
                           display_image := None; origin_image := None;
                           img_width := None; img_height := None |};
                        {| img_url_list := Some [ "" ];
                           display_image := addr [ "https://p16.example/3" ];
                           origin_image := addr [ "https://p16.example/3o" ];
                           img_width := None; img_height := None |} ] |};
     image_post_info := None;
     aweme_type := Some 150;
     video := None;
     statistics := None; stats := None;
     desc := None; description := None;
     region := None; location_created := None;
     aweme_id := None; id := Some "7300000000000000002"; video_id := None |}.

(** An upstream that blocks the page, has nothing on the mirrors and
    times out on the embed page. *)
Definition blocked_page (_ : string) : page :=
  Unreachable {| e_message := "Request failed with status code 403" |}.

Definition empty_mirror (_ : string) : fetched := NoItem.

Definition slow_embed (_ : string) : fetched :=
  Fails {| e_message := "timeout of 10000ms exceeded" |}.

Definition video_url : string :=
  "https://www.tiktok.com/@some.user/video/7300000000000000001".

Definition start : World := {| requests := []; console := [] |}.

End Examples.

(** ** The properties the specification states, in the terms of the
    model *)

Module Spec.

Import JsNumber.

(** [q.d] with one decimal, the decimal left out when it is zero. *)
Definition one_decimal (q d : Z) : string :=
  if d =? 0 then dec q else dec q ++ "." ++ dec d.

(** The quality-rank table: 1080p:4, 720p:3, 540p:2, 480p:1 and 0 for
    any other label. *)
Definition rank (label : string) : Z :=
  if String.eqb label "1080p" then 4
  else if String.eqb label "720p" then 3
  else if String.eqb label "540p" then 2
  else if String.eqb label "480p" then 1
  else 0.

(** The first of the candidate URLs that is present and not empty, the
    empty string when there is none. *)
Fixpoint first_nonempty (candidates : list (option string)) : string :=
  match candidates with
  | [] => ""
  | Some url :: rest => if String.eqb url "" then first_nonempty rest else url
  | None :: rest => first_nonempty rest
  end.

(** The image entries the assembler reads: [imagePost.images] when that
    array is there, else [image_post_info.images], else none. *)
Definition source_images (itemStruct : Scraper.ItemStruct)
  : list Scraper.Image :=
  match Scraper.post_images (Scraper.imagePost itemStruct) with
  | Some l => l
  | None =>
      match Scraper.post_images (Scraper.image_post_info itemStruct) with
      | Some l => l
      | None => []
      end
  end.

(** The video description the assembler works on: [itemStruct.video],
    or the empty object. *)
Definition video_info (itemStruct : Scraper.ItemStruct) : Scraper.VideoInfo :=
  match Scraper.video itemStruct with
  | Some v => v
  | None => Scraper.empty_video
  end.

(** The label of every candidate of the primary play-address list. *)
Definition primary_label (videoInfo : Scraper.VideoInfo) : string :=
  Scraper.or_else JsObject.truthy_string (Scraper.ratio videoInfo)
    (Scraper.or_else JsObject.truthy_string (Scraper.quality videoInfo)
       "540p").

(** A counter that is missing or is an integer number, of at most
    [2^53] in magnitude. *)
Definition numeric (v : Scraper.val) : Prop :=
  v = Scraper.Undefined \/ v = Scraper.Null
  \/ exists z, - 2 ^ 53 <= z <= 2 ^ 53 /\ v = Scraper.Number (Scraper.Int z).

(** A well-formed result envelope: the status is "success" or "error"; a
    success carries [data] and no [message], an error carries a
    [message] and no [data]. *)
Definition well_formed (r : Scraper.TikTokResponse) : Prop :=
  (Scraper.status r = "success" \/ Scraper.status r = "error") /\
  (Scraper.status r = "success" ->
     Scraper.data r <> None /\ Scraper.message r = None) /\
  (Scraper.status r = "error" ->
     Scraper.message r <> None /\ Scraper.data r = None).

(** A strategy run that returned null or threw. *)
Definition no_result {A} (x : Scraper.result (option A) * Scraper.World)
  : Prop :=
  match fst x with
  | Scraper.Return (Some _) => False
  | _ => True
  end.

(** A strategy that, when it returns an envelope, returns one made by the
    assembler. *)
Definition assembles (m : Scraper.M (option Scraper.TikTokResponse)) : Prop :=
  forall w r w',
    m w = (Scraper.Return (Some r), w') ->
    exists itemStruct, r = Scraper.formatResponse itemStruct.

(** The one message of an exhausted pipeline. *)
Definition all_failed : Scraper.TikTokResponse :=
  {| Scraper.status := "error";
     Scraper.data := None;
     Scraper.message :=
       Some "All extraction methods failed. Video may be private, deleted, or region-blocked." |}.

Definition invalid_url : Scraper.TikTokResponse :=
  {| Scraper.status := "error";
     Scraper.data := None;
     Scraper.message := Some "Invalid TikTok URL format" |}.

End Spec.

(* ================================================================== *)
(** * The serverless handlers                                          *)
(* ================================================================== *)

(** What both handlers read of a request and write of a response. *)
Module Http.

(** [req.query?.url] or [req.body?.url]: a string, nothing, or a value of
    another type (a number, an array of repeated parameters, an object),
    of which only the truthiness matters. *)
Inductive param :=
| Missing
| Text (s : string)
| Other (truthy : bool).

Record Request := {
  method : string;
  query_url : param;
  body_url : param }.

(** The JSON body: a result envelope, or the report of an internal
    error with its optional [error] detail. *)
Inductive body :=
| Envelope (r : Scraper.TikTokResponse)
| InternalError (message : string) (error : option string).

Record Response := {
  code : Z;
  headers : list (string * string);    (* in the order they were set *)
  json : option body }.                (* [None]: [res.end()] *)

Definition truthy_param (p : param) : bool :=
  match p with
  | Missing => false
  | Text s => JsObject.truthy_string s
  | Other t => t
  end.

Definition error_envelope (message : string) : body :=
  Envelope {| Scraper.status := "error";
              Scraper.data := None;
              Scraper.message := Some message |}.

End Http.

(** The handler of the JavaScript scraper. *)
Module Handler.

Import JsString JsObject Scraper Http.

Section Handler.

Variable web_page : string -> page.
Variable mobile_api : string -> fetched.
Variable embed_page : string -> fetched.

(** [process.env.NODE_ENV] *)
Variable NODE_ENV : option string.

Definition handler (req : Request) : M Response :=
  if String.eqb (method req) "OPTIONS" then
    ret {| code := 200;
           headers :=
             [ ("Access-Control-Allow-Origin", "*");
               ("Access-Control-Allow-Methods", "GET, POST, OPTIONS");
               ("Access-Control-Allow-Headers", "Content-Type, Authorization") ];
           json := None |}
  else if negb (String.eqb (method req) "GET")
          && negb (String.eqb (method req) "POST") then
    ret {| code := 405; headers := [];
           json := Some (error_envelope "Method not allowed. Use GET or POST.") |}
  else
    try_catch
      (let url := if String.eqb (method req) "POST"
                  then body_url req else query_url req in
       if negb (truthy_param url) then
         ret {| code := 400; headers := [];
                json := Some (error_envelope "URL parameter is required. Usage: /api/download?url=https://tiktok.com/...") |}
       else
         match url with
         | Text url =>
             if negb (includes url "tiktok.com") then
               ret {| code := 400; headers := [];
                      json := Some (error_envelope "Invalid TikTok URL. Must contain tiktok.com") |}
             else
               result <- scrapeTikTok web_page mobile_api embed_page url ;;
               ret {| code := if String.eqb (status result) "error"
                              then 400 else 200;
                      headers := [ ("Content-Type", "application/json");
                                   ("Access-Control-Allow-Origin", "*") ];
                      json := Some (Envelope result) |}
         | _ =>                                  (* typeof url !== 'string' *)
             ret {| code := 400; headers := [];
                    json := Some (error_envelope "URL must be a string") |}
         end)
      (fun error =>
         console_log ("API Error: " ++ e_message error) ;;;
         ret {| code := 500; headers := [];
                json := Some (InternalError "Internal server error"
                                (match NODE_ENV with
                                 | Some env =>
                                     if String.eqb env "development"
                                     then Some (e_message error) else None
                                 | None => None
                                 end)) |}).

End Handler.

End Handler.

(** The TypeScript handler, [api/download]: it calls the [scrapeTikTok]
    it imports from [lib/tiktok-scraper], taken here as it comes. *)
Module Download.

Import JsString JsObject Scraper Http.

Section Download.

Variable scrapeTikTok : string -> M TikTokResponse.

Definition handler (req : Request) : M Response :=
  if String.eqb (method req) "OPTIONS" then
    ret {| code := 200; headers := []; json := None |}
  else if negb (String.eqb (method req) "GET")
          && negb (String.eqb (method req) "POST") then
    ret {| code := 405; headers := [];
           json := Some (error_envelope "Method not allowed") |}
  else
    try_catch
      (let url := if String.eqb (method req) "POST"
                  then body_url req else query_url req in
       match url with
       | Text url =>
           if negb (truthy_string url) then
             ret {| code := 400; headers := [];
                    json := Some (error_envelope "URL parameter is required. Usage: /api/download?url=https://tiktok.com/...") |}
           else if negb (includes url "tiktok.com") then
             ret {| code := 400; headers := [];
                    json := Some (error_envelope "Invalid TikTok URL") |}
           else
             result <- scrapeTikTok url ;;
             ret {| code := if String.eqb (status result) "error"
                            then 400 else 200;
                    headers := [];
                    json := Some (Envelope result) |}
       | _ =>                    (* !url || typeof url !== 'string' *)
           ret {| code := 400; headers := [];
                  json := Some (error_envelope "URL parameter is required. Usage: /api/download?url=https://tiktok.com/...") |}
       end)
      (fun error =>
         console_log ("API Error: " ++ e_message error) ;;;
         ret {| code := 500; headers := [];
                json := Some (InternalError "Internal server error" None) |}).

End Download.

End Download.

(* ================================================================== *)
(** * lib/tiktok-scraper.ts                                            *)
(* ================================================================== *)

(** The TypeScript scraper that the TypeScript handler imports.  Its
    extractor has five of the patterns and, for a URL of a short-link
    host that no pattern matches, the placeholder "pending".  It
    assembles the canonical record inside [scrapeTikTok], from the item
    record of the page and the identifier. *)

Module Legacy.

Import JsString JsObject.

Definition patterns : list (list item) :=
  [ [Lit "tiktok.com/@"; Plus Scraper.is_word_or_dot; Lit "/video/";
     Capture is_digit];
    [Lit "tiktok.com/t/"; Capture is_word];
    [Lit "vm.tiktok.com/"; Capture is_word];
    [Lit "tiktok.com/video/"; Capture is_digit];
    [Lit "/v/"; Capture is_digit] ].

Definition extractVideoId (url : string) : option string :=
  match Scraper.first_match url patterns with
  | Some id => Some id
  | None =>
      if includes url "vm.tiktok.com" || includes url "vt.tiktok.com"
      then Some "pending"
      else None
  end.

(** ** The item record of the page

    The fields the assembly reads for [type], [id], [createdAt],
    [video] and [images], typed the way it uses them ([None] is
    [undefined]).  The other fields of the canonical record
    ([thumbnail], [author], [statistics], [duration], [region],
    [music], [desc]) are computed from fields of their own, feed
    nothing else and do not throw. *)

Record PlayAddr := {
  UrlList : option (list string);
  Width : option Z;
  Height : option Z }.

Record BitrateInfo := {
  info_PlayAddr : option PlayAddr;
  Resolution : option string;
  QualityType : option string;
  DataSize : option Z;
  Bitrate : option Z }.

Record VideoInfo := {
  playAddr : option string;
  ratio : option string;
  width : option Z;
  height : option Z;
  bitrate : option Z;
  bitrateInfo : option (list BitrateInfo);
  downloadAddr : option string }.

Record ImageURL := { urlList : option (list string) }.

Record Image := {
  imageURL : option ImageURL;
  imageWidth : option Z;
  imageHeight : option Z }.

Record ImagePost := { images : option (list Image) }.

Record ItemStruct := {
  imagePost : option ImagePost;
  id : option string;
  video : option VideoInfo;
  createTime : option Z }.           (* seconds *)

(** ** The canonical record *)

(** [hd] is a URL or [undefined]. *)
Record Video := {
  noWatermark : list Scraper.VideoQuality;      (* without [type] *)
  withWatermark : list Scraper.VideoQuality;
  hd : Scraper.val }.

Record VideoData := {
  d_type : string;
  d_id : string;
  d_video : option Video;            (* [None]: the property is absent *)
  d_images : option (list Scraper.ImageData) }.

(** ** Assembly (lines 55 to 155 of [scrapeTikTok]) *)

Definition post_images (p : option ImagePost) : option (list Image) :=
  match p with Some p => images p | None => None end.

Definition play_urls (a : option PlayAddr) : option (list string) :=
  match a with Some a => UrlList a | None => None end.

Definition image_urls (u : option ImageURL) : option (list string) :=
  match u with Some u => urlList u | None => None end.

(** [l?.[1]] *)
Definition second {A} (l : option (list A)) : option A :=
  match l with
  | Some (_ :: x :: _) => Some x
  | _ => None
  end.

(** [new Date(createTime * 1000)] is a valid time within 8.64e15
    milliseconds of the epoch; [toISOString] throws a [RangeError]
    otherwise. *)
Definition valid_time (createTime : Z) : bool :=
  Z.abs (createTime * 1000) <=? 8640000000000000.

Definition quality_entry (url : string) (video : VideoInfo)
  : Scraper.VideoQuality :=
  {| Scraper.q_url := url;
     Scraper.q_quality := Scraper.or_else truthy_string (ratio video) "540p";
     Scraper.q_size := "Unknown";
     Scraper.q_sizeBytes := 0;
     Scraper.q_width := Scraper.or_else Scraper.truthy_Z (width video) 576;
     Scraper.q_height := Scraper.or_else Scraper.truthy_Z (height video) 1024;
     Scraper.q_bitrate := Scraper.or_else Scraper.truthy_Z (bitrate video) 0;
     Scraper.q_type := None |}.

Definition bitrate_entry (info : BitrateInfo) : list Scraper.VideoQuality :=
  match Scraper.first (play_urls (info_PlayAddr info)) with
  | Some url =>
      if truthy_string url then
        [ {| Scraper.q_url := url;
             Scraper.q_quality :=
               Scraper.or_else truthy_string (Resolution info)
                 (Scraper.or_else truthy_string (QualityType info) "540p");
             Scraper.q_size :=
               Formatter.formatBytes
                 (Scraper.or_else Scraper.truthy_Z (DataSize info) 0);
             Scraper.q_sizeBytes :=
               Scraper.or_else Scraper.truthy_Z (DataSize info) 0;
             Scraper.q_width :=
               Scraper.or_else Scraper.truthy_Z
                 (match info_PlayAddr info with
                  | Some a => Width a
                  | None => None
                  end) 576;
             Scraper.q_height :=
               Scraper.or_else Scraper.truthy_Z
                 (match info_PlayAddr info with
                  | Some a => Height a
                  | None => None
                  end) 1024;
             Scraper.q_bitrate :=
               Scraper.or_else Scraper.truthy_Z (Bitrate info) 0;
             Scraper.q_type := None |} ]
      else []
  | None => []
  end.

(** [if (video.playAddr) qualities.push(...)] and the like. *)
Definition addr_entry (addr : option string) (video : VideoInfo)
  : list Scraper.VideoQuality :=
  match addr with
  | Some url => if truthy_string url then [quality_entry url video] else []
  | None => []
  end.

Definition make_video (video : VideoInfo) : Video :=
  let qualities :=
    List.app (addr_entry (playAddr video) video)
      (match bitrateInfo video with
       | Some l => flat_map bitrate_entry l
       | None => []
       end) in
  {| noWatermark := qualities;
     withWatermark := addr_entry (downloadAddr video) video;
     hd := Scraper.or
             (match find Scraper.is_hd qualities with
              | Some q => Scraper.Str (Scraper.q_url q)
              | None => Scraper.Undefined
              end)
             (match qualities with
              | q :: _ => Scraper.Str (Scraper.q_url q)
              | [] => Scraper.Undefined
              end) |}.

Definition make_image (img : Image) : Scraper.ImageData :=
  {| Scraper.i_url :=
       Scraper.or_else truthy_string
         (Scraper.first (image_urls (imageURL img)))
         (Scraper.or_else truthy_string
            (second (image_urls (imageURL img))) "");
     Scraper.i_width :=
       Scraper.or_else Scraper.truthy_Z (imageWidth img) 1080;
     Scraper.i_height :=
       Scraper.or_else Scraper.truthy_Z (imageHeight img) 1920 |}.

(** From the item record and the identifier to [data]; a throw is
    caught by [scrapeTikTok] and becomes an error envelope. *)
Definition assemble (itemStruct : ItemStruct) (videoId : string)
  : Scraper.result VideoData :=
  let isImagePost := Scraper.has_items (post_images (imagePost itemStruct)) in
  let dated :=
    match createTime itemStruct with
    | Some t => negb (Scraper.truthy_Z t) || valid_time t
    | None => true
    end in
  if dated then
    Scraper.Return
      {| d_type := if isImagePost then "images" else "video";
         d_id := Scraper.or_else truthy_string (id itemStruct) videoId;
         d_video :=
           if negb isImagePost then option_map make_video (video itemStruct)
           else None;
         d_images :=
           if isImagePost then
             option_map (map make_image) (post_images (imagePost itemStruct))
           else None |}
  else Scraper.Throw {| Scraper.e_message := "Invalid time value" |}.

End Legacy.

(** ** Further properties of the code, in the terms of the model *)

Module Props.

Import Scraper.

Definition embedUrl (videoId : string) : string :=
  "https://www.tiktok.com/embed/" ++ videoId.

(** The requests a run can issue, in the order of the strategies. *)
Definition plan (url videoId : string) : list string :=
  (url :: apiUrls videoId ++ [embedUrl videoId])%list.

(** A run reads answers one after the other until one holds a record
    that is assembled.  Reading an answer comes with the request issued
    for it, if it has one of its own, and with the console line that is
    written if it throws. *)
Record step := {
  asked : list string;
  held : fetched;
  said : list string }.

(** The console line of a container of the page, and of the embed page,
    that threw; the mirrors fail silently. *)
Definition parse_report (name : string) (a : fetched) : list string :=
  match a with
  | Fails _ | Broken _ => [ "Failed to parse " ++ name ]
  | _ => []
  end.

Definition embed_report (a : fetched) : list string :=
  match a with
  | Fails e | Broken e => [ "Embed fetch failed: " ++ e_message e ]
  | _ => []
  end.

(** The page: one request, then its three containers in order; a page
    that cannot be loaded is one answer that throws, reported by the
    loop over the strategies. *)
Definition page_steps (url : string) (p : page) : list step :=
  match p with
  | Unreachable e =>
      [ {| asked := [url]; held := Fails e;
           said := [ "Strategy failed: " ++ e_message e ] |} ]
  | Html universal sigi next =>
      [ {| asked := [url]; held := universal;
           said := parse_report "__UNIVERSAL_DATA_FOR_REHYDRATION__"
                     universal |};
        {| asked := []; held := sigi;
           said := parse_report "__SIGI_STATE__" sigi |};
        {| asked := []; held := next;
           said := parse_report "__NEXT_DATA__" next |} ]
  end.

Definition mirror_steps (mobile_api : string -> fetched)
           (urls : list string) : list step :=
  map (fun apiUrl => {| asked := [apiUrl]; held := mobile_api apiUrl;
                        said := [] |}) urls.

Definition embed_step (embed_page : string -> fetched) (videoId : string)
  : step :=
  {| asked := [embedUrl videoId];
     held := embed_page (embedUrl videoId);
     said := embed_report (embed_page (embedUrl videoId)) |}.

(** What the upstream holds for a run, in the order it is read. *)
Definition answers (web_page : string -> page)
           (mobile_api embed_page : string -> fetched)
           (url videoId : string) : list step :=
  (page_steps url (web_page url)
   ++ mirror_steps mobile_api (apiUrls videoId)
   ++ [embed_step embed_page videoId])%list.

(** The first record that is assembled, with the requests issued and
    the console lines written until it is reached (all of them when
    there is none). *)
Fixpoint first_item (steps : list step)
  : option ItemStruct * list string * list string :=
  match steps with
  | [] => (None, [], [])
  | s :: rest =>
      match held s with
      | Item itemStruct => (Some itemStruct, asked s, [])
      | _ =>
          let '(found, urls, lines) := first_item rest in
          (found, List.app (asked s) urls, List.app (said s) lines)
      end
  end.

(** The [url] parameter a handler reads: of the body for POST, of the
    query otherwise. *)
Definition url_param (req : Http.Request) : Http.param :=
  if String.eqb (Http.method req) "POST" then Http.body_url req
  else Http.query_url req.

(** The URL a handler passes on to the scraper: that of a GET or POST
    request whose parameter is a non-empty string containing
    "tiktok.com". *)
Definition accepted_url (req : Http.Request) : option string :=
  if String.eqb (Http.method req) "GET"
     || String.eqb (Http.method req) "POST" then
    match url_param req with
    | Http.Text url =>
        if JsObject.truthy_string url && JsString.includes url "tiktok.com"
        then Some url else None
    | _ => None
    end
  else None.

(** The message with which the JavaScript handler turns down the [url]
    parameter of a GET or POST request. *)
Definition rejection_message (p : Http.param) : string :=
  match p with
  | Http.Text url =>
      if JsObject.truthy_string url
      then "Invalid TikTok URL. Must contain tiktok.com"
      else "URL parameter is required. Usage: /api/download?url=https://tiktok.com/..."
  | Http.Other true => "URL must be a string"
  | _ => "URL parameter is required. Usage: /api/download?url=https://tiktok.com/..."
  end.

(** The answer to a scraped request: 400 for an error envelope, 200
    otherwise. *)
Definition answer (headers : list (string * string)) (r : TikTokResponse)
  : Http.Response :=
  {| Http.code := if String.eqb (status r) "error" then 400 else 200;
     Http.headers := headers;
     Http.json := Some (Http.Envelope r) |}.

(** [c] occurs in [l]. *)
Definition infix (c l : list ascii) : Prop :=
  exists pre post, l = List.app pre (List.app c post).

(** A capture group of the item admits only characters of [P]. *)
Definition captures_within (P : ascii -> bool) (i : JsString.item) : Prop :=
  match i with
  | JsString.Capture cls => forall c, cls c = true -> P c = true
  | _ => True
  end.

(** The text [l] is over, or goes on with a character outside [p]. *)
Definition stops (p : ascii -> bool) (l : list ascii) : Prop :=
  match l with
  | [] => True
  | c :: _ => p c = false
  end.

(** A world after further requests and console lines. *)
Definition extend (w : World) (urls lines : list string) : World :=
  {| requests := List.app (requests w) urls;
     console := List.app (console w) lines |}.

(** A counter as the upstream sends it when it is well formed: a number,
    a missing field, or the decimal digits of an integer as a string,
    the integer being of at most [2^53] in magnitude. *)
Definition plain_count (v : val) : Prop :=
  Spec.numeric v
  \/ exists z, - 2 ^ 53 <= z <= 2 ^ 53 /\ v = Str (JsNumber.dec z).

(** The decimal digits, and one step of reading a digit string. *)
Definition digit_chars : list ascii :=
  ["0"; "1"; "2"; "3"; "4"; "5"; "6"; "7"; "8"; "9"]%char.

Definition digit_step (acc : Z) (c : ascii) : Z :=
  match JsString.hex_value c with
  | Some v => acc * 10 + v
  | None => acc
  end.

(** The URL lists of the raw video record that the assembler reads:
    [play_addr.url_list], the first URL of each [bit_rate] entry, and
    [download_addr.url_list]. *)
Definition play_urls (videoInfo : VideoInfo) : list string :=
  match addr_urls (play_addr videoInfo) with Some l => l | None => [] end.

Definition bitrate_urls (videoInfo : VideoInfo) : list string :=
  flat_map (fun info => match first (addr_urls (br_play_addr info)) with
                        | Some url => [url]
                        | None => []
                        end)
    (match bit_rate videoInfo with Some l => l | None => [] end).

Definition download_urls (videoInfo : VideoInfo) : list string :=
  match addr_urls (download_addr videoInfo) with Some l => l | None => [] end.

(** The non-empty URLs of a list, and its first occurrences. *)
Definition usable (urls : list string) : list string :=
  filter JsObject.truthy_string urls.

Fixpoint distinct (seen : list string) (urls : list string) : list string :=
  match urls with
  | [] => []
  | u :: urls' =>
      if existsb (String.eqb u) seen then distinct seen urls'
      else u :: distinct (u :: seen) urls'
  end.

End Props.

(** ** Sample requests and upstreams *)

Module Samples.

Import Scraper Http.

(** An upstream whose second mirror alone holds the video. *)
Definition second_mirror (apiUrl : string) : fetched :=
  if String.eqb apiUrl
       "https://api16-normal-c-useast2a.tiktokv.com/aweme/v1/feed/?aweme_id=7300000000000000001"
  then Item Examples.video_item else NoItem.

(** A page whose first container does not parse and whose second holds a
    record that the assembler rejects, and mirrors of which the first
    holds such a record too and the second the video. *)
Definition garbled_page (_ : string) : page :=
  Html (Fails {| e_message := "Unexpected token < in JSON at position 0" |})
       (Broken {| e_message := "Invalid time value" |})
       NoItem.

Definition late_mirror (apiUrl : string) : fetched :=
  if String.eqb apiUrl
       "https://api16-normal-c-useast1a.tiktokv.com/aweme/v1/feed/?aweme_id=7300000000000000001"
  then Broken {| e_message := "Invalid time value" |}
  else second_mirror apiUrl.

(** Item records of the page for the TypeScript scraper: a video whose
    ladder repeats the primary URL under a higher label, a record with
    an identifier only, a video record without any address, and an
    image post whose second entry has no URL. *)
Definition legacy_ladder : Legacy.ItemStruct :=
  {| Legacy.imagePost := None;
     Legacy.id := Some "7300000000000000001";
     Legacy.video :=
       Some {| Legacy.playAddr := Some "https://v16.example/a";
               Legacy.ratio := Some "540p";
               Legacy.width := None; Legacy.height := None;
               Legacy.bitrate := None;
               Legacy.bitrateInfo :=
                 Some [ {| Legacy.info_PlayAddr :=
                             Some {| Legacy.UrlList :=
                                       Some [ "https://v16.example/a" ];
                                     Legacy.Width := Some 1080;
                                     Legacy.Height := Some 1920 |};
                           Legacy.Resolution := Some "1080p";
                           Legacy.QualityType := None;
                           Legacy.DataSize := None;
                           Legacy.Bitrate := None |};
                        {| Legacy.info_PlayAddr :=
                             Some {| Legacy.UrlList :=
                                       Some [ "https://v16.example/b" ];
                                     Legacy.Width := Some 720;
                                     Legacy.Height := Some 1280 |};
                           Legacy.Resolution := Some "720p";
                           Legacy.QualityType := None;
                           Legacy.DataSize := None;
                           Legacy.Bitrate := None |} ];
               Legacy.downloadAddr := None |};
     Legacy.createTime := None |}.

Definition legacy_bare : Legacy.ItemStruct :=
  {| Legacy.imagePost := None;
     Legacy.id := Some "1";
     Legacy.video := None;
     Legacy.createTime := None |}.

Definition legacy_no_address : Legacy.ItemStruct :=
  {| Legacy.imagePost := None;
     Legacy.id := Some "1";
     Legacy.video :=
       Some {| Legacy.playAddr := None; Legacy.ratio := None;
               Legacy.width := None; Legacy.height := None;
               Legacy.bitrate := None; Legacy.bitrateInfo := None;
               Legacy.downloadAddr := None |};
     Legacy.createTime := None |}.

Definition legacy_images : Legacy.ItemStruct :=
  {| Legacy.imagePost :=
       Some {| Legacy.images :=
                 Some [ {| Legacy.imageURL :=
                             Some {| Legacy.urlList :=
                                       Some [ "https://p16.example/1" ] |};
                           Legacy.imageWidth := None;
                           Legacy.imageHeight := None |};
                        {| Legacy.imageURL := None;
                           Legacy.imageWidth := None;
                           Legacy.imageHeight := None |} ] |};
     Legacy.id := Some "7300000000000000002";
     Legacy.video := None;
     Legacy.createTime := None |}.

Definition get (url : param) : Request :=
  {| method := "GET"; query_url := url; body_url := Missing |}.

Definition post (url : param) : Request :=
  {| method := "POST"; query_url := Missing; body_url := url |}.

(** A scraper that reports the video for every URL, and one that
    throws. *)
Definition found_scraper (_ : string) : M TikTokResponse :=
  ret (formatResponse Examples.video_item).

Definition broken_scraper (_ : string) : M TikTokResponse :=
  throw {| e_message := "socket hang up" |}.

(** Counters of the three well-formed kinds. *)
Definition string_counts : Stats :=
  {| digg_count := Str "1500"; diggCount := Undefined;
     comment_count := Number (Int 20); commentCount := Undefined;
     share_count := Undefined; shareCount := Str "7";
     play_count := Undefined; playCount := Undefined |}.

End Samples.

(* ================================================================== *)
(** * Numbers: rounding of the quotient                                *)
(* ================================================================== *)

Module JsNumberFacts.

Import JsNumber.

Lemma round_half_even_near num den :
  0 < den -> 0 <= num ->
  Z.abs (2 * (round_half_even num den * den - num)) <= den.
Proof.
  intros Hd Hn. unfold round_half_even.
  pose proof (Z.div_mod num den ltac:(lia)) as E.
  pose proof (Z.mod_pos_bound num den Hd) as B.
  destruct (2 * (num mod den) <? den) eqn:H1;
    [apply Z.ltb_lt in H1 | apply Z.ltb_ge in H1].
  - nia.
  - destruct (den <? 2 * (num mod den)) eqn:H2;
      [apply Z.ltb_lt in H2 | apply Z.ltb_ge in H2].
    + nia.
    + destruct (Z.even (num / den)); nia.
Qed.

Lemma scale_nonneg a b sh : 0 <= sh -> scale a b sh = (a * 2 ^ sh, b).
Proof. intros H. unfold scale. apply Z.leb_le in H. now rewrite H. Qed.

(** The exponent is that of a normal number: the scaled quotient has 53
    bits. *)
Lemma div_shift_spec a b :
  0 < a <= 2 ^ 53 -> 2 <= b ->
  0 <= div_shift a b /\ 2 ^ 52 * b <= a * 2 ^ div_shift a b.
Proof.
  intros Ha Hb. unfold div_shift.
  pose proof (Z.log2_spec a ltac:(lia)) as [La1 La2].
  pose proof (Z.log2_spec b ltac:(lia)) as [Lb1 Lb2].
  assert (Hla : Z.log2 a <= 53).
  { destruct Ha as [_ Ha]. apply Z.log2_le_mono in Ha.
    rewrite Z.log2_pow2 in Ha; lia. }
  assert (Hlb : 1 <= Z.log2 b).
  { apply Z.log2_le_mono in Hb. simpl in Hb. lia. }
  assert (Hla0 : 0 <= Z.log2 a) by apply Z.log2_nonneg.
  set (sh0 := 52 - (Z.log2 a - Z.log2 b)).
  assert (Hsh0 : 0 <= sh0) by (unfold sh0; lia).
  rewrite (scale_nonneg a b sh0 Hsh0).
  destruct (a * 2 ^ sh0 / b <? 2 ^ 52) eqn:E1.
  - split; [lia|].
    replace (sh0 + 1) with (53 - Z.log2 a + Z.log2 b) by (unfold sh0; lia).
    assert (H : 2 ^ Z.log2 a * 2 ^ (53 - Z.log2 a + Z.log2 b)
                = 2 ^ 52 * 2 ^ Z.succ (Z.log2 b)).
    { rewrite <- !Z.pow_add_r by lia. f_equal. lia. }
    assert (0 < 2 ^ (53 - Z.log2 a + Z.log2 b))
      by (apply Z.pow_pos_nonneg; lia).
    apply Z.le_trans with (2 ^ Z.log2 a * 2 ^ (53 - Z.log2 a + Z.log2 b)).
    + rewrite H. apply Z.mul_le_mono_nonneg_l; lia.
    + apply Z.mul_le_mono_nonneg_r; lia.
  - split; [lia|].
    apply Z.ltb_ge in E1.
    pose proof (Z.mul_div_le (a * 2 ^ sh0) b ltac:(lia)).
    apply Z.le_trans with (b * (a * 2 ^ sh0 / b)); [|lia].
    rewrite (Z.mul_comm b). apply Z.mul_le_mono_nonneg_r; lia.
Qed.

Lemma div_eq a b :
  0 < a <= 2 ^ 53 -> 2 <= b ->
  div a b = (round_half_even (a * 2 ^ div_shift a b) b, div_shift a b).
Proof.
  intros Ha Hb. destruct (div_shift_spec a b Ha Hb) as [Hs _].
  unfold div. now rewrite (scale_nonneg a b _ Hs).
Qed.

(** The quotient is within half a unit in the last place of [a / b]. *)
Lemma div_near a b :
  0 < a <= 2 ^ 53 -> 2 <= b ->
  Z.abs (2 * (fst (div a b) * b - a * 2 ^ div_shift a b)) <= b.
Proof.
  intros Ha Hb. rewrite (div_eq a b Ha Hb). cbn [fst].
  destruct (div_shift_spec a b Ha Hb) as [Hs _].
  apply round_half_even_near; [lia|].
  assert (0 < 2 ^ div_shift a b) by (apply Z.pow_pos_nonneg; lia). nia.
Qed.

(** Rounding the binary64 quotient [a / (20 c)] to tenths gives a tenth
    nearest to the exact quotient: the rounding error of the division is
    too small to move it across a multiple of [1/20 c]. *)
Lemma tenths_nearest a c :
  0 < a <= 2 ^ 53 -> 1 <= c -> (forall k, 0 <= k -> 2 ^ k <> 20 * c) ->
  Z.abs (2 * c * scaled_round 10 (div a (20 * c)) - a) <= c.
Proof.
  intros Ha Hc Hpow.
  assert (Hb : 2 <= 20 * c) by lia.
  pose proof (div_near a (20 * c) Ha Hb) as Hnear.
  destruct (div_shift_spec a (20 * c) Ha Hb) as [Hs Hnorm].
  rewrite (div_eq a (20 * c) Ha Hb) in *. cbn [fst] in Hnear.
  unfold scaled_round. apply Z.leb_le in Hs as Hs'. rewrite Hs'. clear Hs'.
  set (m := round_half_even (a * 2 ^ div_shift a (20 * c)) (20 * c)) in *.
  set (sh := div_shift a (20 * c)) in *.
  rewrite Z.pow_add_r by lia. change (2 ^ 1) with 2.
  set (P := 2 ^ sh) in *.
  assert (HP : 0 < P) by (apply Z.pow_pos_nonneg; lia).
  assert (HP10 : 10 * c <= P).
  { assert (H : 2 ^ 52 * (20 * c) <= 2 ^ 53 * P).
    { eapply Z.le_trans; [exact Hnorm|].
      apply Z.mul_le_mono_nonneg_r; lia. }
    change (2 ^ 53) with (2 ^ 52 * 2) in H.
    rewrite <- Z.mul_assoc in H. apply Z.mul_le_mono_pos_l in H; lia. }
  assert (HPne : P * 2 <> 20 * c).
  { intros E. apply (Hpow (sh + 1)); [lia|].
    rewrite Z.pow_add_r by lia. exact E. }
  set (t := (2 * 10 * m + P) / (P * 2)).
  pose proof (Z.div_mod (2 * 10 * m + P) (P * 2) ltac:(lia)) as E.
  pose proof (Z.mod_pos_bound (2 * 10 * m + P) (P * 2) ltac:(lia)) as B.
  fold t in E.
  set (r := (2 * 10 * m + P) mod (P * 2)) in *.
  assert (Hm : Z.abs (20 * c * m - a * P) <= 10 * c) by lia.
  apply Z.abs_le. split.
  - apply Z.nlt_ge. intros Hlt.
    assert (P * (a - 2 * c * t - c) < 10 * c) by nia.
    assert (P * 1 <= P * (a - 2 * c * t - c))
      by (apply Z.mul_le_mono_nonneg_l; lia).
    lia.
  - apply Z.nlt_ge. intros Hlt.
    assert (P * (2 * c * t - a - c) <= 10 * c) by nia.
    assert (P * 1 <= P * (2 * c * t - a - c))
      by (apply Z.mul_le_mono_nonneg_l; lia).
    lia.
Qed.

Lemma not_pow2_1000 k : 0 <= k -> 2 ^ k <> 20 * 50.
Proof.
  intros Hk. destruct (Z.le_gt_cases k 9) as [H|H].
  - pose proof (Z.pow_le_mono_r 2 k 9 ltac:(lia) H) as L.
    change (2 ^ 9) with 512 in L. lia.
  - pose proof (Z.pow_le_mono_r 2 10 k ltac:(lia) ltac:(lia)) as L.
    change (2 ^ 10) with 1024 in L. lia.
Qed.

Lemma not_pow2_1000000 k : 0 <= k -> 2 ^ k <> 20 * 50000.
Proof.
  intros Hk. destruct (Z.le_gt_cases k 19) as [H|H].
  - pose proof (Z.pow_le_mono_r 2 k 19 ltac:(lia) H) as L.
    change (2 ^ 19) with 524288 in L. lia.
  - pose proof (Z.pow_le_mono_r 2 20 k ltac:(lia) ltac:(lia)) as L.
    change (2 ^ 20) with 1048576 in L. lia.
Qed.

(** The division agrees with the IEEE-754 specification of the Standard
    Library, at the ties of the rounding to tenths and around them. *)
Lemma div_agrees_with_IEEE :
  forallb (fun '(a, b) => same_value (div a b) (SFdiv64 a b))
    [ (1000, 1000); (1050, 1000); (1150, 1000); (1250, 1000);
      (1350, 1000); (1450, 1000); (1500, 1000); (1950, 1000);
      (1999, 1000); (999949, 1000); (999950, 1000); (999999, 1000);
      (1000000, 1000000); (1050000, 1000000); (1950000, 1000000);
      (2000000, 1000000); (123456789, 1000000);
      (9007199254740991, 1000000); (9007199254740992, 1000000);
      (1048576, 1048576); (1, 1048576); (5243, 1048576) ] = true.
Proof. vm_compute. reflexivity. Qed.

(** The same on every integer of the "k" range that lies midway between
    two tenths of a thousand (1050, 1150, ..., 999950), where the
    direction of the binary rounding decides the printed digit, and on
    the first two thousand such integers of the "m" range. *)
Lemma div_agrees_with_IEEE_on_ties :
  forallb (fun a => same_value (div a 1000) (SFdiv64 a 1000))
    (every 100 1050 9990) = true /\
  forallb (fun a => same_value (div a 1000000) (SFdiv64 a 1000000))
    (every 100000 1050000 2000) = true.
Proof. split; vm_compute; reflexivity. Qed.

End JsNumberFacts.

(* ================================================================== *)
(** * Strings: the removal of a final ".0"                             *)
(* ================================================================== *)

Module JsStringFacts.

Import JsString.

Lemma strip_single c : strip_dot_zero (String c "") = String c "".
Proof.
  cbn. destruct (Ascii.eqb c "."); reflexivity.
Qed.
Lemma strip_cons c s :
  strip_dot_zero (String c s) =
  if String.eqb (String c s) ".0" then "" else String c (strip_dot_zero s).
Proof. reflexivity. Qed.

Lemma strip_dot_zero_app (a : string) (c : ascii) :
  strip_dot_zero (a ++ String "." (String c "")) =
  if Ascii.eqb c "0" then a else a ++ String "." (String c "").
Proof.
  induction a as [|x a IH].
  - destruct (Ascii.eqb_spec c "0") as [->|Hc]; [reflexivity|].
    change ("" ++ String "." (String c "")) with (String "." (String c "")).
    rewrite strip_cons, strip_single.
    replace (String.eqb (String "." (String c "")) ".0") with false;
      [reflexivity|].
    symmetry. apply String.eqb_neq. congruence.
  - change (String x a ++ String "." (String c ""))
      with (String x (a ++ String "." (String c ""))).
    rewrite strip_cons.
    replace (String.eqb (String x (a ++ String "." (String c ""))) ".0")
      with false.
    + rewrite IH. destruct (Ascii.eqb c "0"); reflexivity.
    + symmetry. apply String.eqb_neq. intros E.
      destruct a as [|y a]; cbn [append] in E; [discriminate E|].
      destruct a; discriminate E.
Qed.

End JsStringFacts.

(* ================================================================== *)
(** * Field normalizer                                                 *)
(* ================================================================== *)

Module FormatterFacts.

Import JsNumber JsString JsNumberFacts JsStringFacts Spec.

(** A decimal digit prints as one character, "0" only for zero. *)
Lemma dec_digit d :
  0 <= d <= 9 ->
  exists c, dec d = String c "" /\ Ascii.eqb c "0" = (d =? 0).
Proof.
  intros H.
  assert (C : d = 0 \/ d = 1 \/ d = 2 \/ d = 3 \/ d = 4 \/ d = 5
              \/ d = 6 \/ d = 7 \/ d = 8 \/ d = 9) by lia.
  repeat (destruct C as [C|C]; [subst d; eexists; split; reflexivity|]).
  subst d; eexists; split; reflexivity.
Qed.

Lemma strip_toFixed1 x :
  0 <= scaled_round 10 x ->
  strip_dot_zero (toFixed1 x) =
  one_decimal (scaled_round 10 x / 10) (scaled_round 10 x mod 10).
Proof.
  intros Ht. unfold toFixed1, one_decimal, digit_string.
  set (t := scaled_round 10 x) in *.
  pose proof (Z.mod_pos_bound t 10 ltac:(lia)) as B.
  destruct (dec_digit (t mod 10) ltac:(lia)) as (c & Ec & E0).
  rewrite Ec. cbn [append].
  change ("." ++ String c "") with (String "." (String c "")).
  rewrite strip_dot_zero_app, E0.
  destruct (t mod 10 =? 0); reflexivity.
Qed.

(** The rendering of [n / (20 c)] with one decimal. *)
Lemma render_quotient n c :
  0 < n <= 2 ^ 53 -> 1 <= c -> (forall k, 0 <= k -> 2 ^ k <> 20 * c) ->
  exists q d,
    0 <= d <= 9 /\ Z.abs (2 * c * (10 * q + d) - n) <= c /\
    strip_dot_zero (toFixed1 (div n (20 * c))) = one_decimal q d.
Proof.
  intros Hn Hc Hp.
  pose proof (tenths_nearest n c Hn Hc Hp) as Hnear.
  set (t := scaled_round 10 (div n (20 * c))) in *.
  assert (Ht : 0 <= t) by nia.
  exists (t / 10), (t mod 10).
  pose proof (Z.mod_pos_bound t 10 ltac:(lia)) as B.
  pose proof (Z.div_mod t 10 ltac:(lia)) as E.
  split; [lia|]. split.
  - rewrite <- E. exact Hnear.
  - apply strip_toFixed1. exact Ht.
Qed.

(** On the integers up to [2^53] in magnitude the two [formatNumber] of
    the repository agree. *)
Lemma formatNumber_Int n :
  - 2 ^ 53 <= n <= 2 ^ 53 ->
  Scraper.formatNumber (Scraper.Number (Scraper.Int n))
  = Formatter.formatNumber n.
Proof.
  intros _. unfold Scraper.formatNumber, Formatter.formatNumber.
  cbn [Scraper.truthy Scraper.isNaN Scraper.parseInt].
  destruct (n =? 0) eqn:E.
  - apply Z.eqb_eq in E. subst n. reflexivity.
  - reflexivity.
Qed.

(** C8. [formatNumber] prints an integer below 1000 (from [-2^53] on)
    as its decimal digits; an integer [n] from 1000 up to (not
    including) 1,000,000 as
    [n / 1000] with one decimal followed by "k", and an integer from
    1,000,000 on (up to [2^53], the largest of the contiguous integers)
    as [n / 1,000,000] with one decimal followed by "m", where the
    decimal is left out when it is zero and the printed tenth is one
    nearest to the quotient; [formatNumber(999) = "999"],
    [formatNumber(1000) = "1k"], [formatNumber(1500) = "1.5k"] and
    [formatNumber(2000000) = "2m"].  The [formatNumber] of the scraper
    does the same on the integers up to [2^53] in magnitude. *)
Theorem formatNumber_renders :
  (forall n, - 2 ^ 53 <= n < 1000 -> Formatter.formatNumber n = dec n) /\
  (forall n, 1000 <= n < 1000000 ->
     exists q d, 0 <= d <= 9 /\ Z.abs (100 * (10 * q + d) - n) <= 50 /\
                 Formatter.formatNumber n = one_decimal q d ++ "k") /\
  (forall n, 1000000 <= n <= 2 ^ 53 ->
     exists q d, 0 <= d <= 9 /\
                 Z.abs (100000 * (10 * q + d) - n) <= 50000 /\
                 Formatter.formatNumber n = one_decimal q d ++ "m") /\
  Formatter.formatNumber 999 = "999" /\
  Formatter.formatNumber 1000 = "1k" /\
  Formatter.formatNumber 1500 = "1.5k" /\
  Formatter.formatNumber 2000000 = "2m" /\
  (forall n, - 2 ^ 53 <= n <= 2 ^ 53 ->
             Scraper.formatNumber (Scraper.Number (Scraper.Int n))
             = Formatter.formatNumber n).
Proof.
  split; [|split; [|split; [|split; [|split; [|split; [|split]]]]]];
    [ | | | vm_compute; reflexivity | vm_compute; reflexivity
      | vm_compute; reflexivity | vm_compute; reflexivity | ].
  - intros n Hn. unfold Formatter.formatNumber.
    destruct (n >=? 1000000) eqn:E1; [apply Z.geb_le in E1; lia|].
    destruct (n >=? 1000) eqn:E2; [apply Z.geb_le in E2; lia|].
    reflexivity.
  - intros n Hn. unfold Formatter.formatNumber.
    destruct (n >=? 1000000) eqn:E1; [apply Z.geb_le in E1; lia|].
    destruct (n >=? 1000) eqn:E2;
      [|rewrite Z.geb_leb in E2; apply Z.leb_gt in E2; lia].
    assert (Hn' : 0 < n <= 2 ^ 53).
    { split; [lia|]. apply Z.le_trans with (2 ^ 20); [|apply Z.pow_le_mono_r; lia].
      change (2 ^ 20) with 1048576. lia. }
    destruct (render_quotient n 50 Hn' ltac:(lia) not_pow2_1000)
      as (q & d & Hd & Hnear & Hs).
    exists q, d. split; [exact Hd|]. split; [exact Hnear|].
    change 1000 with (20 * 50). rewrite Hs. reflexivity.
  - intros n Hn. unfold Formatter.formatNumber.
    destruct (n >=? 1000000) eqn:E1;
      [|rewrite Z.geb_leb in E1; apply Z.leb_gt in E1; lia].
    destruct (render_quotient n 50000 ltac:(lia) ltac:(lia) not_pow2_1000000)
      as (q & d & Hd & Hnear & Hs).
    exists q, d. split; [exact Hd|]. split; [exact Hnear|].
    change 1000000 with (20 * 50000). rewrite Hs. reflexivity.
  - intros n Hn. now apply formatNumber_Int.
Qed.

Lemma formatNumber_renders_witness :
  Formatter.formatNumber 42 = dec 42 /\
  (exists q d, 0 <= d <= 9 /\ Z.abs (100 * (10 * q + d) - 1950) <= 50 /\
               Formatter.formatNumber 1950 = one_decimal q d ++ "k") /\
  (exists q d, 0 <= d <= 9 /\
               Z.abs (100000 * (10 * q + d) - 1234567) <= 50000 /\
               Formatter.formatNumber 1234567 = one_decimal q d ++ "m").
Proof.
  destruct formatNumber_renders as (H1 & H2 & H3 & _).
  split; [apply (H1 42); split; [apply Z.leb_le; reflexivity|lia]|].
  split; [apply (H2 1950); lia|].
  apply (H3 1234567). split; [lia|]. apply Z.leb_le. reflexivity.
Defined.

(** ** [parseRegion] *)

Lemma own_absent {A} (obj : list (string * A)) key :
  ~ In key (map fst obj) -> JsObject.own obj key = None.
Proof.
  induction obj as [|[k v] obj IH]; intros H; [reflexivity|].
  cbn [JsObject.own]. cbn [map fst In] in H.
  destruct (String.eqb_spec k key) as [E|E]; [tauto|].
  apply IH. tauto.
Qed.

Lemma existsb_eqb_absent (key : string) (l : list string) :
  ~ In key l -> existsb (String.eqb key) l = false.
Proof.
  induction l as [|x l IH]; intros H; [reflexivity|].
  cbn [existsb]. cbn [In] in H.
  destruct (String.eqb_spec key x) as [E|E]; [subst; tauto|].
  apply IH. tauto.
Qed.

Lemma parseRegion_unknown s :
  s <> "" -> ~ In s (map fst Formatter.regionMap) ->
  ~ In s JsObject.object_prototype_members ->
  Formatter.parseRegion (Some s) = Formatter.Name s.
Proof.
  intros Hs Hu Hp. unfold Formatter.parseRegion, JsObject.get.
  rewrite (own_absent _ _ Hu), (existsb_eqb_absent _ _ Hp).
  unfold JsObject.truthy_string.
  destruct (String.eqb_spec s ""); [contradiction|reflexivity].
Qed.

(** C9. [parseRegion] maps every code of the region table to its display
    name, gives back unchanged a two-letter code that is not in the
    table (and any other non-empty string that is neither in the table
    nor the name of a member of [Object.prototype]), and gives "Unknown"
    for the empty string and for an absent argument;
    [parseRegion("US") = "United States"], [parseRegion("ZZ") = "ZZ"],
    [parseRegion("") = "Unknown"]. *)
Theorem parseRegion_table :
  (forall code name, In (code, name) Formatter.regionMap ->
     String.length code = 2%nat /\
     Formatter.parseRegion (Some code) = Formatter.Name name) /\
  (forall code, String.length code = 2%nat ->
     ~ In code (map fst Formatter.regionMap) ->
     Formatter.parseRegion (Some code) = Formatter.Name code) /\
  (forall s, s <> "" -> ~ In s (map fst Formatter.regionMap) ->
     ~ In s JsObject.object_prototype_members ->
     Formatter.parseRegion (Some s) = Formatter.Name s) /\
  Formatter.parseRegion (Some "") = Formatter.Name "Unknown" /\
  Formatter.parseRegion None = Formatter.Name "Unknown" /\
  Formatter.parseRegion (Some "US") = Formatter.Name "United States" /\
  Formatter.parseRegion (Some "ZZ") = Formatter.Name "ZZ".
Proof.
  split; [|split; [|split; [|split; [|split; [|split]]]]];
    [ | | exact parseRegion_unknown | reflexivity | reflexivity
      | reflexivity | reflexivity ].
  - intros code name H. unfold Formatter.regionMap in H. cbn [In] in H.
    repeat (destruct H as [H|H];
            [injection H as <- <-; split; reflexivity|]).
    contradiction.
  - intros code Hlen Hu. apply parseRegion_unknown; [| exact Hu |].
    + intros ->. discriminate Hlen.
    + intros Hp. unfold JsObject.object_prototype_members in Hp.
      cbn [In] in Hp.
      repeat (destruct Hp as [Hp|Hp]; [subst code; discriminate Hlen|]).
      contradiction.
Qed.

Lemma parseRegion_table_witness :
  (String.length "JP" = 2%nat /\
   Formatter.parseRegion (Some "JP") = Formatter.Name "Japan") /\
  Formatter.parseRegion (Some "ZZ") = Formatter.Name "ZZ" /\
  Formatter.parseRegion (Some "Narnia") = Formatter.Name "Narnia".
Proof.
  destruct parseRegion_table as (H1 & H2 & H3 & _).
  split; [apply (H1 "JP" "Japan"); cbn; tauto|].
  split.
  - apply (H2 "ZZ"); [reflexivity|].
    cbn. intros H. repeat (destruct H as [H|H]; [discriminate H|]). exact H.
  - apply (H3 "Narnia"); [discriminate| |];
      cbn; intros H; repeat (destruct H as [H|H]; [discriminate H|]); exact H.
Defined.

End FormatterFacts.

(* ================================================================== *)
(** * Response assembler                                               *)
(* ================================================================== *)

Module AssemblerFacts.

Import JsNumber JsString JsObject Scraper Spec.

(** ** Post type and the [video] / [images] fields *)

(** X23. In a record that the assembler of the JavaScript scraper
    produces, the type is "images" or "video"; when it is "images" the
    [images] field is set and the [video] field is absent, and when it
    is "video" the [video] field is set and the [images] field is
    absent. *)
Theorem type_determines_media (itemStruct : ItemStruct) d :
  data (formatResponse itemStruct) = Some d ->
  (d_type d = "images" \/ d_type d = "video") /\
  (d_type d = "images" ->
     (exists imgs, d_images d = Some imgs) /\ d_video d = None) /\
  (d_type d = "video" ->
     (exists v, d_video d = Some v) /\ d_images d = None).
Proof.
  unfold formatResponse. intros Hd. injection Hd as <-.
  cbn [d_type d_images d_video].
  destruct (isImagePost itemStruct); cbn [negb].
  - split; [now left|]. split; intros H; [|discriminate H].
    split; [eexists; reflexivity | reflexivity].
  - split; [now right|]. split; intros H; [discriminate H|].
    split; [eexists; reflexivity | reflexivity].
Qed.

Lemma type_determines_media_witness :
  (exists d, data (formatResponse Examples.images_item) = Some d /\
             (exists imgs, d_images d = Some imgs) /\ d_video d = None) /\
  (exists d, data (formatResponse Examples.video_item) = Some d /\
             (exists v, d_video d = Some v) /\ d_images d = None).
Proof.
  split.
  - eexists. split; [reflexivity|].
    exact (proj1 (proj2 (type_determines_media Examples.images_item _
                           eq_refl)) eq_refl).
  - eexists. split; [reflexivity|].
    exact (proj2 (proj2 (type_determines_media Examples.video_item _
                           eq_refl)) eq_refl).
Defined.

(** ** Images *)

Lemma or_else_first_nonempty (a : option string) (rest : list (option string)) :
  or_else truthy_string a (first_nonempty rest) = first_nonempty (a :: rest).
Proof.
  destruct a as [u|]; [|reflexivity].
  cbn [or_else first_nonempty]. unfold truthy_string.
  destruct (String.eqb u ""); reflexivity.
Qed.

Lemma make_image_url (img : Image) :
  i_url (make_image img) =
  first_nonempty [ first (img_url_list img);
                   first (addr_urls (display_image img));
                   first (addr_urls (origin_image img)) ].
Proof.
  unfold make_image. cbn [i_url].
  change "" with (first_nonempty []) at 1.
  now rewrite !or_else_first_nonempty.
Qed.

(** X24. In the JavaScript scraper, the [images] of an image post are
    the image entries of the raw record, each with its URL resolved
    through the alias list ([url_list[0]], [display_image.url_list[0]],
    [origin_image.url_list[0]], first non-empty wins), in order, without
    the entries whose resolved URL is empty: no entry of the output has
    an empty [url]. *)
Theorem images_have_urls (itemStruct : ItemStruct) d imgs :
  data (formatResponse itemStruct) = Some d ->
  d_images d = Some imgs ->
  imgs = filter (fun i => negb (String.eqb (i_url i) ""))
           (map make_image (source_images itemStruct)) /\
  (forall img, i_url (make_image img) =
               first_nonempty [ first (img_url_list img);
                                first (addr_urls (display_image img));
                                first (addr_urls (origin_image img)) ]) /\
  Forall (fun i => i_url i <> "") imgs.
Proof.
  unfold formatResponse. intros Hd Hi. injection Hd as <-.
  cbn [d_images] in Hi.
  destruct (isImagePost itemStruct); [|discriminate Hi].
  injection Hi as <-. split; [reflexivity|]. split; [exact make_image_url|].
  apply Forall_forall. intros i Hin. unfold make_images in Hin.
  apply filter_In in Hin. destruct Hin as [_ Ht].
  unfold truthy_string in Ht. intros E. rewrite E in Ht. discriminate Ht.
Qed.

Lemma images_have_urls_witness :
  exists d imgs,
    data (formatResponse Examples.images_item) = Some d /\
    d_images d = Some imgs /\
    map i_url imgs = [ "https://p16.example/1"; "https://p16.example/3" ] /\
    Forall (fun i => i_url i <> "") imgs.
Proof.
  eexists. eexists. split; [reflexivity|]. split; [reflexivity|].
  split; [reflexivity|].
  exact (proj2 (proj2 (images_have_urls Examples.images_item _ _
                         eq_refl eq_refl))).
Defined.

(** ** De-duplication *)

Lemma dedup_In seen l q : In q (dedup seen l) -> In q l.
Proof.
  revert seen. induction l as [|c l IH]; intros seen H; [exact H|].
  cbn [dedup] in H. destruct (existsb (String.eqb (q_url c)) seen).
  - right. eapply IH. exact H.
  - destruct H as [H|H]; [now left|]. right. eapply IH. exact H.
Qed.

Lemma existsb_eqb_In (u : string) (l : list string) :
  existsb (String.eqb u) l = true <-> In u l.
Proof.
  rewrite existsb_exists. split.
  - intros (x & Hx & E). apply String.eqb_eq in E. now subst.
  - intros H. exists u. split; [exact H|apply String.eqb_refl].
Qed.

Lemma dedup_fresh seen l q : In q (dedup seen l) -> ~ In (q_url q) seen.
Proof.
  revert seen. induction l as [|c l IH]; intros seen H; [destruct H|].
  cbn [dedup] in H.
  destruct (existsb (String.eqb (q_url c)) seen) eqn:E.
  - eapply IH. exact H.
  - destruct H as [<-|H].
    + intros Hin. apply existsb_eqb_In in Hin. congruence.
    + intros Hin. apply (IH _ H). now right.
Qed.

Lemma dedup_NoDup seen l : NoDup (map q_url (dedup seen l)).
Proof.
  revert seen. induction l as [|c l IH]; intros seen; [constructor|].
  cbn [dedup]. destruct (existsb (String.eqb (q_url c)) seen); [apply IH|].
  cbn [map]. constructor; [|apply IH].
  intros Hin. apply in_map_iff in Hin. destruct Hin as (q & Eq & Hq).
  apply dedup_fresh in Hq. apply Hq. left. now symmetry.
Qed.

Lemma dedup_covers seen l u :
  In u (map q_url l) -> In u seen \/ In u (map q_url (dedup seen l)).
Proof.
  revert seen. induction l as [|c l IH]; intros seen H; [destruct H|].
  cbn [dedup]. cbn [map] in H.
  destruct (existsb (String.eqb (q_url c)) seen) eqn:E.
  - destruct H as [<-|H]; [left; now apply existsb_eqb_In|]. now apply IH.
  - destruct H as [<-|H]; [right; now left|].
    destruct (IH (q_url c :: seen) H) as [[<-|Hs]|Hd].
    + right. now left.
    + now left.
    + right. now right.
Qed.

Lemma dedup_keeps_first seen l q :
  In q (dedup seen l) ->
  find (fun c => String.eqb (q_url c) (q_url q)) l = Some q.
Proof.
  revert seen. induction l as [|c l IH]; intros seen H; [destruct H|].
  cbn [dedup] in H. cbn [find].
  destruct (existsb (String.eqb (q_url c)) seen) eqn:E.
  - pose proof (dedup_fresh _ _ _ H) as Hf.
    destruct (String.eqb_spec (q_url c) (q_url q)) as [Eu|_].
    + apply existsb_eqb_In in E. rewrite Eu in E. contradiction.
    + eapply IH. exact H.
  - destruct H as [<-|H]; [now rewrite String.eqb_refl|].
    pose proof (dedup_fresh _ _ _ H) as Hf.
    destruct (String.eqb_spec (q_url c) (q_url q)) as [Eu|_].
    + exfalso. apply Hf. now left.
    + eapply IH. exact H.
Qed.

Lemma dedup_app seen p b :
  exists seen', dedup seen (p ++ b)%list
                = (dedup seen p ++ dedup seen' b)%list.
Proof.
  revert seen. induction p as [|c p IH]; intros seen.
  - exists seen. reflexivity.
  - cbn [app dedup]. destruct (existsb (String.eqb (q_url c)) seen).
    + apply IH.
    + destruct (IH (q_url c :: seen)) as (seen' & E).
      exists seen'. now rewrite E.
Qed.

Lemma dedup_Forall (P : VideoQuality -> Prop) seen l :
  Forall P l -> Forall P (dedup seen l).
Proof.
  intros H. apply Forall_forall. intros q Hq.
  apply dedup_In in Hq. revert q Hq. now apply Forall_forall.
Qed.

(** ** The order of the candidates

    The candidates of the primary list all carry one label; those of the
    bitrate ladder carry a "[width]x[height]" label, which the rank table
    does not know. *)

Lemma includes_x a b : includes (a ++ "x" ++ b) "x" = true.
Proof.
  induction a as [|c a IH].
  - change ("" ++ "x" ++ b) with (String "x" b). cbn [includes].
    replace (String.prefix "x" (String "x" b)) with true; [reflexivity|].
    cbn. destruct b; reflexivity.
  - change (String c a ++ "x" ++ b) with (String c (a ++ "x" ++ b)).
    cbn [includes]. rewrite IH. apply orb_true_r.
Qed.

Ltac not_the_label H :=
  match goal with
  | |- context [String.eqb ?k ?s] =>
      destruct (String.eqb_spec k s) as [E|_]; [subst; discriminate H|]
  end.

Lemma score_x label : includes label "x" = true -> score label = Int 0.
Proof.
  intros H. unfold score, get, qualityOrder. cbn [own].
  do 4 not_the_label H.
  unfold object_prototype_members. cbn [existsb].
  do 12 not_the_label H. reflexivity.
Qed.

Lemma rank_x label : includes label "x" = true -> rank label = 0.
Proof.
  intros H. unfold rank. do 4 not_the_label H. reflexivity.
Qed.

Lemma score_nonneg label r : score label = Int r -> 0 <= r.
Proof.
  unfold score, get, qualityOrder. cbn [own].
  repeat match goal with
         | |- context [String.eqb ?k label] =>
             destruct (String.eqb k label);
             [cbn; intros E; injection E as <-; lia|]
         end.
  destruct (existsb _ _); [discriminate|].
  intros E. injection E as <-. lia.
Qed.

Lemma rank_nonneg label : 0 <= rank label.
Proof.
  unfold rank.
  repeat match goal with
         | |- context [String.eqb label ?k] =>
             destruct (String.eqb label k); [lia|]
         end.
  lia.
Qed.

Lemma play_entries_label videoInfo index urls :
  Forall (fun q => q_quality q = primary_label videoInfo)
    (play_entries videoInfo index urls).
Proof.
  revert index. induction urls as [|u urls IH]; intros index; [constructor|].
  cbn [play_entries]. apply Forall_app. split; [|apply IH].
  destruct (truthy_string u); constructor; [reflexivity|constructor].
Qed.

Lemma template_truthy a b : truthy_string (a ++ "x" ++ b) = true.
Proof.
  unfold truthy_string.
  destruct (String.eqb_spec (a ++ "x" ++ b) "") as [E|_]; [|reflexivity].
  pose proof (includes_x a b) as Hx. rewrite E in Hx. discriminate Hx.
Qed.

Lemma bitrate_entry_label info :
  Forall (fun q => includes (q_quality q) "x" = true) (bitrate_entry info).
Proof.
  unfold bitrate_entry.
  destruct (first (addr_urls (br_play_addr info))) as [u|]; [|constructor].
  destruct (truthy_string u); [|constructor].
  constructor; [|constructor]. cbn [q_quality or_else].
  rewrite template_truthy. apply includes_x.
Qed.

Lemma bitrate_entries_label l :
  Forall (fun q => includes (q_quality q) "x" = true)
    (flat_map bitrate_entry l).
Proof.
  induction l as [|info l IH]; [constructor|].
  cbn [flat_map]. apply Forall_app. split; [apply bitrate_entry_label|exact IH].
Qed.

(** Every candidate has a non-empty URL. *)
Lemma play_entries_url videoInfo index urls :
  Forall (fun q => truthy_string (q_url q) = true)
    (play_entries videoInfo index urls).
Proof.
  revert index. induction urls as [|u urls IH]; intros index; [constructor|].
  cbn [play_entries]. apply Forall_app. split; [|apply IH].
  destruct (truthy_string u) eqn:E; constructor; [exact E|constructor].
Qed.

Lemma bitrate_entries_url l :
  Forall (fun q => truthy_string (q_url q) = true) (flat_map bitrate_entry l).
Proof.
  induction l as [|info l IH]; [constructor|].
  cbn [flat_map]. apply Forall_app. split; [|exact IH].
  unfold bitrate_entry.
  destruct (first (addr_urls (br_play_addr info))) as [u|]; [|constructor].
  destruct (truthy_string u) eqn:E; constructor; [exact E|constructor].
Qed.

(** The candidates come in two blocks. *)
Lemma qualities_blocks videoInfo :
  exists p b,
    qualities videoInfo = (p ++ b)%list /\
    Forall (fun q => q_quality q = primary_label videoInfo) p /\
    Forall (fun q => includes (q_quality q) "x" = true) b.
Proof.
  unfold qualities. eexists _, _. split; [reflexivity|]. split.
  - destruct (has_items _); [apply play_entries_label|constructor].
  - destruct (has_items _); [apply bitrate_entries_label|constructor].
Qed.

Lemma qualities_url videoInfo :
  Forall (fun q => truthy_string (q_url q) = true) (qualities videoInfo).
Proof.
  unfold qualities. apply Forall_app. split.
  - destruct (has_items _); [apply play_entries_url|constructor].
  - destruct (has_items _); [apply bitrate_entries_url|constructor].
Qed.

(** Two blocks, each related to itself and the first to the second, are
    sorted. *)
Lemma two_blocks_sorted {A} (R : A -> A -> Prop) (P1 P2 : A -> Prop) p b :
  (forall x y, P1 x -> P1 y -> R x y) ->
  (forall x y, P1 x -> P2 y -> R x y) ->
  (forall x y, P2 x -> P2 y -> R x y) ->
  Forall P1 p -> Forall P2 b -> StronglySorted R (p ++ b).
Proof.
  intros H11 H12 H22 Hp Hb.
  induction Hp as [|x p Hx Hp IH]; cbn [app].
  - induction Hb as [|y b Hy Hb IH]; constructor; [exact IH|].
    apply Forall_forall. intros z Hz. apply H22; [exact Hy|].
    revert z Hz. now apply Forall_forall.
  - constructor; [exact IH|].
    apply Forall_app. split; apply Forall_forall; intros z Hz.
    + apply H11; [exact Hx|]. revert z Hz. now apply Forall_forall.
    + apply H12; [exact Hx|]. revert z Hz. now apply Forall_forall.
Qed.

(** [sort] rearranges: nothing is lost or added. *)
Lemma insert_perm {A} (cmp : A -> A -> Z) x l :
  Permutation (insert cmp x l) (x :: l).
Proof.
  induction l as [|y l IH]; [reflexivity|].
  cbn [insert]. destruct (0 <? cmp x y); [|reflexivity].
  rewrite IH. apply perm_swap.
Qed.

Lemma sort_perm {A} (cmp : A -> A -> Z) l : Permutation (sort cmp l) l.
Proof.
  induction l as [|x l IH]; [reflexivity|].
  unfold sort in *. cbn [fold_right]. rewrite insert_perm. now constructor.
Qed.

(** A list in which no element is to come after its successor is left
    as it is by [sort]. *)
Lemma sort_sorted {A} (cmp : A -> A -> Z) l :
  Sorted (fun x y => cmp x y <= 0) l -> sort cmp l = l.
Proof.
  intros H. induction H as [|x l Hl IH Hd]; [reflexivity|].
  unfold sort in *. cbn [fold_right]. rewrite IH.
  destruct Hd as [|y l Hxy]; [reflexivity|].
  cbn [insert]. destruct (0 <? cmp x y) eqn:E; [|reflexivity].
  apply Z.ltb_lt in E. lia.
Qed.

Lemma by_quality_same a b :
  q_quality a = q_quality b -> by_quality a b <= 0.
Proof.
  intros E. unfold by_quality. rewrite E.
  destruct (score (q_quality b)); lia.
Qed.

Lemma by_quality_x a b :
  includes (q_quality b) "x" = true -> by_quality a b <= 0.
Proof.
  intros Hb. unfold by_quality. rewrite (score_x _ Hb).
  destruct (score (q_quality a)) as [r|] eqn:E; [|lia].
  apply score_nonneg in E. lia.
Qed.

(** The de-duplicated candidates are already in the order of the
    comparator: the sort moves nothing. *)
Lemma sort_dedup_qualities videoInfo :
  sort by_quality (dedup [] (qualities videoInfo))
  = dedup [] (qualities videoInfo).
Proof.
  destruct (qualities_blocks videoInfo) as (p & b & E & Hp & Hb).
  rewrite E. destruct (dedup_app [] p b) as (seen' & Ed). rewrite Ed.
  apply sort_sorted. apply StronglySorted_Sorted.
  apply two_blocks_sorted
    with (P1 := fun q => q_quality q = primary_label videoInfo)
         (P2 := fun q => includes (q_quality q) "x" = true).
  - intros x y Hx Hy. apply by_quality_same. congruence.
  - intros x y _ Hy. now apply by_quality_x.
  - intros x y _ Hy. now apply by_quality_x.
  - now apply dedup_Forall.
  - now apply dedup_Forall.
Qed.

Lemma dedup_qualities_ranked videoInfo :
  StronglySorted (fun a b => rank (q_quality a) >= rank (q_quality b))
    (dedup [] (qualities videoInfo)).
Proof.
  destruct (qualities_blocks videoInfo) as (p & b & E & Hp & Hb).
  rewrite E. destruct (dedup_app [] p b) as (seen' & Ed). rewrite Ed.
  apply two_blocks_sorted
    with (P1 := fun q => q_quality q = primary_label videoInfo)
         (P2 := fun q => includes (q_quality q) "x" = true).
  - intros x y Hx Hy. rewrite Hx, Hy. lia.
  - intros x y _ Hy. rewrite (rank_x _ Hy).
    pose proof (rank_nonneg (q_quality x)). lia.
  - intros x y Hx Hy. rewrite (rank_x _ Hx), (rank_x _ Hy). lia.
  - now apply dedup_Forall.
  - now apply dedup_Forall.
Qed.

Lemma video_of_response itemStruct d v :
  data (formatResponse itemStruct) = Some d -> d_video d = Some v ->
  d_type d = "video" /\
  v = make_video (video_info itemStruct) /\
  noWatermark v = dedup [] (qualities (video_info itemStruct)).
Proof.
  unfold formatResponse. intros Hd Hv. injection Hd as <-.
  cbn [d_video d_type] in *.
  destruct (isImagePost itemStruct); [discriminate Hv|].
  injection Hv as <-. split; [reflexivity|]. split; [reflexivity|].
  unfold make_video. cbn [noWatermark]. apply sort_dedup_qualities.
Qed.

(** X21. In the record of a video post of the JavaScript scraper,
    [noWatermark] holds every candidate URL exactly once, the entry kept for a URL being the first
    candidate that carries it, and is sorted by the quality-rank table
    (1080p:4, 720p:3, 540p:2, 480p:1, others 0), highest first. *)
Theorem noWatermark_unique_ranked itemStruct d v :
  data (formatResponse itemStruct) = Some d ->
  d_video d = Some v ->
  let candidates := qualities (video_info itemStruct) in
  d_type d = "video" /\
  NoDup (map q_url (noWatermark v)) /\
  (forall url, In url (map q_url candidates)
               <-> In url (map q_url (noWatermark v))) /\
  (forall q, In q (noWatermark v) ->
             find (fun c => String.eqb (q_url c) (q_url q)) candidates
             = Some q) /\
  StronglySorted (fun a b => rank (q_quality a) >= rank (q_quality b))
    (noWatermark v).
Proof.
  intros Hd Hv candidates.
  destruct (video_of_response _ _ _ Hd Hv) as (Ht & _ & ->).
  split; [exact Ht|]. split; [apply dedup_NoDup|]. split; [|split].
  - intros url. split; intros H.
    + destruct (dedup_covers [] _ _ H) as [[]|H']. exact H'.
    + apply in_map_iff in H. destruct H as (q & <- & Hq).
      apply in_map. eapply dedup_In. exact Hq.
  - intros q Hq. eapply dedup_keeps_first. exact Hq.
  - apply dedup_qualities_ranked.
Qed.

Lemma noWatermark_unique_ranked_witness :
  exists d v,
    data (formatResponse Examples.video_item) = Some d /\
    d_video d = Some v /\
    map q_url (noWatermark v)
    = [ "https://v16.example/a"; "https://v16.example/b";
        "https://v16.example/c" ] /\
    NoDup (map q_url (noWatermark v)) /\
    StronglySorted (fun a b => rank (q_quality a) >= rank (q_quality b))
      (noWatermark v).
Proof.
  eexists. eexists. split; [reflexivity|]. split; [reflexivity|].
  split; [reflexivity|].
  destruct (noWatermark_unique_ranked Examples.video_item _ _
              eq_refl eq_refl) as (_ & Hn & _ & _ & Hs).
  split; [exact Hn|exact Hs].
Defined.

(** ** The [hd] link *)

Lemma find_url_truthy (l : list VideoQuality) f q :
  Forall (fun q => truthy_string (q_url q) = true) l ->
  find f l = Some q -> truthy_string (q_url q) = true.
Proof.
  intros Hl Hf. apply find_some in Hf. destruct Hf as [Hin _].
  revert q Hin. now apply Forall_forall.
Qed.

(** X22. In the record of a video post of the JavaScript scraper, [hd]
    is the URL of the first entry of the de-duplicated [noWatermark] pool whose quality label
    contains "720" or "1080"; without such an entry it is the URL of the
    first entry of the pool, and [null] when the pool is empty. *)
Theorem hd_selection itemStruct d v :
  data (formatResponse itemStruct) = Some d ->
  d_video d = Some v ->
  noWatermark v = dedup [] (qualities (video_info itemStruct)) /\
  hd v =
  match find (fun q => includes (q_quality q) "720"
                       || includes (q_quality q) "1080") (noWatermark v) with
  | Some q => Some (q_url q)
  | None => match noWatermark v with
            | q :: _ => Some (q_url q)
            | [] => None
            end
  end.
Proof.
  intros Hd Hv.
  destruct (video_of_response _ _ _ Hd Hv) as (_ & -> & Hn).
  split; [exact Hn|]. revert Hn. unfold make_video. cbn [noWatermark hd].
  intros ->.
  assert (Hu : Forall (fun q => truthy_string (q_url q) = true)
                 (dedup [] (qualities (video_info itemStruct))))
    by (apply dedup_Forall, qualities_url).
  fold is_hd. change (fun q => is_hd q) with is_hd.
  destruct (find is_hd _) as [q|] eqn:Ef.
  - cbn [option_map or_opt]. now rewrite (find_url_truthy _ _ _ Hu Ef).
  - cbn [option_map or_opt first].
    destruct (dedup [] (qualities (video_info itemStruct))) as [|q l];
      [reflexivity|].
    cbn [option_map or_opt]. apply Forall_inv in Hu. now rewrite Hu.
Qed.

Lemma hd_selection_witness :
  exists d v,
    data (formatResponse Examples.video_item) = Some d /\
    d_video d = Some v /\
    hd v = Some "https://v16.example/c" /\
    hd v =
    match find (fun q => includes (q_quality q) "720"
                         || includes (q_quality q) "1080")
               (noWatermark v) with
    | Some q => Some (q_url q)
    | None => match noWatermark v with
              | q :: _ => Some (q_url q)
              | [] => None
              end
    end.
Proof.
  eexists. eexists. split; [reflexivity|]. split; [reflexivity|].
  split; [reflexivity|].
  exact (proj2 (hd_selection Examples.video_item _ _ eq_refl eq_refl)).
Defined.

(** ** Statistics *)

(** Where the counters are numbers (integers) or are missing, the display
    strings are the renderings of the raw numbers. *)
Lemma formatNumber_parseInt_number (v other : val) :
  numeric v -> numeric other ->
  formatNumber (or v (or other (Number (Int 0))))
  = formatNumber (Number (parseInt (or v (or other (Number (Int 0)))))).
Proof.
  assert (H : forall z, formatNumber (Number (Int z))
                        = formatNumber (Number (parseInt (Number (Int z)))))
    by reflexivity.
  intros [->|[->|[z [_ ->]]]] [->|[->|[z' [_ ->]]]];
    unfold or; cbn [truthy];
    repeat match goal with
           | |- context [negb (?x =? 0)] => destruct (x =? 0); cbn [negb]
           end;
    apply H.
Qed.

Lemma statistics_consistent_on_numbers (stats : Stats) :
  numeric (digg_count stats) -> numeric (diggCount stats) ->
  numeric (comment_count stats) -> numeric (commentCount stats) ->
  numeric (share_count stats) -> numeric (shareCount stats) ->
  numeric (play_count stats) -> numeric (playCount stats) ->
  let s := make_statistics stats in
  likes s = formatNumber (Number (likesRaw s)) /\
  comments s = formatNumber (Number (commentsRaw s)) /\
  shares s = formatNumber (Number (sharesRaw s)) /\
  views s = formatNumber (Number (viewsRaw s)).
Proof.
  intros. unfold make_statistics.
  cbn [likes comments shares views likesRaw commentsRaw sharesRaw viewsRaw].
  repeat split; now apply formatNumber_parseInt_number.
Qed.

(** C10, as the code has it.  With the like count "1.2M" the display
    string is "0" ([isNaN] rejects the string), the raw count is 1
    ([parseInt] reads its leading digit), and the rendering of the raw
    count is "1": [likes] is not [formatNumber(likesRaw)]. *)
Theorem likes_differ_from_rendered_raw :
  exists d,
    data (formatResponse Examples.video_item) = Some d /\
    likes (d_statistics d) = "0" /\
    likesRaw (d_statistics d) = Int 1 /\
    formatNumber (Number (likesRaw (d_statistics d))) = "1" /\
    likes (d_statistics d)
    <> formatNumber (Number (likesRaw (d_statistics d))).
Proof.
  eexists. split; [reflexivity|].
  split; [reflexivity|]. split; [reflexivity|]. split; [reflexivity|].
  discriminate.
Qed.

End AssemblerFacts.

(* ================================================================== *)
(** * Identifier extractor                                             *)
(* ================================================================== *)

Module ExtractorFacts.

Import JsString JsObject Scraper.

Lemma first_down_some {A} (f : nat -> option A) k r :
  first_down f k = Some r -> exists j, (j <= k)%nat /\ f j = Some r.
Proof.
  induction k as [|k IH]; cbn [first_down].
  - destruct (f 0%nat) eqn:E; [|discriminate].
    intros H. injection H as <-. exists 0%nat. split; [lia|exact E].
  - destruct (f (S k)) eqn:E.
    + intros H. injection H as <-. exists (S k). split; [lia|exact E].
    + intros H. destruct (IH H) as (j & Hj & Ej).
      exists j. split; [lia|exact Ej].
Qed.

Lemma take_while_length (p : ascii -> bool) l :
  (List.length (take_while p l) <= List.length l)%nat.
Proof.
  induction l as [|c l IH]; [cbn; lia|].
  cbn [take_while]. destruct (p c); cbn [List.length]; lia.
Qed.

Lemma firstn_nonempty {A} (l : list A) j :
  (0 < j <= List.length l)%nat -> firstn j l <> [].
Proof.
  destruct j as [|j]; [lia|].
  destruct l as [|x l]; cbn [List.length]; [lia|].
  intros _. cbn [firstn]. discriminate.
Qed.

(** A match of a pattern with a capture group captures at least one
    character. *)
Lemma match_here_nonempty p :
  forall l cap c,
    match_here p l cap = Some c ->
    cap <> [] \/ Exists is_capture p -> c <> [].
Proof.
  induction p as [|i p IH]; intros l cap c Hm Hc.
  - cbn [match_here] in Hm. injection Hm as <-.
    destruct Hc as [Hc|Hc]; [exact Hc|inversion Hc].
  - assert (Hrest : ~ is_capture i -> cap <> [] \/ Exists is_capture p).
    { intros Hi. destruct Hc as [Hc|Hc]; [now left|].
      inversion Hc as [? ? Hh|? ? Ht]; subst; [contradiction|now right]. }
    destruct i as [s|cls|cls|]; cbn [match_here] in Hm.
    + destruct (strip_prefix (chars s) l) as [l'|]; [|discriminate].
      eapply IH; [exact Hm|]. apply Hrest. intros [].
    + apply first_down_some in Hm. destruct Hm as (j & Hj & Hm).
      destruct j as [|j]; [discriminate|].
      eapply IH; [exact Hm|]. apply Hrest. intros [].
    + apply first_down_some in Hm. destruct Hm as (j & Hj & Hm).
      destruct j as [|j]; [discriminate|].
      eapply IH; [exact Hm|]. left. apply firstn_nonempty.
      pose proof (take_while_length cls l). lia.
    + apply first_down_some in Hm. destruct Hm as (j & Hj & Hm).
      eapply IH; [exact Hm|]. apply Hrest. intros [].
Qed.

Lemma search_nonempty p l c :
  Exists is_capture p -> search p l = Some c -> c <> [].
Proof.
  intros Hp. induction l as [|x l IH]; cbn [search].
  - destruct (match_here p [] []) eqn:E; [|discriminate].
    intros H. injection H as <-.
    eapply match_here_nonempty; [exact E|now right].
  - destruct (match_here p (x :: l) []) eqn:E; [|exact IH].
    intros H. injection H as <-.
    eapply match_here_nonempty; [exact E|now right].
Qed.

Lemma patterns_capture : Forall (Exists is_capture) patterns.
Proof.
  unfold patterns.
  repeat (constructor;
          [repeat (first [ apply Exists_cons_hd; exact I
                         | apply Exists_cons_tl ])|]).
  constructor.
Qed.

(** An identifier, when there is one, is not the empty string. *)
Lemma extractVideoId_truthy url videoId :
  extractVideoId url = Some videoId -> truthy_string videoId = true.
Proof.
  unfold extractVideoId. pose proof patterns_capture as Hp.
  induction Hp as [|p ps Hcap _ IH]; cbn [first_match]; [discriminate|].
  unfold match1 at 1. destruct (search p (chars url)) as [c|] eqn:E.
  - cbn [option_map]. intros H. injection H as <-.
    apply (search_nonempty _ _ _ Hcap) in E.
    destruct c as [|x c]; [contradiction|]. reflexivity.
  - cbn [option_map]. exact IH.
Qed.

End ExtractorFacts.

(* ================================================================== *)
(** * Orchestrator                                                     *)
(* ================================================================== *)

Module OrchestratorFacts.

Import JsString JsObject Scraper Spec ExtractorFacts.

Lemma formatResponse_success itemStruct :
  status (formatResponse itemStruct) = "success" /\
  well_formed (formatResponse itemStruct).
Proof.
  split; [reflexivity|]. unfold well_formed, formatResponse.
  cbn [status data message]. split; [now left|]. split.
  - intros _. split; [discriminate|reflexivity].
  - intros H. discriminate H.
Qed.

Lemma all_failed_well_formed : well_formed all_failed.
Proof.
  unfold well_formed, all_failed. cbn [status data message].
  split; [now right|]. split.
  - intros H. discriminate H.
  - intros _. split; [discriminate|reflexivity].
Qed.

Lemma invalid_url_well_formed : well_formed invalid_url.
Proof.
  unfold well_formed, invalid_url. cbn [status data message].
  split; [now right|]. split.
  - intros H. discriminate H.
  - intros _. split; [discriminate|reflexivity].
Qed.

(** ** The strategy loop *)

Lemma run_strategies_returns strategies :
  Forall assembles strategies ->
  forall w, exists r w',
    run_strategies strategies w = (Return r, w') /\ well_formed r.
Proof.
  intros H. induction H as [|s strategies Hs _ IH]; intros w.
  - exists all_failed, w. split; [reflexivity|apply all_failed_well_formed].
  - cbn [run_strategies]. unfold bind, try_catch.
    destruct (s w) as [[[r|]|e] w1] eqn:Es.
    + destruct (Hs _ _ _ Es) as (i & ->).
      cbn [status formatResponse String.eqb]. unfold ret.
      eexists _, w1. split; [reflexivity|apply formatResponse_success].
    + unfold ret. apply IH.
    + unfold console_log, ret. apply IH.
Qed.

Lemma run_strategies_exhausted strategies :
  Forall (fun s => forall w, no_result (s w)) strategies ->
  forall w, exists w', run_strategies strategies w = (Return all_failed, w').
Proof.
  intros H. induction H as [|s strategies Hs _ IH]; intros w.
  - exists w. reflexivity.
  - cbn [run_strategies]. unfold bind, try_catch.
    pose proof (Hs w) as Hw. unfold no_result in Hw.
    destruct (s w) as [[[r|]|e] w1]; cbn [fst] in Hw.
    + contradiction.
    + unfold ret. apply IH.
    + unfold console_log, ret. apply IH.
Qed.

Section Pipeline.

Variable web_page : string -> page.
Variable mobile_api : string -> fetched.
Variable embed_page : string -> fetched.

Lemma read_assembles a w r w' :
  read a w = (Return (Some r), w') ->
  exists itemStruct, r = formatResponse itemStruct.
Proof.
  destruct a as [e| |i|e]; unfold read, ret, throw; intros H;
    try discriminate H.
  injection H as <- _. now exists i.
Qed.

Lemma container_assembles name a : assembles (container name a).
Proof.
  intros w r w'. unfold container, try_catch.
  destruct (read a w) as [[x|e] w1] eqn:E.
  - intros H. injection H as -> ->. eapply read_assembles. exact E.
  - unfold bind, console_log, ret. discriminate.
Qed.

Lemma fetchFromWebPage_assembles url :
  assembles (fetchFromWebPage web_page url).
Proof.
  intros w r w'. unfold fetchFromWebPage, bind, axios_get.
  destruct (web_page url) as [e|universal sigi next];
    [unfold throw; discriminate|].
  destruct (container _ universal _) as [[[x|]|e] w1] eqn:E1;
    [| |discriminate].
  { unfold ret. intros H. injection H as -> ->.
    eapply container_assembles. exact E1. }
  destruct (container _ sigi _) as [[[x|]|e] w2] eqn:E2; [| |discriminate].
  { unfold ret. intros H. injection H as -> ->.
    eapply container_assembles. exact E2. }
  apply container_assembles.
Qed.

Lemma request_assembles upstream url : assembles (request upstream url).
Proof.
  intros w r w'. unfold request, bind, axios_get. apply read_assembles.
Qed.

Lemma try_mirrors_assembles urls :
  assembles (try_mirrors mobile_api urls).
Proof.
  induction urls as [|u urls IH]; intros w r w'.
  - cbn [try_mirrors]. unfold ret. discriminate.
  - cbn [try_mirrors]. unfold bind, try_catch.
    destruct (request mobile_api u w) as [[[x|]|e] w1] eqn:E.
    + unfold ret. intros H. injection H as -> ->.
      eapply request_assembles. exact E.
    + apply IH.
    + unfold ret. apply IH.
Qed.

Lemma fetchFromEmbed_assembles videoId :
  assembles (fetchFromEmbed embed_page videoId).
Proof.
  intros w r w'. unfold fetchFromEmbed, bind, try_catch.
  destruct (request embed_page _ w) as [[x|e] w1] eqn:E.
  - unfold ret. intros H. injection H as -> ->.
    eapply request_assembles. exact E.
  - unfold console_log, ret. discriminate.
Qed.

(** C3. For every URL and whatever the upstream answers, [scrapeTikTok]
    returns (it does not throw) an envelope whose status is "success" or
    "error", with [data] and no [message] on success and a [message] and
    no [data] on error. *)
Theorem scrapeTikTok_envelope url w :
  exists r w',
    scrapeTikTok web_page mobile_api embed_page url w = (Return r, w') /\
    (status r = "success" \/ status r = "error") /\
    (status r = "success" -> data r <> None /\ message r = None) /\
    (status r = "error" -> message r <> None /\ data r = None).
Proof.
  change (exists r w',
             scrapeTikTok web_page mobile_api embed_page url w
             = (Return r, w') /\ well_formed r).
  unfold scrapeTikTok, try_catch.
  destruct (extractVideoId url) as [videoId|].
  - destruct (truthy_string videoId).
    + destruct (run_strategies_returns
                  [ fetchFromWebPage web_page url;
                    fetchFromApi mobile_api videoId;
                    fetchFromEmbed embed_page videoId ]) with (w := w)
        as (r & w' & E & Hwf).
      { repeat constructor.
        - apply fetchFromWebPage_assembles.
        - apply try_mirrors_assembles.
        - apply fetchFromEmbed_assembles. }
      rewrite E. now exists r, w'.
    + exists invalid_url, w. split; [reflexivity|apply invalid_url_well_formed].
  - exists invalid_url, w. split; [reflexivity|apply invalid_url_well_formed].
Qed.

(** C4. When the three strategies all return null or throw,
    [scrapeTikTok] returns the error envelope with the one generic
    message "All extraction methods failed. ...", whatever the errors
    thrown say. *)
Theorem scrapeTikTok_exhausted url videoId :
  extractVideoId url = Some videoId ->
  (forall w, no_result (fetchFromWebPage web_page url w)) ->
  (forall w, no_result (fetchFromApi mobile_api videoId w)) ->
  (forall w, no_result (fetchFromEmbed embed_page videoId w)) ->
  forall w, exists w',
    scrapeTikTok web_page mobile_api embed_page url w
    = (Return {| status := "error";
                 data := None;
                 message := Some "All extraction methods failed. Video may be private, deleted, or region-blocked." |},
       w').
Proof.
  intros Hid H1 H2 H3 w. unfold scrapeTikTok, try_catch.
  rewrite Hid, (extractVideoId_truthy _ _ Hid).
  destruct (run_strategies_exhausted
              [ fetchFromWebPage web_page url;
                fetchFromApi mobile_api videoId;
                fetchFromEmbed embed_page videoId ]) with (w := w)
    as (w' & E).
  { repeat constructor; assumption. }
  rewrite E. now exists w'.
Qed.

(** C5. When the identifier extractor finds no identifier,
    [scrapeTikTok] returns the "Invalid TikTok URL format" error envelope
    and leaves the world as it was: no request is issued. *)
Theorem scrapeTikTok_invalid_url url w :
  extractVideoId url = None ->
  scrapeTikTok web_page mobile_api embed_page url w
  = (Return {| status := "error"; data := None;
               message := Some "Invalid TikTok URL format" |}, w) /\
  requests (snd (scrapeTikTok web_page mobile_api embed_page url w))
  = requests w.
Proof.
  intros H. unfold scrapeTikTok, try_catch. rewrite H. split; reflexivity.
Qed.

End Pipeline.

(** A run against an upstream on which every strategy fails: the five
    requests are issued in order, the errors go to the console, and the
    envelope carries the generic message only. *)
Lemma exhausted_run :
  scrapeTikTok Examples.blocked_page Examples.empty_mirror
    Examples.slow_embed Examples.video_url Examples.start
  = (Return all_failed,
     {| requests :=
          [ Examples.video_url;
            "https://api16-normal-c-useast1a.tiktokv.com/aweme/v1/feed/?aweme_id=7300000000000000001";
            "https://api16-normal-c-useast2a.tiktokv.com/aweme/v1/feed/?aweme_id=7300000000000000001";
            "https://api16-core-c-useast1a.tiktokv.com/aweme/v1/feed/?aweme_id=7300000000000000001";
            "https://www.tiktok.com/embed/7300000000000000001" ];
        console :=
          [ "Strategy failed: Request failed with status code 403";
            "Embed fetch failed: timeout of 10000ms exceeded" ] |}).
Proof. vm_compute. reflexivity. Qed.

Lemma scrapeTikTok_envelope_witness :
  exists r w',
    scrapeTikTok Examples.blocked_page Examples.empty_mirror
      Examples.slow_embed Examples.video_url Examples.start
    = (Return r, w') /\
    (status r = "success" \/ status r = "error") /\
    (status r = "success" -> data r <> None /\ message r = None) /\
    (status r = "error" -> message r <> None /\ data r = None).
Proof.
  exact (scrapeTikTok_envelope Examples.blocked_page Examples.empty_mirror
           Examples.slow_embed Examples.video_url Examples.start).
Defined.

Lemma scrapeTikTok_exhausted_witness :
  exists w',
    scrapeTikTok Examples.blocked_page Examples.empty_mirror
      Examples.slow_embed Examples.video_url Examples.start
    = (Return {| status := "error";
                 data := None;
                 message := Some "All extraction methods failed. Video may be private, deleted, or region-blocked." |},
       w').
Proof.
  apply (scrapeTikTok_exhausted Examples.blocked_page Examples.empty_mirror
           Examples.slow_embed Examples.video_url "7300000000000000001").
  - vm_compute. reflexivity.
  - intros w. exact I.
  - intros w. exact I.
  - intros w. exact I.
Defined.

Lemma scrapeTikTok_invalid_url_witness :
  scrapeTikTok Examples.blocked_page Examples.empty_mirror
    Examples.slow_embed "https://example.com/watch?v=1" Examples.start
  = (Return {| status := "error"; data := None;
               message := Some "Invalid TikTok URL format" |},
     Examples.start) /\
  requests (snd (scrapeTikTok Examples.blocked_page Examples.empty_mirror
                   Examples.slow_embed "https://example.com/watch?v=1"
                   Examples.start))
  = requests Examples.start.
Proof.
  apply (scrapeTikTok_invalid_url Examples.blocked_page Examples.empty_mirror
           Examples.slow_embed "https://example.com/watch?v=1"
           Examples.start).
  vm_compute. reflexivity.
Defined.

End OrchestratorFacts.

(* ================================================================== *)
(** * Strategies: order, short-circuit and what reaches the console    *)
(* ================================================================== *)

Module StrategyFacts.

Import JsString JsObject Scraper Spec Props ExtractorFacts.

Section Pipeline.

Variable web_page : string -> page.
Variable mobile_api : string -> fetched.
Variable embed_page : string -> fetched.

Lemma extend_extend w a b c d :
  extend (extend w a b) c d = extend w (a ++ c)%list (b ++ d)%list.
Proof. unfold extend. cbn [requests console]. now rewrite !app_assoc. Qed.

Lemma extend_nil w : extend w [] [] = w.
Proof. destruct w. unfold extend. cbn. now rewrite !app_nil_r. Qed.

Lemma axios_get_spec url w : axios_get url w = (Return tt, extend w [url] []).
Proof. unfold axios_get, extend. now rewrite app_nil_r. Qed.

Lemma request_spec upstream url w :
  request upstream url w =
  (match upstream url with
   | Fails e | Broken e => Throw e
   | NoItem => Return None
   | Item i => Return (Some (formatResponse i))
   end, extend w [url] []).
Proof.
  unfold request, bind. rewrite axios_get_spec.
  destruct (upstream url); reflexivity.
Qed.

Lemma container_spec name a w :
  container name a w =
  (Return (match a with
           | Item i => Some (formatResponse i)
           | _ => None
           end),
   extend w [] (parse_report name a)).
Proof.
  unfold container, try_catch, read, bind, console_log, ret, throw, extend.
  destruct w as [rs cs].
  destruct a as [e| |i|e]; cbn [requests console parse_report];
    now rewrite ?app_nil_r.
Qed.

(** The mirrors: the first that holds a record which is assembled. *)
Lemma try_mirrors_spec urls w :
  try_mirrors mobile_api urls w =
  (Return (option_map formatResponse
             (fst (fst (first_item (mirror_steps mobile_api urls))))),
   extend w (snd (fst (first_item (mirror_steps mobile_api urls))))
     (snd (first_item (mirror_steps mobile_api urls)))).
Proof.
  revert w. induction urls as [|u urls IH]; intros w.
  - cbn. now rewrite extend_nil.
  - cbn [try_mirrors mirror_steps map first_item held asked said].
    fold (mirror_steps mobile_api urls).
    unfold bind, try_catch. rewrite request_spec.
    destruct (mobile_api u) as [e| |i|e]; unfold ret; cbn [option_map];
      try (rewrite IH;
           destruct (first_item (mirror_steps mobile_api urls))
             as [[r us] ls];
           cbn [fst snd]; now rewrite extend_extend).
    cbn [fst snd option_map]. reflexivity.
Qed.

Lemma mirror_steps_silent urls :
  snd (first_item (mirror_steps mobile_api urls)) = [].
Proof.
  induction urls as [|u urls IH]; [reflexivity|].
  cbn [mirror_steps map first_item held asked said].
  fold (mirror_steps mobile_api urls).
  destruct (mobile_api u); try reflexivity;
    destruct (first_item (mirror_steps mobile_api urls)) as [[r us] ls];
    cbn [snd app] in *; exact IH.
Qed.

Lemma first_item_app l1 l2 :
  first_item (l1 ++ l2) =
  match first_item l1 with
  | (Some i, urls, lines) => (Some i, urls, lines)
  | (None, urls, lines) =>
      (fst (fst (first_item l2)),
       urls ++ snd (fst (first_item l2)),
       lines ++ snd (first_item l2))%list
  end.
Proof.
  induction l1 as [|a l1 IH].
  - cbn. now destruct (first_item l2) as [[r us] ls].
  - cbn [app first_item]. destruct (held a); try reflexivity;
      rewrite IH; destruct (first_item l1) as [[[i|] us] ls];
      cbn [fst snd]; now rewrite ?app_assoc.
Qed.

(** The requests of a run are a beginning of the plan. *)
Lemma first_item_asked steps found urls lines :
  first_item steps = (found, urls, lines) ->
  exists rest, List.concat (map asked steps) = (urls ++ rest)%list.
Proof.
  revert found urls lines.
  induction steps as [|s steps IH]; intros found urls lines H.
  - injection H as <- <- <-. now exists [].
  - cbn [first_item] in H. cbn [map List.concat].
    destruct (held s);
      try (destruct (first_item steps) as [[r us] ls];
           injection H as <- <- <-;
           destruct (IH _ _ _ eq_refl) as (rest & ->);
           exists rest; now rewrite app_assoc).
    injection H as <- <- <-. now eexists.
Qed.

Lemma fetchFromEmbed_spec videoId w :
  fetchFromEmbed embed_page videoId w =
  (Return (match embed_page (embedUrl videoId) with
           | Item i => Some (formatResponse i)
           | _ => None
           end),
   extend w [embedUrl videoId] (embed_report (embed_page (embedUrl videoId)))).
Proof.
  unfold fetchFromEmbed, bind, try_catch. fold (embedUrl videoId).
  rewrite request_spec.
  destruct (embed_page (embedUrl videoId)) as [e| |i|e];
    unfold ret, console_log, extend; cbn; try reflexivity;
    now rewrite !app_nil_r.
Qed.

Lemma fetchFromWebPage_spec url w :
  fetchFromWebPage web_page url w =
  match web_page url with
  | Unreachable e => (Throw e, extend w [url] [])
  | Html universal sigi next =>
      let '(found, urls, lines) :=
        first_item (page_steps url (web_page url)) in
      (Return (option_map formatResponse found), extend w urls lines)
  end.
Proof.
  unfold fetchFromWebPage, bind. rewrite axios_get_spec.
  destruct (web_page url) as [e|universal sigi next]; [reflexivity|].
  rewrite !container_spec.
  cbn [page_steps first_item held asked said].
  destruct universal as [e1| |i1|e1]; cbn [parse_report option_map];
    unfold ret; rewrite ?extend_extend; try reflexivity;
    rewrite !container_spec;
    destruct sigi as [e2| |i2|e2]; cbn [parse_report option_map];
    unfold ret; rewrite ?extend_extend; try reflexivity;
    rewrite !container_spec;
    destruct next as [e3| |i3|e3]; cbn [parse_report option_map];
    rewrite ?extend_extend; reflexivity.
Qed.

Lemma apiUrls_length videoId : List.length (apiUrls videoId) = 3%nat.
Proof. reflexivity. Qed.

Lemma run_strategies_cons s rest w :
  run_strategies (s :: rest) w =
  match s w with
  | (Return (Some r), w1) =>
      if String.eqb (status r) "success" then (Return r, w1)
      else run_strategies rest w1
  | (Return None, w1) => run_strategies rest w1
  | (Throw e, w1) =>
      run_strategies rest
        {| requests := requests w1;
           console := console w1 ++ ["Strategy failed: " ++ e_message e] |}
  end.
Proof.
  cbn [run_strategies]. unfold bind, try_catch, ret, console_log.
  destruct (s w) as [[[r|]|e] w1]; try reflexivity.
  destruct (String.eqb (status r) "success"); reflexivity.
Qed.

Lemma log_extend w urls lines line :
  {| requests := requests (extend w urls lines);
     console := console (extend w urls lines) ++ [line] |}
  = extend w urls (lines ++ [line]).
Proof. unfold extend. cbn [requests console]. now rewrite app_assoc. Qed.

Lemma run_rest videoId w :
  run_strategies [ fetchFromApi mobile_api videoId;
                   fetchFromEmbed embed_page videoId ] w =
  let '(found, urls, lines) :=
    first_item (mirror_steps mobile_api (apiUrls videoId)
                ++ [embed_step embed_page videoId]) in
  (Return (match found with
           | Some itemStruct => formatResponse itemStruct
           | None => all_failed
           end),
   extend w urls lines).
Proof.
  rewrite run_strategies_cons. unfold fetchFromApi.
  rewrite try_mirrors_spec, first_item_app.
  destruct (first_item (mirror_steps mobile_api (apiUrls videoId)))
    as [[[i|] us] ls]; cbn [fst snd option_map].
  - cbn [status formatResponse]. now rewrite String.eqb_refl.
  - rewrite run_strategies_cons, fetchFromEmbed_spec, extend_extend.
    cbn [first_item embed_step held asked said].
    destruct (embed_page (embedUrl videoId)) as [e| |i|e];
      cbn [fst snd embed_report status formatResponse run_strategies];
      unfold ret; rewrite ?String.eqb_refl, ?app_nil_r; reflexivity.
Qed.

Lemma run_all url videoId w :
  run_strategies [ fetchFromWebPage web_page url;
                   fetchFromApi mobile_api videoId;
                   fetchFromEmbed embed_page videoId ] w =
  let '(found, urls, lines) :=
    first_item (answers web_page mobile_api embed_page url videoId) in
  (Return (match found with
           | Some itemStruct => formatResponse itemStruct
           | None => all_failed
           end),
   extend w urls lines).
Proof.
  rewrite run_strategies_cons, fetchFromWebPage_spec.
  unfold answers. rewrite first_item_app.
  destruct (web_page url) as [e|universal sigi next].
  - cbn [page_steps first_item held asked said].
    rewrite log_extend, run_rest.
    destruct (first_item _) as [[r us] ls]. cbn [fst snd app].
    now rewrite extend_extend.
  - destruct (first_item (page_steps url (Html universal sigi next)))
      as [[[i|] us] ls]; cbn [option_map].
    + cbn [status formatResponse]. now rewrite String.eqb_refl.
    + rewrite run_rest. destruct (first_item _) as [[r us'] ls'].
      cbn [fst snd]. now rewrite extend_extend.
Qed.

Lemma scrapeTikTok_cases url w :
  exists r w',
    scrapeTikTok web_page mobile_api embed_page url w = (Return r, w') /\
    (r = invalid_url \/ r = all_failed \/
     exists itemStruct, r = formatResponse itemStruct).
Proof.
  unfold scrapeTikTok, try_catch.
  destruct (extractVideoId url) as [videoId|] eqn:Hid.
  - rewrite (extractVideoId_truthy _ _ Hid), run_all.
    destruct (first_item _) as [[[i|] us] ls]; eexists _, _;
      (split; [reflexivity|]).
    + right; right; now exists i.
    + right. now left.
  - exists invalid_url, w. split; [reflexivity|now left].
Qed.

Lemma page_steps_asked url p :
  List.concat (map asked (page_steps url p)) = [url].
Proof. destruct p; reflexivity. Qed.

Lemma mirror_steps_asked urls :
  List.concat (map asked (mirror_steps mobile_api urls)) = urls.
Proof.
  induction urls as [|u urls IH]; [reflexivity|].
  cbn [mirror_steps map List.concat asked app].
  fold (mirror_steps mobile_api urls). now rewrite IH.
Qed.

Lemma answers_asked url videoId :
  List.concat (map asked (answers web_page mobile_api embed_page url videoId))
  = plan url videoId.
Proof.
  unfold answers, plan.
  rewrite !map_app, !concat_app, page_steps_asked, mirror_steps_asked.
  reflexivity.
Qed.

Lemma first_item_head s steps found urls lines :
  first_item (s :: steps) = (found, urls, lines) ->
  exists urls', urls = (asked s ++ urls')%list.
Proof.
  cbn [first_item].
  destruct (held s); try (destruct (first_item steps) as [[r us] ls]);
    intros H; injection H as _ <- _;
    [now eexists|now eexists|exists []; now rewrite app_nil_r|now eexists].
Qed.

Lemma page_first url p steps found urls lines :
  first_item (page_steps url p ++ steps) = (found, urls, lines) ->
  exists urls', urls = url :: urls'.
Proof.
  destruct p as [e|universal sigi next]; cbn [page_steps app];
    intros H; apply first_item_head in H; exact H.
Qed.

(** X1. With an identifier, the envelope is the assembler's output for
    the first record it accepts among what the upstream holds, read in
    the order: the three containers of the page, mirror 1 to 3, embed
    page; it is the generic error when there is none.  The requests
    issued are a beginning of the plan (page, mirrors, embed page) that
    includes the page; the console holds, in order, a line for the page
    that could not be loaded or for each of its containers that threw,
    and a line for the embed page that threw; the mirrors leave none. *)
Theorem scrapeTikTok_first_item url videoId w :
  extractVideoId url = Some videoId ->
  let '(found, urls, lines) :=
    first_item (answers web_page mobile_api embed_page url videoId) in
  scrapeTikTok web_page mobile_api embed_page url w =
  (Return (match found with
           | Some itemStruct => formatResponse itemStruct
           | None => all_failed
           end),
   extend w urls lines) /\
  (exists urls' rest, urls = url :: urls' /\
                      plan url videoId = (urls ++ rest)%list).
Proof.
  intros Hid. unfold scrapeTikTok, try_catch.
  rewrite Hid, (extractVideoId_truthy _ _ Hid), run_all.
  destruct (first_item _) as [[found urls] lines] eqn:E.
  split; [reflexivity|].
  destruct (first_item_asked _ _ _ _ E) as (rest & Hrest).
  rewrite answers_asked in Hrest.
  unfold answers in E. apply page_first in E. destruct E as (urls' & ->).
  now exists urls', rest.
Qed.

Lemma try_mirrors_first urls w :
  exists found k,
    (k <= List.length urls)%nat /\
    try_mirrors mobile_api urls w =
    (Return (option_map formatResponse found),
     extend w (firstn k urls) []) /\
    match found with
    | Some itemStruct =>
        (1 <= k)%nat /\
        exists apiUrl,
          nth_error urls (k - 1) = Some apiUrl /\
          mobile_api apiUrl = Item itemStruct /\
          forall earlier, In earlier (firstn (k - 1) urls) ->
                          forall i, mobile_api earlier <> Item i
    | None =>
        k = List.length urls /\
        forall apiUrl, In apiUrl urls ->
                       forall i, mobile_api apiUrl <> Item i
    end.
Proof.
  revert w. induction urls as [|u urls IH]; intros w.
  - exists None, 0%nat. split; [reflexivity|]. split.
    + cbn. now rewrite extend_nil.
    + split; [reflexivity|]. intros apiUrl [].
  - cbn [try_mirrors]. unfold bind, try_catch. rewrite request_spec.
    destruct (mobile_api u) as [e| |i|e] eqn:Eu; unfold ret.
    3: { exists (Some i), 1%nat. cbn [List.length firstn]. split; [lia|].
         split; [reflexivity|]. split; [lia|]. exists u.
         cbn [Nat.sub nth_error firstn]. split; [reflexivity|].
         split; [exact Eu|]. intros earlier []. }
    all: destruct (IH (extend w [u] [])) as (found & k & Hk & E & Hf);
      exists found, (S k); cbn [List.length firstn];
      (split; [lia|]); rewrite E, extend_extend;
      (split; [reflexivity|]);
      destruct found as [i|].
    all: try (destruct Hf as (Hk1 & apiUrl & Hn & Ha & He);
              split; [lia|]; exists apiUrl;
              replace (S k - 1)%nat with (S (k - 1)) by lia;
              cbn [nth_error firstn]; split; [exact Hn|];
              split; [exact Ha|];
              intros earlier [<-|Hin] i' Hi';
              [rewrite Eu in Hi'; discriminate Hi'|exact (He _ Hin i' Hi')]).
    all: destruct Hf as (-> & Hn); split; [reflexivity|];
      intros apiUrl [<-|Hin] i' Hi';
      [rewrite Eu in Hi'; discriminate Hi'|exact (Hn _ Hin i' Hi')].
Qed.

(** X2. [fetchFromApi] never throws and writes nothing to the console:
    it asks the three mirrors in order and stops at the first that holds
    a record which the assembler accepts, returning the assembler's
    output for it; a mirror whose request throws, that holds no record,
    or whose record makes the assembler throw is passed over, and the
    result is null after the third. *)
Theorem fetchFromApi_first_mirror videoId w :
  exists found k,
    (1 <= k <= 3)%nat /\
    fetchFromApi mobile_api videoId w =
    (Return (option_map formatResponse found),
     extend w (firstn k (apiUrls videoId)) []) /\
    match found with
    | Some itemStruct =>
        exists apiUrl,
          nth_error (apiUrls videoId) (k - 1) = Some apiUrl /\
          mobile_api apiUrl = Item itemStruct /\
          forall earlier, In earlier (firstn (k - 1) (apiUrls videoId)) ->
                          forall i, mobile_api earlier <> Item i
    | None =>
        k = 3%nat /\
        forall apiUrl, In apiUrl (apiUrls videoId) ->
                       forall i, mobile_api apiUrl <> Item i
    end.
Proof.
  destruct (try_mirrors_first (apiUrls videoId) w)
    as (found & k & Hk & E & Hf).
  rewrite apiUrls_length in Hk. exists found, k.
  destruct found as [i|].
  - destruct Hf as (Hk1 & Hu). split; [lia|]. split; [exact E|exact Hu].
  - destruct Hf as (Hk3 & Hn). rewrite apiUrls_length in Hk3.
    split; [lia|]. split; [exact E|]. split; [exact Hk3|exact Hn].
Qed.

(** X3. [fetchFromEmbed] never throws: it issues the one request for the
    embed page of the identifier and returns the assembler's output for
    the record found there, or null; when the request, the reading of
    the page or the assembler throws, the message of the error is
    written to the console and the result is null. *)
Theorem fetchFromEmbed_once videoId w :
  fetchFromEmbed embed_page videoId w =
  (Return (match embed_page ("https://www.tiktok.com/embed/" ++ videoId) with
           | Item itemStruct => Some (formatResponse itemStruct)
           | _ => None
           end),
   {| requests := requests w ++ [ "https://www.tiktok.com/embed/" ++ videoId ];
      console :=
        console w ++
        match embed_page ("https://www.tiktok.com/embed/" ++ videoId) with
        | Fails e | Broken e => [ "Embed fetch failed: " ++ e_message e ]
        | _ => []
        end |}).
Proof.
  rewrite fetchFromEmbed_spec. unfold extend, embedUrl, embed_report.
  reflexivity.
Qed.

(** X4. Whatever the URL and the upstream, [scrapeTikTok] returns, and
    its envelope is the assembler's output for an item record or one of
    two fixed error envelopes: the text of a thrown error never reaches
    the message. *)
Theorem scrapeTikTok_messages url w :
  exists r w',
    scrapeTikTok web_page mobile_api embed_page url w = (Return r, w') /\
    ((exists itemStruct, r = formatResponse itemStruct) \/
     r = {| status := "error"; data := None;
            message := Some "Invalid TikTok URL format" |} \/
     r = {| status := "error"; data := None;
            message := Some "All extraction methods failed. Video may be private, deleted, or region-blocked." |}).
Proof.
  destruct (scrapeTikTok_cases url w) as (r & w' & E & Hr).
  exists r, w'. split; [exact E|].
  destruct Hr as [->|[->|Hr]]; [right; now left|right; now right|now left].
Qed.

End Pipeline.

Lemma scrapeTikTok_first_item_witness :
  scrapeTikTok Samples.garbled_page Samples.late_mirror
    Examples.slow_embed Examples.video_url Examples.start
  = (Return (formatResponse Examples.video_item),
     extend Examples.start
       [ Examples.video_url;
         "https://api16-normal-c-useast1a.tiktokv.com/aweme/v1/feed/?aweme_id=7300000000000000001";
         "https://api16-normal-c-useast2a.tiktokv.com/aweme/v1/feed/?aweme_id=7300000000000000001" ]
       [ "Failed to parse __UNIVERSAL_DATA_FOR_REHYDRATION__";
         "Failed to parse __SIGI_STATE__" ]).
Proof.
  exact (proj1 (scrapeTikTok_first_item Samples.garbled_page
                  Samples.late_mirror Examples.slow_embed Examples.video_url
                  "7300000000000000001" Examples.start eq_refl)).
Defined.

End StrategyFacts.

(* ================================================================== *)
(** * The handlers                                                     *)
(* ================================================================== *)

Module HandlerFacts.

Import JsString JsObject Scraper Http Spec Props.

Lemma method_cases req :
  (String.eqb (method req) "GET" || String.eqb (method req) "POST") = true
  <-> (method req = "GET" \/ method req = "POST").
Proof. rewrite orb_true_iff, !String.eqb_eq. tauto. Qed.

Lemma accepted_method req url :
  accepted_url req = Some url ->
  String.eqb (method req) "OPTIONS" = false /\
  (String.eqb (method req) "GET" || String.eqb (method req) "POST") = true.
Proof.
  unfold accepted_url. intros H.
  destruct (String.eqb (method req) "GET" || String.eqb (method req) "POST")
    eqn:E; [|discriminate H].
  split; [|reflexivity]. apply String.eqb_neq. intros Eo.
  rewrite Eo in E. discriminate E.
Qed.

Section Handler.
Variable web_page : string -> page.
Variable mobile_api : string -> fetched.
Variable embed_page : string -> fetched.
Variable NODE_ENV : option string.

Let handler := Handler.handler web_page mobile_api embed_page NODE_ENV.

(** The handler, branch by branch. *)
Lemma handler_eval req w :
  handler req w =
  if String.eqb (method req) "OPTIONS" then
    (Return {| code := 200;
               headers :=
                 [ ("Access-Control-Allow-Origin", "*");
                   ("Access-Control-Allow-Methods", "GET, POST, OPTIONS");
                   ("Access-Control-Allow-Headers", "Content-Type, Authorization") ];
               json := None |}, w)
  else if String.eqb (method req) "GET" || String.eqb (method req) "POST" then
    match accepted_url req with
    | Some url =>
        match scrapeTikTok web_page mobile_api embed_page url w with
        | (Return r, w') =>
            (Return (answer [ ("Content-Type", "application/json");
                              ("Access-Control-Allow-Origin", "*") ] r), w')
        | (Throw e, w') =>
            (Return {| code := 500; headers := [];
                       json := Some (InternalError "Internal server error"
                                       (match NODE_ENV with
                                        | Some env =>
                                            if String.eqb env "development"
                                            then Some (e_message e) else None
                                        | None => None
                                        end)) |},
             extend w' [] [ "API Error: " ++ e_message e ])
        end
    | None =>
        (Return {| code := 400; headers := [];
                   json := Some (error_envelope
                                   (rejection_message (url_param req))) |}, w)
    end
  else
    (Return {| code := 405; headers := [];
               json := Some (error_envelope
                               "Method not allowed. Use GET or POST.") |}, w).
Proof.
  unfold handler, Handler.handler, accepted_url.
  change (if String.eqb (method req) "POST" then body_url req
          else query_url req) with (url_param req).
  destruct (String.eqb (method req) "OPTIONS"); [reflexivity|].
  rewrite <- negb_orb.
  destruct (String.eqb (method req) "GET" || String.eqb (method req) "POST");
    cbn [negb]; [|reflexivity].
  unfold try_catch.
  destruct (url_param req) as [|url|[|]]; cbn [truthy_param negb];
    try reflexivity.
  unfold rejection_message.
  destruct (truthy_string url); cbn [negb andb]; [|reflexivity].
  destruct (includes url "tiktok.com"); cbn [negb]; [|reflexivity].
  unfold bind.
  destruct (scrapeTikTok web_page mobile_api embed_page url w) as [[r|e] w'];
    [reflexivity|].
  unfold console_log, ret, extend. cbn. now rewrite app_nil_r.
Qed.

(** X5. The JavaScript handler turns down, without a request to the
    upstream and without a console line, every request that is not a GET
    or POST with a non-empty string [url] containing "tiktok.com":
    OPTIONS is answered 200 with the three CORS headers and no body, any
    other method 405, and a missing, empty, non-string or foreign [url]
    400, each with its own message. *)
Theorem handler_rejects req w :
  accepted_url req = None ->
  exists resp,
    handler req w = (Return resp, w) /\
    (method req = "OPTIONS" ->
       code resp = 200 /\ json resp = None /\
       headers resp =
         [ ("Access-Control-Allow-Origin", "*");
           ("Access-Control-Allow-Methods", "GET, POST, OPTIONS");
           ("Access-Control-Allow-Headers", "Content-Type, Authorization") ]) /\
    (method req <> "OPTIONS" -> method req <> "GET" -> method req <> "POST" ->
       code resp = 405 /\ headers resp = [] /\
       json resp = Some (error_envelope "Method not allowed. Use GET or POST.")) /\
    (method req = "GET" \/ method req = "POST" ->
       code resp = 400 /\ headers resp = [] /\
       json resp = Some (error_envelope (rejection_message (url_param req)))).
Proof.
  intros H. rewrite handler_eval, H.
  pose proof (method_cases req) as Hm.
  destruct (String.eqb_spec (method req) "OPTIONS") as [Eo|No].
  - eexists. split; [reflexivity|]. cbn [code json headers].
    split; [tauto|]. split; [tauto|].
    intros [E|E]; rewrite E in Eo; discriminate Eo.
  - destruct (String.eqb (method req) "GET" || String.eqb (method req) "POST").
    + eexists. split; [reflexivity|]. cbn [code json headers].
      assert (method req = "GET" \/ method req = "POST") by now apply Hm.
      split; [tauto|]. split; [tauto|]. tauto.
    + eexists. split; [reflexivity|]. cbn [code json headers].
      assert (~ (method req = "GET" \/ method req = "POST")).
      { intros E. apply Hm in E. discriminate E. }
      split; [tauto|]. split; [tauto|]. tauto.
Qed.

(** X6. For a GET or POST whose [url] is a non-empty string containing
    "tiktok.com", the JavaScript handler answers with the envelope of
    [scrapeTikTok] on that URL, under code 400 when it is an error
    envelope and 200 otherwise, with the JSON content type and the
    open CORS origin. *)
Theorem handler_passes req url w :
  accepted_url req = Some url ->
  exists r w',
    scrapeTikTok web_page mobile_api embed_page url w = (Return r, w') /\
    handler req w =
    (Return (answer [ ("Content-Type", "application/json");
                      ("Access-Control-Allow-Origin", "*") ] r), w').
Proof.
  intros H. rewrite handler_eval, H.
  destruct (accepted_method req url H) as [-> ->].
  destruct (StrategyFacts.scrapeTikTok_cases web_page mobile_api embed_page
              url w) as (r & w' & E & _).
  exists r, w'. split; [exact E|]. now rewrite E.
Qed.

End Handler.

Lemma handler_rejects_witness :
  exists resp,
    Handler.handler Examples.blocked_page Examples.empty_mirror
      Examples.slow_embed None
      (Samples.get (Text "https://example.com/watch?v=1")) Examples.start
    = (Return resp, Examples.start) /\
    code resp = 400 /\
    json resp = Some (error_envelope "Invalid TikTok URL. Must contain tiktok.com").
Proof.
  destruct (handler_rejects Examples.blocked_page Examples.empty_mirror
              Examples.slow_embed None
              (Samples.get (Text "https://example.com/watch?v=1"))
              Examples.start eq_refl) as (resp & E & _ & _ & Hu).
  exists resp. split; [exact E|].
  destruct (Hu (or_introl eq_refl)) as (Hc & _ & Hj). split; [exact Hc|exact Hj].
Defined.

Lemma handler_passes_witness :
  exists r w',
    scrapeTikTok Examples.blocked_page Examples.empty_mirror
      Examples.slow_embed Examples.video_url Examples.start = (Return r, w') /\
    Handler.handler Examples.blocked_page Examples.empty_mirror
      Examples.slow_embed None
      (Samples.post (Text Examples.video_url)) Examples.start
    = (Return (answer [ ("Content-Type", "application/json");
                        ("Access-Control-Allow-Origin", "*") ] r), w').
Proof.
  exact (handler_passes Examples.blocked_page Examples.empty_mirror
           Examples.slow_embed None
           (Samples.post (Text Examples.video_url)) Examples.video_url
           Examples.start eq_refl).
Defined.

Section Download.
Variable scrapeTikTok : string -> M TikTokResponse.

(** The TypeScript handler, branch by branch. *)
Lemma download_eval req w :
  Download.handler scrapeTikTok req w =
  if String.eqb (method req) "OPTIONS" then
    (Return {| code := 200; headers := []; json := None |}, w)
  else if String.eqb (method req) "GET" || String.eqb (method req) "POST" then
    match accepted_url req with
    | Some url =>
        match scrapeTikTok url w with
        | (Return r, w') => (Return (answer [] r), w')
        | (Throw e, w') =>
            (Return {| code := 500; headers := [];
                       json := Some (InternalError "Internal server error" None) |},
             extend w' [] [ "API Error: " ++ e_message e ])
        end
    | None =>
        (Return {| code := 400; headers := [];
                   json := Some (error_envelope
                     (match url_param req with
                      | Text url =>
                          if truthy_string url then "Invalid TikTok URL"
                          else "URL parameter is required. Usage: /api/download?url=https://tiktok.com/..."
                      | _ => "URL parameter is required. Usage: /api/download?url=https://tiktok.com/..."
                      end)) |}, w)
    end
  else
    (Return {| code := 405; headers := [];
               json := Some (error_envelope "Method not allowed") |}, w).
Proof.
  unfold Download.handler, accepted_url.
  change (if String.eqb (method req) "POST" then body_url req
          else query_url req) with (url_param req).
  destruct (String.eqb (method req) "OPTIONS"); [reflexivity|].
  rewrite <- negb_orb.
  destruct (String.eqb (method req) "GET" || String.eqb (method req) "POST");
    cbn [negb]; [|reflexivity].
  unfold try_catch.
  destruct (url_param req) as [|url|t]; try reflexivity.
  destruct (truthy_string url); cbn [negb andb]; [|reflexivity].
  destruct (includes url "tiktok.com"); cbn [negb]; [|reflexivity].
  unfold bind.
  destruct (scrapeTikTok url w) as [[r|e] w']; [reflexivity|].
  unfold console_log, ret, extend. cbn. now rewrite app_nil_r.
Qed.

(** X8. The TypeScript handler turns down, without calling the scraper,
    every request that is not a GET or POST with a non-empty string
    [url] containing "tiktok.com": 200 without a body for OPTIONS, 405
    for any other method, 400 otherwise, and it sets no header. *)
Theorem download_rejects req w :
  accepted_url req = None ->
  exists resp,
    Download.handler scrapeTikTok req w = (Return resp, w) /\
    headers resp = [] /\
    (method req = "OPTIONS" -> code resp = 200 /\ json resp = None) /\
    (method req <> "OPTIONS" ->
       (code resp = 405 \/ code resp = 400) /\
       exists text, json resp = Some (error_envelope text)) /\
    (code resp = 405 <->
       method req <> "OPTIONS" /\ method req <> "GET" /\ method req <> "POST").
Proof.
  intros H. rewrite download_eval, H.
  pose proof (method_cases req) as Hm.
  destruct (String.eqb_spec (method req) "OPTIONS") as [Eo|No].
  - eexists. split; [reflexivity|]. cbn [code json headers].
    split; [reflexivity|]. split; [tauto|]. split; [tauto|].
    split; [discriminate|tauto].
  - destruct (String.eqb (method req) "GET" || String.eqb (method req) "POST").
    + eexists. split; [reflexivity|]. cbn [code json headers].
      assert (method req = "GET" \/ method req = "POST") by now apply Hm.
      split; [reflexivity|]. split; [tauto|].
      split; [intros _; split; [now right|eexists; reflexivity]|].
      split; [discriminate|tauto].
    + eexists. split; [reflexivity|]. cbn [code json headers].
      assert (~ (method req = "GET" \/ method req = "POST")).
      { intros E. apply Hm in E. discriminate E. }
      split; [reflexivity|]. split; [tauto|].
      split; [intros _; split; [now left|eexists; reflexivity]|].
      split; [intros _|reflexivity]. tauto.
Qed.

(** X9. For a GET or POST whose [url] is a non-empty string containing
    "tiktok.com", the TypeScript handler answers with the envelope the
    scraper returns, under code 400 for an error envelope and 200
    otherwise; when the scraper throws, it logs the error and answers
    500 with the fixed internal-error body. *)
Theorem download_passes req url w :
  accepted_url req = Some url ->
  Download.handler scrapeTikTok req w =
  match scrapeTikTok url w with
  | (Return r, w') => (Return (answer [] r), w')
  | (Throw e, w') =>
      (Return {| code := 500; headers := [];
                 json := Some (InternalError "Internal server error" None) |},
       extend w' [] [ "API Error: " ++ e_message e ])
  end.
Proof.
  intros H. rewrite download_eval, H.
  destruct (accepted_method req url H) as [-> ->]. reflexivity.
Qed.
End Download.

Lemma download_rejects_witness :
  exists resp,
    Download.handler Samples.found_scraper (Samples.get (Other true))
      Examples.start = (Return resp, Examples.start) /\
    code resp = 400.
Proof.
  destruct (download_rejects Samples.found_scraper (Samples.get (Other true))
              Examples.start eq_refl) as (resp & E & _ & _ & Hn & H405).
  exists resp. split; [exact E|].
  destruct (Hn ltac:(discriminate)) as [[Hc|Hc] _]; [|exact Hc].
  apply H405 in Hc. destruct Hc as (_ & Hg & _). now contradiction Hg.
Defined.

Lemma download_passes_witness :
  Download.handler Samples.broken_scraper
    (Samples.get (Text Examples.video_url)) Examples.start
  = (Return {| code := 500; headers := [];
               json := Some (InternalError "Internal server error" None) |},
     extend Examples.start [] [ "API Error: socket hang up" ]) /\
  Download.handler Samples.found_scraper
    (Samples.get (Text Examples.video_url)) Examples.start
  = (Return (answer [] (formatResponse Examples.video_item)), Examples.start).
Proof.
  split.
  - exact (download_passes Samples.broken_scraper
             (Samples.get (Text Examples.video_url)) Examples.video_url
             Examples.start eq_refl).
  - exact (download_passes Samples.found_scraper
             (Samples.get (Text Examples.video_url)) Examples.video_url
             Examples.start eq_refl).
Defined.

End HandlerFacts.

(* ================================================================== *)
(** * Identifier extractor: what it returns and what it turns down     *)
(* ================================================================== *)

Module ExtractorShapeFacts.

Import JsString JsObject Scraper Spec Props ExtractorFacts.

Lemma chars_app a b : chars (a ++ b) = (chars a ++ chars b)%list.
Proof.
  unfold chars. induction a as [|c a IH]; [reflexivity|].
  cbn. now rewrite IH.
Qed.

Lemma string_of_chars s : string_of_list_ascii (chars s) = s.
Proof. apply string_of_list_ascii_of_string. Qed.

Lemma chars_of_list l : chars (string_of_list_ascii l) = l.
Proof. apply list_ascii_of_string_of_list_ascii. Qed.

Lemma prefix_app a b : String.prefix a (a ++ b) = true.
Proof.
  induction a as [|c a IH]; [destruct b; reflexivity|].
  cbn. destruct (ascii_dec c c) as [_|N]; [exact IH|contradiction].
Qed.

Lemma includes_unfold s sub :
  includes s sub =
  String.prefix sub s || match s with
                         | EmptyString => false
                         | String _ s' => includes s' sub
                         end.
Proof. destruct s; reflexivity. Qed.

Lemma includes_infix pre c post : includes (pre ++ c ++ post) c = true.
Proof.
  induction pre as [|x pre IH].
  - cbn [append]. now rewrite includes_unfold, prefix_app.
  - change (String x pre ++ c ++ post) with (String x (pre ++ c ++ post)).
    cbn [includes]. rewrite IH. apply orb_true_r.
Qed.

Lemma infix_includes c l :
  infix c l -> includes (string_of_list_ascii l) (string_of_list_ascii c) = true.
Proof.
  intros (pre & post & ->).
  replace (string_of_list_ascii (pre ++ c ++ post))
    with (string_of_list_ascii pre ++ string_of_list_ascii c
          ++ string_of_list_ascii post).
  - apply includes_infix.
  - rewrite <- (string_of_chars (_ ++ _ ++ _)), !chars_app, !chars_of_list.
    reflexivity.
Qed.

Lemma infix_suffix c pre l : infix c l -> infix c (pre ++ l).
Proof.
  intros (a & b & ->). exists (pre ++ a)%list, b. now rewrite <- app_assoc.
Qed.

Lemma infix_prefix c rest : infix c (c ++ rest).
Proof. now exists [], rest. Qed.

Lemma infix_part a c b l : infix (a ++ c ++ b) l -> infix c l.
Proof.
  intros (pre & post & ->). exists (pre ++ a)%list, (b ++ post)%list.
  now rewrite <- !app_assoc.
Qed.

Lemma strip_prefix_app p l r : strip_prefix p l = Some r -> l = (p ++ r)%list.
Proof.
  revert l. induction p as [|c p IH]; intros l H.
  - cbn in H. now injection H as ->.
  - destruct l as [|d l]; [discriminate H|]. cbn [strip_prefix] in H.
    destruct (Ascii.eqb_spec c d) as [->|]; [|discriminate H].
    cbn. f_equal. now apply IH.
Qed.

Lemma skipn_suffix {A} k (l : list A) : l = (firstn k l ++ skipn k l)%list.
Proof. symmetry. apply firstn_skipn. Qed.

(** The capture is the initial one or a piece of the text. *)
Lemma match_here_occurs p :
  forall l cap c, match_here p l cap = Some c -> c = cap \/ infix c l.
Proof.
  induction p as [|i p IH]; intros l cap c Hm.
  - cbn in Hm. injection Hm as <-. now left.
  - destruct i as [s|cls|cls|]; cbn [match_here] in Hm.
    + destruct (strip_prefix (chars s) l) as [l'|] eqn:E; [|discriminate Hm].
      apply strip_prefix_app in E. subst l.
      destruct (IH _ _ _ Hm) as [H|H]; [now left|right].
      now apply infix_suffix.
    + apply first_down_some in Hm. destruct Hm as (j & _ & Hm).
      destruct j as [|j]; [discriminate Hm|].
      destruct (IH _ _ _ Hm) as [H|H]; [now left|right].
      rewrite (skipn_suffix (S j) l). now apply infix_suffix.
    + apply first_down_some in Hm. destruct Hm as (j & _ & Hm).
      destruct j as [|j]; [discriminate Hm|]. right.
      rewrite (skipn_suffix (S j) l).
      destruct (IH _ _ _ Hm) as [->|H]; [apply infix_prefix|].
      now apply infix_suffix.
    + apply first_down_some in Hm. destruct Hm as (j & _ & Hm).
      destruct (IH _ _ _ Hm) as [H|H]; [now left|right].
      rewrite (skipn_suffix j l). now apply infix_suffix.
Qed.

Lemma search_occurs p l c : search p l = Some c -> c = [] \/ infix c l.
Proof.
  induction l as [|x l IH]; cbn [search].
  - destruct (match_here p [] []) eqn:E; [|discriminate].
    intros H. injection H as <-. now apply match_here_occurs in E.
  - destruct (match_here p (x :: l) []) eqn:E.
    + intros H. injection H as <-. now apply match_here_occurs in E.
    + intros H. destruct (IH H) as [->|Hi]; [now left|right].
      now apply (infix_suffix c [x]).
Qed.

Lemma take_while_all (p : ascii -> bool) l : forallb p (take_while p l) = true.
Proof.
  induction l as [|c l IH]; [reflexivity|].
  cbn [take_while]. destruct (p c) eqn:E; [|reflexivity].
  cbn [forallb]. now rewrite E.
Qed.

Lemma firstn_take_while (p : ascii -> bool) l k :
  (k <= List.length (take_while p l))%nat -> forallb p (firstn k l) = true.
Proof.
  revert k. induction l as [|c l IH]; intros k Hk.
  - now rewrite firstn_nil.
  - destruct k as [|k]; [reflexivity|].
    cbn [take_while] in Hk. destruct (p c) eqn:E; [|cbn in Hk; lia].
    cbn [List.length] in Hk. cbn [firstn forallb]. rewrite E.
    apply IH. lia.
Qed.

Lemma match_here_class (P : ascii -> bool) p :
  Forall (captures_within P) p ->
  forall l cap c,
    match_here p l cap = Some c -> forallb P cap = true -> forallb P c = true.
Proof.
  intros Hp. induction Hp as [|i p Hi Hp IH]; intros l cap c Hm Hc.
  - cbn in Hm. now injection Hm as <-.
  - destruct i as [s|cls|cls|]; cbn [match_here] in Hm.
    + destruct (strip_prefix (chars s) l) as [l'|]; [|discriminate Hm].
      eapply IH; eassumption.
    + apply first_down_some in Hm. destruct Hm as (j & _ & Hm).
      destruct j as [|j]; [discriminate Hm|]. eapply IH; eassumption.
    + apply first_down_some in Hm. destruct Hm as (j & Hj & Hm).
      destruct j as [|j]; [discriminate Hm|].
      eapply IH; [exact Hm|].
      pose proof (firstn_take_while cls l (S j) Hj) as Hf.
      rewrite forallb_forall in *. intros x Hx. apply Hi. now apply Hf.
    + apply first_down_some in Hm. destruct Hm as (j & _ & Hm).
      eapply IH; eassumption.
Qed.

Lemma search_class P p l c :
  Forall (captures_within P) p -> search p l = Some c -> forallb P c = true.
Proof.
  intros Hp. induction l as [|x l IH]; cbn [search].
  - destruct (match_here p [] []) eqn:E; [|discriminate].
    intros H. injection H as <-. eapply match_here_class; eauto.
  - destruct (match_here p (x :: l) []) eqn:E; [|exact IH].
    intros H. injection H as <-. eapply match_here_class; eauto.
Qed.

Lemma digit_is_word c : is_digit c = true -> is_word c = true.
Proof. unfold is_word. intros ->. reflexivity. Qed.

Lemma patterns_word : Forall (Forall (captures_within is_word)) patterns.
Proof.
  unfold patterns.
  repeat first [ apply Forall_nil
               | apply Forall_cons
               | exact I
               | exact digit_is_word
               | exact (fun c (H : is_word c = true) => H) ].
Qed.

(** X10. An identifier that [extractVideoId] returns is never empty,
    consists of word characters only (letters, digits, underscore) and
    is a piece of the URL it was read from. *)
Theorem extractVideoId_token url videoId :
  extractVideoId url = Some videoId ->
  videoId <> "" /\
  forallb is_word (chars videoId) = true /\
  includes url videoId = true.
Proof.
  intros H. split.
  { apply extractVideoId_truthy in H. unfold truthy_string in H.
    intros E. rewrite E in H. discriminate H. }
  revert H. unfold extractVideoId.
  pose proof patterns_capture as Hc. pose proof patterns_word as Hw.
  revert Hw. induction Hc as [|p ps Hcap _ IH]; intros Hw;
    cbn [first_match]; [discriminate|].
  inversion Hw as [|? ? Hwp Hwps]; subst.
  unfold match1 at 1. destruct (search p (chars url)) as [c|] eqn:E;
    cbn [option_map].
  - intros H. injection H as <-. rewrite chars_of_list. split.
    + eapply search_class; eassumption.
    + pose proof (search_nonempty _ _ _ Hcap E) as Hne.
      destruct (search_occurs _ _ _ E) as [->|Hi]; [contradiction|].
      apply infix_includes in Hi. now rewrite string_of_chars in Hi.
  - now apply IH.
Qed.

Lemma search_lit s p l c : search (Lit s :: p) l = Some c -> infix (chars s) l.
Proof.
  induction l as [|x l IH]; cbn [search match_here].
  - destruct (strip_prefix (chars s) []) as [r|] eqn:E.
    + intros _. apply strip_prefix_app in E. rewrite E. apply infix_prefix.
    + discriminate.
  - destruct (strip_prefix (chars s) (x :: l)) as [r|] eqn:E.
    + intros _. apply strip_prefix_app in E. rewrite E. apply infix_prefix.
    + intros H. apply (infix_suffix _ [x]). now apply IH.
Qed.

Lemma lit_refutes s needle a b p url :
  chars s = (a ++ chars needle ++ b)%list ->
  includes url needle = false ->
  match1 url (Lit s :: p) = None.
Proof.
  intros Hs Hn. unfold match1.
  destruct (search (Lit s :: p) (chars url)) as [c|] eqn:E; [|reflexivity].
  apply search_lit in E. rewrite Hs in E. apply infix_part in E.
  apply infix_includes in E. rewrite !string_of_chars in E. congruence.
Qed.

(** X11. A URL that contains neither "tiktok.com/" nor "/v/" has no
    identifier: [extractVideoId] returns null. *)
Theorem extractVideoId_rejects url :
  includes url "tiktok.com/" = false ->
  includes url "/v/" = false ->
  extractVideoId url = None.
Proof.
  intros Ht Hv. unfold extractVideoId, patterns. cbn [first_match].
  rewrite (lit_refutes "tiktok.com/@" "tiktok.com/" [] (chars "@")
             _ url eq_refl Ht).
  rewrite (lit_refutes "tiktok.com/t/" "tiktok.com/" [] (chars "t/")
             _ url eq_refl Ht).
  rewrite (lit_refutes "vm.tiktok.com/" "tiktok.com/" (chars "vm.") []
             _ url eq_refl Ht).
  rewrite (lit_refutes "vt.tiktok.com/" "tiktok.com/" (chars "vt.") []
             _ url eq_refl Ht).
  rewrite (lit_refutes "tiktok.com/video/" "tiktok.com/" [] (chars "video/")
             _ url eq_refl Ht).
  rewrite (lit_refutes "/v/" "/v/" [] [] _ url eq_refl Hv).
  rewrite (lit_refutes "m.tiktok.com/v/" "/v/" (chars "m.tiktok.com") []
             _ url eq_refl Hv).
  rewrite (lit_refutes "tiktok.com/" "tiktok.com/" [] [] _ url eq_refl Ht).
  reflexivity.
Qed.

Lemma strip_prefix_exact p r : strip_prefix p (p ++ r) = Some r.
Proof.
  induction p as [|c p IH]; [reflexivity|].
  cbn. now rewrite Ascii.eqb_refl.
Qed.

Lemma first_down_hit {A} (f : nat -> option A) k r :
  f k = Some r -> first_down f k = Some r.
Proof. intros H. destruct k; cbn [first_down]; now rewrite H. Qed.

Lemma take_while_app (p : ascii -> bool) a b :
  forallb p a = true -> stops p b -> take_while p (a ++ b) = a.
Proof.
  intros Ha Hb. induction a as [|c a IH].
  - destruct b as [|d b]; [reflexivity|]. cbn in *. now rewrite Hb.
  - cbn [forallb] in Ha. apply andb_prop in Ha. destruct Ha as [Hc Ha].
    cbn. rewrite Hc. now rewrite IH.
Qed.

Lemma skipn_exact {A} (a b : list A) : skipn (List.length a) (a ++ b) = b.
Proof. induction a; [reflexivity|assumption]. Qed.

Lemma firstn_exact {A} (a b : list A) : firstn (List.length a) (a ++ b) = a.
Proof. induction a as [|x a IH]; [reflexivity|]. cbn. now rewrite IH. Qed.

Lemma lit_hit s p r cap :
  match_here (Lit s :: p) (chars s ++ r) cap = match_here p r cap.
Proof. cbn [match_here]. now rewrite strip_prefix_exact. Qed.

Lemma run_hit cls rest a b cap c :
  a <> [] -> forallb cls a = true -> stops cls b ->
  match_here rest b cap = Some c ->
  match_here (Plus cls :: rest) (a ++ b) cap = Some c.
Proof.
  intros Ha Hc Hb Hm. cbn [match_here].
  rewrite (take_while_app _ _ _ Hc Hb). apply first_down_hit.
  destruct a as [|x a]; [contradiction|]. cbn [List.length].
  change (S (List.length a)) with (List.length (x :: a)).
  now rewrite skipn_exact.
Qed.

Lemma capture_hit cls a b cap :
  a <> [] -> forallb cls a = true -> stops cls b ->
  match_here [Capture cls] (a ++ b) cap = Some a.
Proof.
  intros Ha Hc Hb. cbn [match_here].
  rewrite (take_while_app _ _ _ Hc Hb). apply first_down_hit.
  destruct a as [|x a]; [contradiction|]. cbn [List.length].
  change (S (List.length a)) with (List.length (x :: a)).
  now rewrite firstn_exact.
Qed.

Lemma chars_nonempty s : s <> "" -> chars s <> [].
Proof. destruct s; [contradiction|discriminate]. Qed.

Lemma canonical_here user videoId rest :
  user <> "" -> forallb is_word_or_dot (chars user) = true ->
  videoId <> "" -> forallb is_digit (chars videoId) = true ->
  stops is_digit (chars rest) ->
  match_here [Lit "tiktok.com/@"; Plus is_word_or_dot; Lit "/video/";
              Capture is_digit]
    (chars ("tiktok.com/@" ++ user ++ "/video/" ++ videoId ++ rest)) []
  = Some (chars videoId).
Proof.
  intros Hu Hcu Hi Hci Hr.
  rewrite !chars_app, lit_hit.
  apply run_hit; [now apply chars_nonempty|exact Hcu|reflexivity|].
  rewrite lit_hit.
  apply capture_hit; [now apply chars_nonempty|exact Hci|exact Hr].
Qed.

Lemma strip_prefix_at p l r k c :
  strip_prefix p l = Some r -> nth_error p k = Some c -> nth_error l k = Some c.
Proof.
  intros H Hk. apply strip_prefix_app in H. subst l.
  rewrite nth_error_app1; [exact Hk|].
  apply nth_error_Some. congruence.
Qed.

Lemma no_earlier_match p a X :
  forallb (fun c => negb (Ascii.eqb c "@")) a = true -> a <> [] ->
  match_here (Lit "tiktok.com/@" :: p)
    (a ++ chars "tiktok.com/@" ++ X) [] = None.
Proof.
  intros Ha Hne. cbn [match_here].
  destruct (strip_prefix (chars "tiktok.com/@") (a ++ chars "tiktok.com/@" ++ X))
    as [r|] eqn:E; [|reflexivity].
  exfalso.
  pose proof (strip_prefix_at _ _ _ 11%nat "@"%char E eq_refl) as Hn.
  change (chars "tiktok.com/@") with (chars "tiktok.com/" ++ ["@"%char])%list in Hn.
  rewrite <- app_assoc, app_assoc in Hn.
  assert (Hlen : (11 < List.length (a ++ chars "tiktok.com/"))%nat).
  { rewrite length_app. destruct a; [contradiction|]. cbn. lia. }
  rewrite nth_error_app1 in Hn by exact Hlen.
  apply nth_error_In in Hn. apply in_app_or in Hn. destruct Hn as [Hn|Hn].
  - rewrite forallb_forall in Ha. apply Ha in Hn. discriminate Hn.
  - cbn in Hn. repeat (destruct Hn as [Hn|Hn]; [discriminate Hn|]). exact Hn.
Qed.

Lemma search_hit p l c : match_here p l [] = Some c -> search p l = Some c.
Proof. intros H. destruct l; cbn [search]; now rewrite H. Qed.

Lemma search_skip p x l :
  match_here p (x :: l) [] = None -> search p (x :: l) = search p l.
Proof. intros H. cbn [search]. now rewrite H. Qed.

(** X12. For a URL of the canonical shape, any prefix without "@"
    followed by "tiktok.com/@", a user name of word characters and dots,
    "/video/", a run of digits and a remainder that does not go on with
    a digit, [extractVideoId] returns exactly the run of digits. *)
Theorem extractVideoId_canonical pre user videoId rest :
  forallb (fun c => negb (Ascii.eqb c "@")) (chars pre) = true ->
  user <> "" -> forallb is_word_or_dot (chars user) = true ->
  videoId <> "" -> forallb is_digit (chars videoId) = true ->
  stops is_digit (chars rest) ->
  extractVideoId (pre ++ "tiktok.com/@" ++ user ++ "/video/" ++ videoId ++ rest)
  = Some videoId.
Proof.
  intros Hp Hu Hcu Hi Hci Hr.
  unfold extractVideoId, patterns. cbn [first_match].
  assert (Hs : search [Lit "tiktok.com/@"; Plus is_word_or_dot; Lit "/video/";
                       Capture is_digit]
                 (chars (pre ++ "tiktok.com/@" ++ user ++ "/video/"
                         ++ videoId ++ rest)) = Some (chars videoId)).
  { rewrite chars_app. revert Hp. induction (chars pre) as [|x a IH]; intros Hp.
    - apply search_hit. now apply canonical_here.
    - change ((x :: a) ++ ?l)%list with (x :: a ++ l)%list.
      rewrite search_skip.
      + cbn [forallb] in Hp. apply andb_prop in Hp. apply IH. tauto.
      + change ("tiktok.com/@" ++ user ++ "/video/" ++ videoId ++ rest)
          with ("tiktok.com/@" ++ (user ++ "/video/" ++ videoId ++ rest)).
        rewrite (chars_app "tiktok.com/@").
        change (x :: a ++ ?l)%list with ((x :: a) ++ l)%list.
        apply no_earlier_match; [exact Hp|discriminate]. }
  unfold match1. rewrite Hs. cbn [option_map]. now rewrite string_of_chars.
Qed.

Lemma extractVideoId_token_witness :
  "7300000000000000001" <> "" /\
  forallb is_word (chars "7300000000000000001") = true /\
  includes Examples.video_url "7300000000000000001" = true.
Proof.
  exact (extractVideoId_token Examples.video_url "7300000000000000001"
           eq_refl).
Defined.

Lemma extractVideoId_rejects_witness :
  extractVideoId "https://example.com/watch?v=1" = None.
Proof.
  apply extractVideoId_rejects; reflexivity.
Defined.

Lemma extractVideoId_canonical_witness :
  extractVideoId
    ("https://m." ++ "tiktok.com/@" ++ "some.user_1" ++ "/video/"
     ++ "7300000000000000001" ++ "?lang=en")
  = Some "7300000000000000001".
Proof.
  apply extractVideoId_canonical;
    first [reflexivity | discriminate].
Defined.

End ExtractorShapeFacts.

(* ================================================================== *)
(** * Formatters: sizes and the two region tables *)
(* ================================================================== *)

Module FormatterShapeFacts.

Import JsNumber JsString JsObject JsNumberFacts Spec Props.

(** Division by 2^20 is exact. *)
Lemma pow2_ge a b : 0 <= a -> 2 ^ b <= 2 ^ a -> b <= a.
Proof.
  intros Ha H. destruct (Z.le_gt_cases b a) as [|Hlt]; [assumption|].
  exfalso. assert (0 <= b) by lia.
  pose proof (Z.pow_lt_mono_r 2 a b ltac:(lia) ltac:(lia) Hlt). lia.
Qed.

Lemma scaled_round_MB a :
  0 < a <= 2 ^ 53 ->
  scaled_round 100 (div a 1048576) = (200 * a + 1048576) / 2097152.
Proof.
  intros Ha.
  destruct (div_shift_spec a 1048576 Ha ltac:(lia)) as [Hs Hn].
  rewrite (div_eq a 1048576 Ha ltac:(lia)).
  set (sh := div_shift a 1048576) in *.
  assert (H19 : 19 <= sh).
  { apply pow2_ge; [exact Hs|].
    assert (H : 2 ^ 52 * 1048576 <= 2 ^ 53 * 2 ^ sh).
    { eapply Z.le_trans; [exact Hn|].
      apply Z.mul_le_mono_nonneg_r; [apply Z.pow_nonneg|]; lia. }
    change (2 ^ 53) with (2 ^ 52 * 2) in H.
    change 1048576 with (2 * 2 ^ 19) in H.
    rewrite <- Z.mul_assoc in H. apply Z.mul_le_mono_pos_l in H; [|reflexivity].
    apply Z.mul_le_mono_pos_l in H; [exact H|lia]. }
  destruct (Z.eq_dec sh 19) as [E19|N19].
  - assert (a = 2 ^ 53).
    { rewrite E19 in Hn. change (2 ^ 52 * 1048576) with (2 ^ 53 * 2 ^ 19) in Hn.
      apply Z.mul_le_mono_pos_r in Hn; [lia|reflexivity]. }
    subst a. rewrite E19. vm_compute. reflexivity.
  - assert (Hsh : sh = (sh - 20) + 20) by lia.
    assert (H0 : 0 <= sh - 20) by lia.
    set (t := sh - 20) in *. rewrite Hsh. clear Hsh.
    assert (Hp : 0 < 2 ^ t) by (apply Z.pow_pos_nonneg; lia).
    unfold scaled_round, round_half_even.
    rewrite Z.pow_add_r by lia. change (2 ^ 20) with 1048576.
    rewrite Z.mul_assoc, Z.mod_mul, Z.div_mul by lia.
    change (2 * 0 <? 1048576) with true. cbv iota.
    replace (0 <=? t + 20) with true by (symmetry; apply Z.leb_le; lia).
    rewrite (Z.pow_add_r 2 (t + 20) 1) by lia.
    rewrite (Z.pow_add_r 2 t 20) by lia.
    change (2 ^ 20) with 1048576. change (2 ^ 1) with 2.
    replace (2 * 100 * (a * 2 ^ t) + 2 ^ t * 1048576)
      with (2 ^ t * (200 * a + 1048576)) by ring.
    replace (2 ^ t * 1048576 * 2) with (2 ^ t * 2097152) by ring.
    apply Z.div_mul_cancel_l; lia.
Qed.

Lemma append_assoc (a b c : string) : (a ++ b) ++ c = a ++ b ++ c.
Proof. induction a as [|x a IH]; [reflexivity|]. cbn. now rewrite IH. Qed.

(** X13. For a byte count between 1 and 2^53, [formatBytes] prints the
    size in megabytes with two decimals, the hundredths being
    [bytes / 2^20 * 100] rounded to the nearest integer, halves upwards;
    the quotient is exact, so the two roundings of the code lose nothing.
    The TypeScript formatter prints the same, and both print "0 MB" for
    0. *)
Theorem formatBytes_rounds bytes :
  0 < bytes <= 2 ^ 53 ->
  let h := (200 * bytes + 1048576) / 2097152 in
  Scraper.formatBytes bytes
  = dec (h / 100) ++ "." ++ dec (h mod 100 / 10) ++ dec (h mod 10) ++ " MB" /\
  Formatter.formatBytes bytes = Scraper.formatBytes bytes /\
  Scraper.formatBytes 0 = "0 MB" /\ Formatter.formatBytes 0 = "0 MB".
Proof.
  intros Hb h.
  assert (E : Scraper.formatBytes bytes
              = toFixed2 (div bytes (1024 * 1024)) ++ " MB").
  { unfold Scraper.formatBytes, Scraper.truthy_Z.
    replace (bytes =? 0) with false by (symmetry; apply Z.eqb_neq; lia).
    replace (bytes <? 0) with false by (symmetry; apply Z.ltb_ge; lia).
    reflexivity. }
  split; [|split; [|split; reflexivity]].
  - rewrite E. unfold toFixed2, digit_string.
    change (1024 * 1024) with 1048576.
    rewrite (scaled_round_MB bytes Hb). fold h.
    now rewrite !append_assoc.
  - rewrite E. unfold Formatter.formatBytes.
    replace (bytes =? 0) with false by (symmetry; apply Z.eqb_neq; lia).
    replace (bytes <? 0) with false by (symmetry; apply Z.ltb_ge; lia).
    reflexivity.
Qed.

Lemma formatBytes_rounds_witness :
  0 < 1572864 <= 2 ^ 53 /\
  Scraper.formatBytes 1572864 = "1.50 MB" /\
  Formatter.formatBytes 1572864 = "1.50 MB".
Proof.
  assert (H : 0 < 1572864 <= 2 ^ 53) by (split; [reflexivity|discriminate]).
  split; [exact H|].
  destruct (formatBytes_rounds 1572864 H) as (E1 & E2 & _).
  split; [rewrite E1|rewrite E2, E1]; reflexivity.
Defined.

(** X14. The region table of the JavaScript scraper extends the table of
    [lib/formatter.ts]: every entry of the latter is in the former, every
    code of the former is mapped to its name, and outside the ten added
    codes the two [parseRegion] functions return the same. *)
Theorem parseRegion_extends :
  (forall code name, In (code, name) Formatter.regionMap ->
                     In (code, name) Scraper.regionMap) /\
  (forall code name, In (code, name) Scraper.regionMap ->
                     Scraper.parseRegion code = Formatter.Name name) /\
  (forall s, ~ In s [ "NG"; "ZA"; "EG"; "AE"; "PK"; "BD"; "IT"; "ES"; "NL"; "PL" ] ->
             Scraper.parseRegion s = Formatter.parseRegion (Some s)).
Proof.
  split; [|split].
  - intros code name H. unfold Formatter.regionMap in H. cbn [In] in H.
    repeat (destruct H as [H|H]; [injection H as <- <-; cbn; tauto|]).
    contradiction.
  - intros code name H. unfold Scraper.regionMap in H. cbn [In] in H.
    repeat (destruct H as [H|H]; [injection H as <- <-; reflexivity|]).
    contradiction.
  - intros s H.
    unfold Scraper.parseRegion, Formatter.parseRegion, get,
      Scraper.regionMap, Formatter.regionMap.
    cbn [own].
    repeat match goal with
           | |- context [String.eqb ?k s] =>
               destruct (String.eqb_spec k s) as [<-|?];
               [first [reflexivity | exfalso; apply H; cbn; tauto]|]
           end.
    reflexivity.
Qed.

End FormatterShapeFacts.

(* ================================================================== *)
(** * Counters sent as decimal strings *)
(* ================================================================== *)

Module CountFacts.

Import JsNumber JsString JsObject Scraper Spec Props ExtractorShapeFacts.

Lemma is_digit_cases c : is_digit c = true -> In c digit_chars.
Proof.
  destruct c as [[|] [|] [|] [|] [|] [|] [|] [|]]; intros H;
    try discriminate H; cbn; tauto.
Qed.

Lemma uint_chars d :
  forallb is_digit (chars (NilEmpty.string_of_uint d)) = true.
Proof. induction d; cbn; auto. Qed.

Lemma uint_value d d' :
  fold_left digit_step (chars (NilEmpty.string_of_uint d))
    (Z.of_N (DecimalPos.Unsigned.of_lu d'))
  = Z.of_N (DecimalPos.Unsigned.of_lu (Decimal.revapp d d')).
Proof.
  revert d'. induction d; intros d'; [reflexivity|..];
    cbn [NilEmpty.string_of_uint chars list_ascii_of_string fold_left Decimal.revapp];
    rewrite <- IHd; f_equal; unfold digit_step;
    match goal with
    | |- context [hex_value ?c] =>
        let v := eval vm_compute in (hex_value c) in
        change (hex_value c) with v
    end; cbv iota; cbn [DecimalPos.Unsigned.of_lu];
    rewrite ?N2Z.inj_add, ?N2Z.inj_mul; cbn [Z.of_N]; lia.
Qed.

Lemma digits_value_uint d :
  digits_value 10 (chars (NilEmpty.string_of_uint d)) = Z.of_N (Pos.of_uint d).
Proof.
  rewrite DecimalPos.Unsigned.of_uint_alt. unfold Decimal.rev.
  rewrite <- uint_value. reflexivity.
Qed.

Lemma digit_in_10 c : is_digit c = true -> digit_in 10 c = true.
Proof.
  intros H. apply is_digit_cases in H. cbn in H.
  repeat (destruct H as [<-|H]; [reflexivity|]). contradiction.
Qed.

Lemma take_while_id (p : ascii -> bool) l :
  forallb p l = true -> take_while p l = l.
Proof.
  induction l as [|c l IH]; [reflexivity|]. cbn.
  intros H. apply andb_prop in H. destruct H as [-> H]. now rewrite IH.
Qed.

Lemma skip_while_all (p : ascii -> bool) l :
  forallb p l = true -> skip_while p l = [].
Proof.
  induction l as [|c l IH]; [reflexivity|]. cbn.
  intros H. apply andb_prop in H. destruct H as [-> H]. now apply IH.
Qed.

Lemma forallb_weaken (p q : ascii -> bool) l :
  (forall c, p c = true -> q c = true) ->
  forallb p l = true -> forallb q l = true.
Proof.
  intros Hpq. rewrite !forallb_forall. auto.
Qed.

Lemma digit_not_space c : is_digit c = true -> is_space c = false.
Proof.
  intros H. apply is_digit_cases in H. cbn in H.
  repeat (destruct H as [<-|H]; [reflexivity|]). contradiction.
Qed.

Lemma skip_while_head (p : ascii -> bool) c l :
  p c = false -> skip_while p (c :: l) = c :: l.
Proof. intros H. cbn. now rewrite H. Qed.

Lemma last_digit l :
  l <> [] -> forallb is_digit l = true ->
  exists c l', List.rev l = c :: l' /\ is_digit c = true.
Proof.
  intros Hne Hd. destruct (List.rev l) as [|c l'] eqn:E.
  - apply (f_equal (@List.rev ascii)) in E. rewrite rev_involutive in E.
    now subst l.
  - exists c, l'. split; [reflexivity|].
    rewrite forallb_forall in Hd. apply Hd. apply in_rev. rewrite E. now left.
Qed.

Lemma trim_digits l :
  l <> [] -> forallb is_digit l = true ->
  trim l = l /\ trim ("-"%char :: l) = "-"%char :: l.
Proof.
  intros Hne Hd. destruct (last_digit l Hne Hd) as (c & l' & Er & Hc).
  unfold trim. split.
  - destruct l as [|x l0]; [contradiction|].
    cbn [forallb] in Hd. apply andb_prop in Hd. destruct Hd as [Hx _].
    rewrite (skip_while_head _ _ _ (digit_not_space _ Hx)), Er.
    rewrite (skip_while_head _ _ _ (digit_not_space _ Hc)), <- Er.
    apply rev_involutive.
  - rewrite (skip_while_head is_space "-"%char l eq_refl).
    change (List.rev ("-"%char :: l)) with (List.rev l ++ ["-"%char])%list.
    rewrite Er. cbn [List.app].
    rewrite (skip_while_head _ _ _ (digit_not_space _ Hc)).
    change (c :: l' ++ ["-"%char])%list with ((c :: l') ++ ["-"%char])%list.
    rewrite <- Er, rev_app_distr, rev_involutive. reflexivity.
Qed.

Lemma unsigned_decimal_digits l :
  l <> [] -> forallb is_digit l = true -> unsigned_decimal l = true.
Proof.
  intros Hne Hd. unfold unsigned_decimal.
  rewrite (take_while_id _ _ Hd), (skip_while_all _ _ Hd).
  destruct (String.eqb _ _); [reflexivity|].
  destruct l; [contradiction|reflexivity].
Qed.

Ltac digit_cases H :=
  apply is_digit_cases in H; cbn in H;
  repeat (destruct H as [<-|H]; [|]); [..|contradiction].

Lemma numeric_literal_digits l :
  l <> [] -> forallb is_digit l = true ->
  numeric_literal l = true /\ numeric_literal ("-"%char :: l) = true.
Proof.
  intros Hne Hd. pose proof (unsigned_decimal_digits l Hne Hd) as Hu.
  split; [|exact Hu].
  destruct l as [|c l]; [contradiction|].
  pose proof Hd as Hd'. cbn [forallb] in Hd'. apply andb_prop in Hd'.
  destruct Hd' as [Hc Hl].
  digit_cases Hc; try exact Hu.
  destruct l as [|p l]; [exact Hu|].
  cbn [forallb] in Hl. apply andb_prop in Hl. destruct Hl as [Hp _].
  digit_cases Hp; exact Hu.
Qed.

Lemma radix_digits l :
  l <> [] -> forallb is_digit l = true ->
  match l with
  | "0"%char :: p :: l' =>
      if Ascii.eqb p "x" || Ascii.eqb p "X" then (16, l') else (10, l)
  | _ => (10, l)
  end = (10, l).
Proof.
  intros Hne Hd. destruct l as [|c l]; [contradiction|].
  cbn [forallb] in Hd. apply andb_prop in Hd. destruct Hd as [Hc Hl].
  digit_cases Hc; try reflexivity.
  destruct l as [|p l]; [reflexivity|].
  cbn [forallb] in Hl. apply andb_prop in Hl. destruct Hl as [Hp _].
  digit_cases Hp; reflexivity.
Qed.

Lemma parse_core sign l :
  l <> [] -> forallb is_digit l = true ->
  (let '(radix, l0) :=
     match l with
     | "0"%char :: p :: l' =>
         if Ascii.eqb p "x" || Ascii.eqb p "X" then (16, l') else (10, l)
     | _ => (10, l)
     end in
   if nonempty (take_while (digit_in radix) l0)
   then Some (sign * digits_value radix (take_while (digit_in radix) l0))
   else None) = Some (sign * digits_value 10 l).
Proof.
  intros Hne Hd. rewrite (radix_digits l Hne Hd).
  rewrite take_while_id
    by (eapply forallb_weaken; [exact digit_in_10|exact Hd]).
  destruct l; [contradiction|reflexivity].
Qed.

Lemma parseInt_digits l :
  l <> [] -> forallb is_digit l = true ->
  JsString.parseInt (string_of_list_ascii l) = Some (digits_value 10 l) /\
  JsString.parseInt (string_of_list_ascii ("-"%char :: l))
  = Some (- digits_value 10 l).
Proof.
  intros Hne Hd. unfold JsString.parseInt. rewrite !chars_of_list. split.
  - destruct l as [|c l]; [contradiction|].
    pose proof Hd as Hd'. cbn [forallb] in Hd'. apply andb_prop in Hd'.
    destruct Hd' as [Hc Hl].
    rewrite (skip_while_head _ _ _ (digit_not_space _ Hc)).
    assert (Hs : strip_sign (c :: l) = c :: l) by (digit_cases Hc; reflexivity).
    assert (Hm : match c :: l with "-"%char :: _ => -1 | _ => 1 end = 1)
      by (digit_cases Hc; reflexivity).
    rewrite Hs, Hm, (parse_core 1 (c :: l) Hne Hd).
    rewrite Z.mul_1_l. reflexivity.
  - rewrite (skip_while_head is_space "-"%char l eq_refl).
    change (strip_sign ("-"%char :: l)) with l.
    cbv iota. rewrite (parse_core (-1) l Hne Hd).
    rewrite Z.mul_comm, <- Z.opp_eq_mul_m1. reflexivity.
Qed.

Lemma uint_nonempty d : d <> Decimal.Nil -> chars (NilEmpty.string_of_uint d) <> [].
Proof. destruct d; [congruence|..]; discriminate. Qed.

Lemma pos_digits p :
  exists l, l <> [] /\ forallb is_digit l = true /\
            digits_value 10 l = Z.pos p /\
            NilZero.string_of_uint (Pos.to_uint p) = string_of_list_ascii l.
Proof.
  exists (chars (NilEmpty.string_of_uint (Pos.to_uint p))).
  pose proof (DecimalPos.Unsigned.to_uint_nonnil p) as Hn.
  split; [now apply uint_nonempty|]. split; [apply uint_chars|]. split.
  - rewrite digits_value_uint, DecimalPos.Unsigned.of_to. reflexivity.
  - rewrite string_of_chars. destruct (Pos.to_uint p); [congruence|..]; reflexivity.
Qed.

Lemma dec_shape n :
  exists l, l <> [] /\ forallb is_digit l = true /\
            digits_value 10 l = Z.abs n /\
            dec n = string_of_list_ascii (if n <? 0 then "-"%char :: l else l).
Proof.
  destruct n as [|p|p].
  - exists ["0"%char]. repeat split; discriminate.
  - destruct (pos_digits p) as (l & Hne & Hd & Hv & Hs).
    exists l. repeat split; try assumption.
  - destruct (pos_digits p) as (l & Hne & Hd & Hv & Hs).
    exists l. repeat split; try assumption.
    unfold dec. cbn [Z.to_int NilZero.string_of_int Z.ltb Z.compare].
    rewrite Hs. reflexivity.
Qed.

Lemma parseInt_dec n :
  - 2 ^ 53 <= n <= 2 ^ 53 -> JsString.parseInt (dec n) = Some n.
Proof.
  intros _. destruct (dec_shape n) as (l & Hne & Hd & Hv & ->).
  destruct (parseInt_digits l Hne Hd) as [Hp Hm].
  destruct (Z.ltb_spec n 0).
  - rewrite Hm, Hv. f_equal. lia.
  - rewrite Hp, Hv. f_equal. lia.
Qed.

Lemma spells_number_dec n : spells_number (dec n) = true.
Proof.
  destruct (dec_shape n) as (l & Hne & Hd & _ & ->).
  unfold spells_number. rewrite chars_of_list.
  destruct (trim_digits l Hne Hd) as [Ht Hm].
  destruct (numeric_literal_digits l Hne Hd) as [Hn Hn'].
  destruct (n <? 0); [rewrite Hm|rewrite Ht]; assumption.
Qed.

Lemma truthy_dec n : truthy_string (dec n) = true.
Proof.
  destruct (dec_shape n) as (l & Hne & _ & _ & ->).
  destruct (n <? 0); [reflexivity|].
  destruct l; [contradiction|reflexivity].
Qed.

Lemma formatNumber_dec n :
  - 2 ^ 53 <= n <= 2 ^ 53 ->
  Scraper.formatNumber (Str (dec n)) = Scraper.formatNumber (Number (Int n)).
Proof.
  intros Hn. unfold Scraper.formatNumber, isNaN, Scraper.parseInt.
  cbn [truthy].
  rewrite truthy_dec, spells_number_dec, (parseInt_dec n Hn).
  cbn [negb orb].
  destruct (Z.eqb_spec n 0) as [->|Hz]; reflexivity.
Qed.

(** X15. The decimal digits of an integer of at most [2^53] in
    magnitude, as a string, are read back by [parseInt] as that integer,
    are not [NaN] for [isNaN], and are displayed by [formatNumber] like
    the integer itself. *)
Theorem decimal_string_round_trip n :
  - 2 ^ 53 <= n <= 2 ^ 53 ->
  Scraper.parseInt (Str (dec n)) = Int n /\
  isNaN (Str (dec n)) = false /\
  Scraper.formatNumber (Str (dec n)) = Scraper.formatNumber (Number (Int n)).
Proof.
  intros Hn. split; [|split].
  - unfold Scraper.parseInt. now rewrite (parseInt_dec n Hn).
  - unfold isNaN. now rewrite spells_number_dec.
  - now apply formatNumber_dec.
Qed.

Lemma decimal_string_round_trip_witness :
  - 2 ^ 53 <= 2000000 <= 2 ^ 53 /\
  Scraper.parseInt (Str "2000000") = Int 2000000 /\
  isNaN (Str "2000000") = false /\
  Scraper.formatNumber (Str "2000000")
  = Scraper.formatNumber (Number (Int 2000000)).
Proof.
  assert (H : - 2 ^ 53 <= 2000000 <= 2 ^ 53)
    by (split; apply Z.leb_le; reflexivity).
  split; [exact H|]. exact (decimal_string_round_trip 2000000 H).
Defined.

Lemma zero_in_range : - 2 ^ 53 <= 0 <= 2 ^ 53.
Proof. split; apply Z.leb_le; reflexivity. Qed.

Lemma or_plain_count v other :
  plain_count v -> plain_count other ->
  plain_count (or v (or other (Number (Int 0)))).
Proof.
  intros Hv Ho. unfold or.
  destruct (truthy v); [exact Hv|].
  destruct (truthy other); [exact Ho|].
  left. right. right. exists 0. split; [exact zero_in_range|reflexivity].
Qed.

Lemma formatNumber_parseInt_count v :
  plain_count v ->
  Scraper.formatNumber v = Scraper.formatNumber (Number (Scraper.parseInt v)).
Proof.
  intros [[->|[->|[z [_ ->]]]]|[z [Hz ->]]]; try reflexivity.
  rewrite (formatNumber_dec z Hz). unfold Scraper.parseInt.
  now rewrite (parseInt_dec z Hz).
Qed.

(** X16. Where every counter is a number, is missing, or is the decimal
    digits of an integer as a string, the integers being of at most
    [2^53] in magnitude, each display string of the statistics is the
    rendering of the raw count beside it. *)
Theorem statistics_consistent_on_counts (stats : Stats) :
  plain_count (digg_count stats) -> plain_count (diggCount stats) ->
  plain_count (comment_count stats) -> plain_count (commentCount stats) ->
  plain_count (share_count stats) -> plain_count (shareCount stats) ->
  plain_count (play_count stats) -> plain_count (playCount stats) ->
  let s := make_statistics stats in
  likes s = Scraper.formatNumber (Number (likesRaw s)) /\
  comments s = Scraper.formatNumber (Number (commentsRaw s)) /\
  shares s = Scraper.formatNumber (Number (sharesRaw s)) /\
  views s = Scraper.formatNumber (Number (viewsRaw s)).
Proof.
  intros. unfold make_statistics.
  cbn [likes comments shares views likesRaw commentsRaw sharesRaw viewsRaw].
  repeat split; apply formatNumber_parseInt_count; now apply or_plain_count.
Qed.

Lemma statistics_consistent_on_counts_witness :
  plain_count (digg_count Samples.string_counts) /\
  plain_count (comment_count Samples.string_counts) /\
  plain_count (play_count Samples.string_counts) /\
  let s := make_statistics Samples.string_counts in
  likes s = Scraper.formatNumber (Number (likesRaw s)) /\
  comments s = Scraper.formatNumber (Number (commentsRaw s)) /\
  shares s = Scraper.formatNumber (Number (sharesRaw s)) /\
  views s = Scraper.formatNumber (Number (viewsRaw s)).
Proof.
  assert (Hd : plain_count (Str "1500")).
  { right. exists 1500. split; [|reflexivity].
    split; apply Z.leb_le; reflexivity. }
  assert (Hc : plain_count (Number (Int 20))).
  { left. right. right. exists 20. split; [|reflexivity].
    split; apply Z.leb_le; reflexivity. }
  assert (Hs : plain_count (Str "7")).
  { right. exists 7. split; [|reflexivity].
    split; apply Z.leb_le; reflexivity. }
  assert (Hu : plain_count Undefined) by (left; left; reflexivity).
  split; [exact Hd|]. split; [exact Hc|]. split; [exact Hu|].
  apply statistics_consistent_on_counts; assumption.
Defined.

End CountFacts.

(* ================================================================== *)
(** * Assembler: the URL lists of a video record *)
(* ================================================================== *)

Module MediaFacts.

Import JsNumber JsString JsObject Scraper Spec Props AssemblerFacts.

Lemma dedup_urls seen l :
  map q_url (dedup seen l) = distinct seen (map q_url l).
Proof.
  revert seen. induction l as [|q l IH]; intros seen; [reflexivity|].
  cbn [dedup map distinct].
  destruct (existsb _ seen); [apply IH|]. cbn [map]. now rewrite IH.
Qed.

Lemma play_entries_urls videoInfo index urls :
  map q_url (play_entries videoInfo index urls) = usable urls.
Proof.
  revert index. induction urls as [|u urls IH]; intros index; [reflexivity|].
  cbn [play_entries usable filter]. rewrite map_app, IH.
  destruct (truthy_string u); reflexivity.
Qed.

Lemma download_entries_urls videoInfo urls :
  map q_url (download_entries videoInfo urls) = usable urls.
Proof.
  induction urls as [|u urls IH]; [reflexivity|].
  cbn [download_entries usable filter]. rewrite map_app, IH.
  destruct (truthy_string u); reflexivity.
Qed.

Lemma usable_app a b : usable (a ++ b) = (usable a ++ usable b)%list.
Proof. apply filter_app. Qed.

Lemma bitrate_entries_urls l :
  map q_url (flat_map bitrate_entry l)
  = usable (flat_map (fun info =>
                        match first (addr_urls (br_play_addr info)) with
                        | Some url => [url]
                        | None => []
                        end) l).
Proof.
  induction l as [|info l IH]; [reflexivity|].
  cbn [flat_map]. rewrite map_app, usable_app, IH. f_equal.
  unfold bitrate_entry.
  destruct (first (addr_urls (br_play_addr info))) as [u|]; [|reflexivity].
  cbn [usable filter]. destruct (truthy_string u); reflexivity.
Qed.

Lemma has_items_list {A} (l : option (list A)) :
  has_items l = false -> match l with Some l => l | None => [] end = [].
Proof. destruct l as [[|x l]|]; [reflexivity|discriminate|reflexivity]. Qed.

Lemma qualities_urls videoInfo :
  map q_url (qualities videoInfo)
  = usable (play_urls videoInfo ++ bitrate_urls videoInfo).
Proof.
  unfold qualities, play_urls, bitrate_urls.
  rewrite map_app, usable_app. f_equal.
  - destruct (has_items (addr_urls (play_addr videoInfo))) eqn:E.
    + apply play_entries_urls.
    + now rewrite (has_items_list _ E).
  - destruct (has_items (bit_rate videoInfo)) eqn:E.
    + apply bitrate_entries_urls.
    + now rewrite (has_items_list _ E).
Qed.

Lemma download_entries_fields videoInfo urls :
  Forall (fun q => q_quality q = or_else truthy_string (ratio videoInfo) "540p"
                   /\ q_size q = "Unknown" /\ q_sizeBytes q = 0
                   /\ q_type q = None)
    (download_entries videoInfo urls).
Proof.
  induction urls as [|u urls IH]; [constructor|].
  cbn [download_entries]. apply Forall_app. split; [|exact IH].
  destruct (truthy_string u); repeat constructor.
Qed.

(** X17. In the record of a video post, the URLs of [noWatermark] are, in
    this order, the non-empty URLs of [play_addr.url_list] followed by the
    non-empty first URLs of the [bit_rate] entries, each at its first
    occurrence only: the sort by quality moves none. *)
Theorem noWatermark_urls itemStruct d v :
  data (formatResponse itemStruct) = Some d ->
  d_video d = Some v ->
  let videoInfo := video_info itemStruct in
  map q_url (noWatermark v)
  = distinct [] (usable (play_urls videoInfo ++ bitrate_urls videoInfo)).
Proof.
  intros Hd Hv videoInfo.
  destruct (video_of_response _ _ _ Hd Hv) as (_ & _ & ->).
  rewrite dedup_urls. f_equal. apply qualities_urls.
Qed.

(** X18. In the record of a video post, [withWatermark] has one entry for
    each non-empty URL of [download_addr.url_list], in the order of the
    list and with repetitions kept; its label is [ratio] or "540p", its
    size "Unknown", and it has no [type]. *)
Theorem withWatermark_urls itemStruct d v :
  data (formatResponse itemStruct) = Some d ->
  d_video d = Some v ->
  let videoInfo := video_info itemStruct in
  map q_url (withWatermark v) = usable (download_urls videoInfo) /\
  Forall (fun q => q_quality q = or_else truthy_string (ratio videoInfo) "540p"
                   /\ q_size q = "Unknown" /\ q_sizeBytes q = 0
                   /\ q_type q = None)
    (withWatermark v).
Proof.
  intros Hd Hv videoInfo.
  destruct (video_of_response _ _ _ Hd Hv) as (_ & -> & _).
  unfold make_video. cbn [withWatermark]. unfold with_watermark, download_urls.
  fold videoInfo.
  destruct (has_items (addr_urls (download_addr videoInfo))) eqn:E.
  - split; [apply download_entries_urls|apply download_entries_fields].
  - rewrite (has_items_list _ E). split; constructor.
Qed.

Lemma distinct_In seen l u : In u (distinct seen l) -> In u l.
Proof.
  revert seen. induction l as [|x l IH]; intros seen; [intros []|].
  cbn [distinct]. destruct (existsb _ seen).
  - intros H. right. eapply IH, H.
  - intros [->|H]; [now left|right; eapply IH, H].
Qed.

Lemma distinct_nil l : distinct [] l = [] <-> l = [].
Proof.
  split; [|now intros ->]. destruct l; [reflexivity|discriminate].
Qed.

Lemma hd_of_pool (l : list VideoQuality) :
  Forall (fun q => truthy_string (q_url q) = true) l ->
  let h := or_opt truthy_string (option_map q_url (find is_hd l))
             (or_opt truthy_string (option_map q_url (first (Some l))) None) in
  (h = None <-> l = []) /\ (forall u, h = Some u -> In u (map q_url l)).
Proof.
  intros Hu. destruct (find is_hd l) as [q|] eqn:Ef.
  - cbn [option_map or_opt]. rewrite (find_url_truthy _ _ _ Hu Ef).
    apply find_some in Ef. destruct Ef as [Hin _]. split.
    + split; [discriminate|]. intros ->. destruct Hin.
    + intros u [= <-]. now apply in_map.
  - cbn [option_map or_opt first]. destruct l as [|q l].
    + split; [tauto|discriminate].
    + cbn [option_map or_opt]. rewrite (Forall_inv Hu). split.
      * split; discriminate.
      * intros u [= <-]. now left.
Qed.

(** X19. In the record of a video post, [hd] is [null] exactly when the
    record has no non-empty play or bit-rate URL; otherwise it is one of
    these URLs, never the empty string. *)
Theorem hd_from_candidates itemStruct d v :
  data (formatResponse itemStruct) = Some d ->
  d_video d = Some v ->
  let videoInfo := video_info itemStruct in
  let pool := usable (play_urls videoInfo ++ bitrate_urls videoInfo) in
  (hd v = None <-> pool = []) /\
  (forall u, hd v = Some u -> In u pool /\ u <> "").
Proof.
  intros Hd Hv videoInfo pool.
  destruct (video_of_response _ _ _ Hd Hv) as (_ & -> & _).
  unfold make_video. cbn [hd]. rewrite sort_dedup_qualities.
  assert (Hu : Forall (fun q => truthy_string (q_url q) = true)
                 (dedup [] (qualities (video_info itemStruct))))
    by (apply dedup_Forall, qualities_url).
  destruct (hd_of_pool _ Hu) as [Hnone Hsome].
  assert (Hp : map q_url (dedup [] (qualities (video_info itemStruct)))
               = distinct [] pool)
    by (rewrite dedup_urls; f_equal; apply qualities_urls).
  split.
  - rewrite Hnone, <- (distinct_nil pool), <- Hp.
    split; [now intros ->|]. intros H. now apply map_eq_nil in H.
  - intros u H. apply Hsome in H. rewrite Hp in H.
    apply distinct_In in H. split; [exact H|].
    apply filter_In in H. destruct H as [_ H]. now intros ->.
Qed.

Lemma noWatermark_urls_witness :
  exists d v,
    data (formatResponse Examples.video_item) = Some d /\
    d_video d = Some v /\
    map q_url (noWatermark v)
    = distinct [] (usable (play_urls (video_info Examples.video_item)
                           ++ bitrate_urls (video_info Examples.video_item))).
Proof.
  eexists. eexists. split; [reflexivity|]. split; [reflexivity|].
  exact (noWatermark_urls Examples.video_item _ _ eq_refl eq_refl).
Defined.

Lemma withWatermark_urls_witness :
  exists d v,
    data (formatResponse Examples.video_item) = Some d /\
    d_video d = Some v /\
    map q_url (withWatermark v)
    = usable (download_urls (video_info Examples.video_item)).
Proof.
  eexists. eexists. split; [reflexivity|]. split; [reflexivity|].
  exact (proj1 (withWatermark_urls Examples.video_item _ _ eq_refl eq_refl)).
Defined.

Lemma hd_from_candidates_witness :
  exists d v,
    data (formatResponse Examples.video_item) = Some d /\
    d_video d = Some v /\
    (hd v = None
     <-> usable (play_urls (video_info Examples.video_item)
                 ++ bitrate_urls (video_info Examples.video_item)) = []).
Proof.
  eexists. eexists. split; [reflexivity|]. split; [reflexivity|].
  exact (proj1 (hd_from_candidates Examples.video_item _ _ eq_refl eq_refl)).
Defined.

End MediaFacts.

(* ================================================================== *)
(** * The extractor of lib/tiktok-scraper.ts *)
(* ================================================================== *)

Module LegacyFacts.

Import JsString JsObject Spec Props ExtractorShapeFacts.

(** ** The assembly of [lib/tiktok-scraper.ts] *)

(** C1, on [lib/tiktok-scraper.ts].  The candidates are returned as
    they were pushed, with no filter on the URL and no sort: for a
    video whose ladder repeats the primary URL under "1080p" before a
    second URL under "720p", [noWatermark] holds the first URL twice
    and has the "540p" entry before the two higher ones. *)
Theorem legacy_noWatermark_as_pushed :
  exists d v,
    Legacy.assemble Samples.legacy_ladder "7300000000000000001"
    = Scraper.Return d /\
    Legacy.d_type d = "video" /\
    Legacy.d_video d = Some v /\
    map (fun q => (Scraper.q_url q, Scraper.q_quality q))
      (Legacy.noWatermark v)
    = [ ("https://v16.example/a", "540p");
        ("https://v16.example/a", "1080p");
        ("https://v16.example/b", "720p") ] /\
    ~ NoDup (map Scraper.q_url (Legacy.noWatermark v)) /\
    ~ StronglySorted
        (fun a b => rank (Scraper.q_quality a) >= rank (Scraper.q_quality b))
        (Legacy.noWatermark v).
Proof.
  eexists. eexists. split; [reflexivity|]. split; [reflexivity|].
  split; [reflexivity|]. split; [reflexivity|]. split.
  - intros H. inversion H as [|u l Hn _]; subst. apply Hn. now left.
  - intros H. inversion H as [|q l _ Hf]; subst.
    apply Forall_inv in Hf. vm_compute in Hf. now apply Hf.
Qed.

(** C2, on [lib/tiktok-scraper.ts].  [hd] is searched in the pool as it
    was pushed: for the same video it is the repeated first URL, found
    under its second label "1080p", where the pool without repetitions
    has the second URL, under "720p", as its first entry with such a
    label.  For a video record without any address the pool is empty
    and [hd] is [undefined], not [null]. *)
Theorem legacy_hd_from_raw_pool :
  (exists d v,
     Legacy.assemble Samples.legacy_ladder "7300000000000000001"
     = Scraper.Return d /\
     Legacy.d_video d = Some v /\
     Legacy.hd v = Scraper.Str "https://v16.example/a" /\
     option_map Scraper.q_url
       (find Scraper.is_hd
          (Scraper.sort Scraper.by_quality
             (Scraper.dedup [] (Legacy.noWatermark v))))
     = Some "https://v16.example/b") /\
  (exists d v,
     Legacy.assemble Samples.legacy_no_address "1" = Scraper.Return d /\
     Legacy.d_video d = Some v /\
     Legacy.noWatermark v = [] /\
     Legacy.hd v = Scraper.Undefined /\
     Legacy.hd v <> Scraper.Null).
Proof.
  split.
  - eexists. eexists. split; [reflexivity|]. split; [reflexivity|].
    split; reflexivity.
  - eexists. eexists. split; [reflexivity|]. split; [reflexivity|].
    split; [reflexivity|]. split; [reflexivity|]. discriminate.
Qed.

(** C6, on [lib/tiktok-scraper.ts].  The [video] field is set only
    when the item record has a [video]: for a record with an identifier
    only, the type is "video" and both [video] and [images] are
    absent. *)
Theorem legacy_video_absent :
  exists d,
    Legacy.assemble Samples.legacy_bare "1" = Scraper.Return d /\
    Legacy.d_type d = "video" /\
    Legacy.d_video d = None /\
    Legacy.d_images d = None.
Proof.
  eexists. split; [reflexivity|]. split; [reflexivity|].
  split; reflexivity.
Qed.

(** C7, on [lib/tiktok-scraper.ts].  The images are mapped and not
    filtered: an entry without any URL stays in the output with the
    empty string as its [url]. *)
Theorem legacy_images_unfiltered :
  exists d imgs,
    Legacy.assemble Samples.legacy_images "7300000000000000002"
    = Scraper.Return d /\
    Legacy.d_type d = "images" /\
    Legacy.d_images d = Some imgs /\
    map Scraper.i_url imgs = [ "https://p16.example/1"; "" ] /\
    ~ Forall (fun i => Scraper.i_url i <> "") imgs.
Proof.
  eexists. eexists. split; [reflexivity|]. split; [reflexivity|].
  split; [reflexivity|]. split; [reflexivity|].
  intros H. apply Forall_inv_tail, Forall_inv in H. now apply H.
Qed.

(** ** The extractor of [lib/tiktok-scraper.ts] *)

(** X20. Whatever identifier the extractor of [lib/tiktok-scraper.ts]
    returns for a URL that does not name the host vt.tiktok.com, the
    extractor of the JavaScript scraper returns too, unless it is the
    placeholder "pending" given to a vm.tiktok.com URL that no pattern
    matches. *)
Theorem legacy_ids_kept url id :
  includes url "vt.tiktok.com" = false ->
  Legacy.extractVideoId url = Some id ->
  Scraper.extractVideoId url = Some id
  \/ (id = "pending" /\ includes url "vm.tiktok.com" = true
      /\ Scraper.first_match url Legacy.patterns = None).
Proof.
  intros Hvt. unfold Legacy.extractVideoId.
  destruct (Scraper.first_match url Legacy.patterns) as [i|] eqn:E.
  - intros [= ->]. left. revert E.
    unfold Scraper.extractVideoId, Scraper.patterns, Legacy.patterns.
    cbn [Scraper.first_match].
    rewrite (lit_refutes "vt.tiktok.com/" "vt.tiktok.com" [] (chars "/")
               _ url eq_refl Hvt).
    repeat match goal with
           | |- context [match match1 url ?p with _ => _ end] =>
               destruct (match1 url p); [tauto|]
           end.
    discriminate.
  - rewrite Hvt, orb_false_r.
    destruct (includes url "vm.tiktok.com"); [|discriminate].
    intros [= <-]. right. repeat split.
Qed.

Lemma legacy_ids_kept_witness :
  includes "https://www.tiktok.com/@user/video/7123" "vt.tiktok.com" = false /\
  Legacy.extractVideoId "https://www.tiktok.com/@user/video/7123" = Some "7123" /\
  (Scraper.extractVideoId "https://www.tiktok.com/@user/video/7123" = Some "7123"
   \/ ("7123" = "pending"
       /\ includes "https://www.tiktok.com/@user/video/7123" "vm.tiktok.com" = true
       /\ Scraper.first_match "https://www.tiktok.com/@user/video/7123"
            Legacy.patterns = None)).
Proof.
  split; [reflexivity|]. split; [reflexivity|].
  apply legacy_ids_kept; reflexivity.
Defined.

End LegacyFacts.
